(** * gym-memo: the estimated-1RM tracker of [app.py]

    A shallow embedding of the computational core of [app.py]: the Epley
    estimator [est_1rm_epley], the loading of the workout table
    ([db_load_sets]), the "previous session" blocks of the add-set form, the
    automatic set numbering, the day view with its record (PR) detection and
    the session aggregation behind the trend charts.

    Modelling conventions.
    - A pandas [DataFrame] of workouts is a list of rows in frame order; every
      row carries its index label [idx].  The frame built from an empty list
      of records has no columns at all ([NoColumns]).
    - A boolean mask over a frame is a predicate on rows, and boolean indexing
      is [filter].
    - Python floats are binary64 numbers: Rocq's primitive [float] with its
      operations, which round to nearest, overflow to an infinity and have
      [NaN].  An integer column holds [Int64] values.
    - Missing values ([None], [NaN], [pd.NA]) are [None] of an option type.
      A cell of a float column that would hold [NaN] is missing: [value]
      reads a cell accordingly.  In the tables that [groupby] builds the
      value column is a [float], [NaN] where a group has no number.
    - Calendar dates are day numbers in [Z].
    - [sort_values] is modelled by a stable insertion sort.  pandas sorts with
      quicksort by default, which may order rows of equal key differently;
      the results below are derived from sortedness and permutation only, or
      say explicitly when they need keys to be distinct.
    - Exceptions are values of [result].
    - The reductions are those of pandas 2: on a float column without any
      number [max] and [idxmax] return [NaN]; on a column of dtype [object]
      [idxmax] raises [TypeError]. *)

From Stdlib Require Import ZArith QArith Qpower Qabs Lia Lqa Bool List.
From Stdlib Require Import String.
From Stdlib Require Import Permutation Sorted RelationClasses Floats.
Import ListNotations.

#[local] Set Warnings "-inexact-float".

(** ** Exceptions *)

Inductive exn : Type :=
| KeyError (key : string)
| TypeError.

Inductive result (A : Type) : Type :=
| Ok (a : A)
| Raise (e : exn).

Arguments Ok {A} a.
Arguments Raise {A} e.

Definition bind {A B : Type} (c : result A) (k : A -> result B) : result B :=
  match c with
  | Ok a => k a
  | Raise e => Raise e
  end.

Notation "x <- c ;; k" := (bind c (fun x => k))
  (at level 61, c at next level, right associativity).

Definition raises {A : Type} (c : result A) : bool :=
  match c with
  | Ok _ => false
  | Raise _ => true
  end.

(** ** Constants and the estimator (app.py, lines 36-43) *)

Definition EPS : float := 0.1%float.

(** [float(n)] of an integer: the nearest binary64 number, ties to even.
    Every [Int64] has one; beyond the range of binary64, where Python raises
    [OverflowError], the conversion used here gives an infinity. *)
Definition float_of_int (n : Z) : float :=
  SF2Prim (binary_normalize prec emax n 0 false).

(** [pd.isna(weight) or pd.isna(reps) or reps <= 0] gives [None]; otherwise
    [float(weight) * (1.0 + float(reps) / 30.0)]. *)
Definition est_1rm_epley (weight : option float) (reps : option Z)
  : option float :=
  match weight with
  | None => None
  | Some w =>
      if is_nan w then None
      else
        match reps with
        | None => None
        | Some r =>
            if (r <=? 0)%Z then None
            else Some (w * (1 + float_of_int r / 30))%float
        end
  end.

(** Reading a cell of a float column: [NaN] is the missing value. *)
Definition value (v : option float) : option float :=
  match v with
  | Some x => if is_nan x then None else Some x
  | None => None
  end.

(** ** Records and frames *)

(** One record of the [workouts] table as the query returns it. *)
Record Workout : Type := mkWorkout {
  w_date : Z;
  w_exercise : string;
  w_set_no : option Z;
  w_weight_kg : option float;
  w_reps : option Z;
  w_note : string
}.

(** One row of the frame [sets]: the table columns, the index label and the
    derived column [e1rm]. *)
Record Row : Type := mkRow {
  idx : nat;
  date : Z;
  exercise : string;
  set_no : option Z;
  weight_kg : option float;
  reps : option Z;
  note : string;
  e1rm : option float
}.

(** A frame is either the frame without columns that [pd.DataFrame] builds
    from no record, or a frame with the columns of the table and the listed
    rows (possibly none, after filtering). *)
Inductive DataFrame : Type :=
| NoColumns
| Frame (rows : list Row).

Definition null {A : Type} (l : list A) : bool :=
  match l with
  | [] => true
  | _ :: _ => false
  end.

(** [df.empty] *)
Definition empty (df : DataFrame) : bool :=
  match df with
  | NoColumns => true
  | Frame rows => null rows
  end.

(** [df[key]]: a frame without columns raises [KeyError]; otherwise the
    column is read off the rows. *)
Definition getitem (df : DataFrame) (key : string) : result (list Row) :=
  match df with
  | NoColumns => Raise (KeyError key)
  | Frame rows => Ok rows
  end.

(** *** Column helpers *)

Definition set_e1rm (r : Row) (v : option float) : Row :=
  {| idx := idx r; date := date r; exercise := exercise r;
     set_no := set_no r; weight_kg := weight_kg r; reps := reps r;
     note := note r; e1rm := v |}.

(** [df["e1rm"] = df.apply(lambda r: est_1rm_epley(r["weight_kg"], r["reps"]), axis=1)]:
    the results become the cells of a float column. *)
Definition assign_e1rm (df : list Row) : list Row :=
  map (fun r => set_e1rm r (value (est_1rm_epley (weight_kg r) (reps r))))
      df.

Definition notna {A : Type} (v : option A) : bool :=
  match v with
  | Some _ => true
  | None => false
  end.

(** [df.dropna(subset=["e1rm"])] *)
Definition dropna_e1rm (df : list Row) : list Row :=
  filter (fun r => notna (value (e1rm r))) df.

(** [Series.max()] of a float column, missing values skipped; [None] stands
    for the [NaN] returned when no value is left. *)
Definition max_step (acc : option float) (v : option float)
  : option float :=
  match acc, value v with
  | None, x => x
  | Some a, None => Some a
  | Some a, Some x => if (x <=? a)%float then Some a else Some x
  end.

Definition col_max (c : list (option float)) : option float :=
  fold_left max_step c None.

(** [Series.max()] of an integer column ([Int64], [pd.NA] skipped) and of a
    column of dates. *)
Definition zmax_step (acc : option Z) (v : option Z) : option Z :=
  match acc, v with
  | None, _ => v
  | Some a, None => Some a
  | Some a, Some x => Some (Z.max a x)
  end.

Definition col_zmax (c : list (option Z)) : option Z :=
  fold_left zmax_step c None.

(** [Series.idxmax()] of a float column: the label of the first occurrence
    of the maximum, missing values skipped.  [None] stands for the [NaN]
    that pandas 2 returns (with a warning) for a column without any number:
    it equals no label, so no line gets marked. *)
Fixpoint idxmax_from (best : option (nat * float)) (df : list Row)
  : option nat :=
  match df with
  | [] => option_map fst best
  | r :: rest =>
      match value (e1rm r) with
      | None => idxmax_from best rest
      | Some v =>
          match best with
          | None => idxmax_from (Some (idx r, v)) rest
          | Some (_, b) =>
              if (v <=? b)%float then idxmax_from best rest
              else idxmax_from (Some (idx r, v)) rest
          end
      end
  end.

Definition idxmax (df : list Row) : option nat := idxmax_from None df.

(** [Series.unique()]: the distinct values in order of first appearance. *)
Fixpoint unique {A : Type} (eqb : A -> A -> bool) (l : list A) : list A :=
  match l with
  | [] => []
  | x :: rest => x :: filter (fun y => negb (eqb x y)) (unique eqb rest)
  end.

(** *** Sorting *)

Fixpoint insert_by {A : Type} (leb : A -> A -> bool) (x : A) (l : list A)
  : list A :=
  match l with
  | [] => [x]
  | y :: rest => if leb x y then x :: l else y :: insert_by leb x rest
  end.

Definition sort_by {A : Type} (leb : A -> A -> bool) (l : list A) : list A :=
  fold_right (insert_by leb) [] l.

(** The order relation decided by a comparison function. *)
Definition le_of {A : Type} (leb : A -> A -> bool) : A -> A -> Prop :=
  fun a b => leb a b = true.

(** Ascending order of an [Int64] key, [pd.NA] last. *)
Definition key_leb (a b : option Z) : bool :=
  match a, b with
  | Some x, Some y => (x <=? y)%Z
  | Some _, None => true
  | None, Some _ => false
  | None, None => true
  end.

Definition set_no_leb (a b : Row) : bool := key_leb (set_no a) (set_no b).

(** [df.sort_values("set_no")] *)
Definition sort_values_set_no (df : list Row) : list Row :=
  sort_by set_no_leb df.

(** Descending order of a float key, missing values last. *)
Definition desc_leb (a b : option float) : bool :=
  match value a, value b with
  | Some x, Some y => (y <=? x)%float
  | Some _, None => true
  | None, Some _ => false
  | None, None => true
  end.

Definition exercise_e1rm_leb (a b : Row) : bool :=
  match String.compare (exercise a) (exercise b) with
  | Lt => true
  | Gt => false
  | Eq => desc_leb (e1rm a) (e1rm b)
  end.

(** [df.sort_values(["exercise","e1rm"], ascending=[True, False])] *)
Definition sort_values_exercise_e1rm (df : list Row) : list Row :=
  sort_by exercise_e1rm_leb df.

(** Python's [sorted] on exercise names. *)
Definition sorted_names (l : list string) : list string :=
  sort_by String.leb l.

(** ** Loading (app.py, lines 181-194) *)

(** The cell of the column [e1rm] for a record: the estimate, missing when
    the estimator returns [None]. *)
Definition w_e1rm (w : Workout) : option float :=
  value (est_1rm_epley (w_weight_kg w) (w_reps w)).

Definition load_row (i : nat) (w : Workout) : Row :=
  {| idx := i; date := w_date w; exercise := w_exercise w;
     set_no := w_set_no w; weight_kg := w_weight_kg w; reps := w_reps w;
     note := w_note w; e1rm := w_e1rm w |}.

Fixpoint load_rows (i : nat) (data : list Workout) : list Row :=
  match data with
  | [] => []
  | w :: rest => load_row i w :: load_rows (S i) rest
  end.

(** [df = pd.DataFrame(res.data); if df.empty: return df]: no record, no
    column. *)
Definition db_load_sets (data : list Workout) : DataFrame :=
  match data with
  | [] => NoColumns
  | _ :: _ => Frame (load_rows 0 data)
  end.

(** ** The add-set form (app.py, lines 346-423) *)

(** Truth value of a Python string: [if exercise:]. *)
Definition truthy (s : string) : bool := negb (String.eqb s EmptyString).

(** [(sets["exercise"] == exercise) & (sets["date"] < date)] *)
Definition prev_mask (exercise0 : string) (date0 : Z) (r : Row) : bool :=
  String.eqb (exercise r) exercise0 && (date r <? date0)%Z.

(** [(sets["exercise"] == exercise) & (sets["date"] == prev_day)] *)
Definition on_day (exercise0 : string) (day : Z) (r : Row) : bool :=
  String.eqb (exercise r) exercise0 && (date r =? day)%Z.

(** The columns kept for display:
    [[["set_no","weight_kg","reps","e1rm","note"]]]. *)
Record PrevRow : Type := mkPrevRow {
  p_set_no : option Z;
  p_weight_kg : option float;
  p_reps : option Z;
  p_e1rm : option float;
  p_note : string
}.

Definition prev_columns (r : Row) : PrevRow :=
  {| p_set_no := set_no r; p_weight_kg := weight_kg r; p_reps := reps r;
     p_e1rm := e1rm r; p_note := note r |}.

(** What a "previous session" block shows: the day, the table and the
    session 1RM. *)
Record PrevSession : Type := mkPrevSession {
  prev_day : Z;
  prev_df : list PrevRow;
  prev_best : option float
}.

(** Lines 370-386, the block that always runs.  [None] is the caption
    "no previous record". *)
Definition prev_block (sets : DataFrame) (exercise0 : string) (date0 : Z)
  : result (option PrevSession) :=
  rows <- getitem sets "exercise" ;;
  _ <- getitem sets "date" ;;
  if negb (empty sets) && existsb (prev_mask exercise0 date0) rows then
    match col_zmax (map (fun r => Some (date r))
                        (filter (prev_mask exercise0 date0) rows)) with
    | Some day =>
        let df := filter (on_day exercise0 day) rows in
        let df := assign_e1rm df in
        let df := map prev_columns (sort_values_set_no df) in
        Ok (Some {| prev_day := day; prev_df := df;
                    prev_best := col_max (map p_e1rm df) |})
    | None => Ok None
    end
  else Ok None.

(** Lines 349-366, the same computation under [if exercise:].  The outer
    [None] says that the block did not run. *)
Definition prev_block_guarded (sets : DataFrame) (exercise0 : string)
  (date0 : Z) : result (option (option PrevSession)) :=
  if truthy exercise0 then
    rows <- getitem sets "exercise" ;;
    _ <- getitem sets "date" ;;
    if negb (empty sets) && existsb (prev_mask exercise0 date0) rows then
      match col_zmax (map (fun r => Some (date r))
                          (filter (prev_mask exercise0 date0) rows)) with
      | Some day =>
          let df := filter (on_day exercise0 day) rows in
          let df := assign_e1rm df in
          let df := map prev_columns (sort_values_set_no df) in
          Ok (Some (Some {| prev_day := day; prev_df := df;
                            prev_best := col_max (map p_e1rm df) |}))
      | None => Ok (Some None)
      end
    else Ok (Some None)
  else Ok None.

(** Lines 397-403: the next set number of the (date, exercise) group; any
    exception falls back to 1. *)
Definition next_set_no (sets : DataFrame) (date0 : Z) (exercise0 : string)
  : Z :=
  match
    (rows <- getitem sets "date" ;;
     _ <- getitem sets "exercise" ;;
     let exist :=
       filter (fun r => (date r =? date0)%Z
                        && String.eqb (exercise r) exercise0) rows in
     Ok (match col_zmax (map set_no exist) with
         | Some cur_max => (cur_max + 1)%Z
         | None => 1%Z
         end))
  with
  | Ok n => n
  | Raise _ => 1%Z
  end.

(** Lines 413-423: the record sent to the table when the form is submitted. *)
Definition submitted_row (sets : DataFrame) (date0 : Z) (exercise0 : string)
  (weight : float) (reps0 : Z) (note0 : string) : Workout :=
  {| w_date := date0; w_exercise := exercise0;
     w_set_no := Some (next_set_no sets date0 exercise0);
     w_weight_kg := Some weight; w_reps := Some reps0; w_note := note0 |}.

(** ** The day view (app.py, lines 466-507) *)

Definition today_sets (rows : list Row) (day : Z) : list Row :=
  filter (fun r => (date r =? day)%Z) rows.

(** Lines 472-474. *)
Definition history (rows : list Row) (day : Z) : list Row :=
  let h := filter (fun r => (date r <? day)%Z) rows in
  if negb (null h) then assign_e1rm h else h.

(** First non-missing value of a column ([GroupBy.first]). *)
Fixpoint first_valid (c : list (option float)) : option float :=
  match c with
  | [] => None
  | v :: rest =>
      match value v with
      | Some x => Some x
      | None => first_valid rest
      end
  end.

(** The float a reduction returns: [NaN] when no number was left. *)
Definition or_nan (v : option float) : float :=
  match v with
  | Some x => x
  | None => nan
  end.

(** [df.groupby("exercise", as_index=True).first()[["e1rm"]]]: one entry per
    exercise name, names ascending, the value being the first number of the
    group in frame order, [NaN] for a group without any. *)
Definition groupby_exercise_first (df : list Row)
  : list (string * float) :=
  map
    (fun ex =>
       (ex,
        or_nan (first_valid
                  (map e1rm
                       (filter (fun r => String.eqb (exercise r) ex) df)))))
    (sorted_names (unique String.eqb (map exercise df))).

(** Lines 475-479. *)
Definition best_hist (rows : list Row) (day : Z) : list (string * float) :=
  groupby_exercise_first
    (sort_values_exercise_e1rm (dropna_e1rm (history rows day))).

(** [best_hist.loc[ex, "hist_best"] if ex in best_hist.index else None] *)
Fixpoint loc (table : list (string * float)) (ex : string)
  : option float :=
  match table with
  | [] => None
  | (k, v) :: rest => if String.eqb k ex then Some v else loc rest ex
  end.

(** Line 482. *)
Definition ex_df (today : list Row) (ex : string) : list Row :=
  sort_values_set_no (filter (fun r => String.eqb (exercise r) ex) today).

(** Line 485. *)
Definition max_e1rm (df : list Row) : option float :=
  col_max (map e1rm df).

(** Line 491: [(hist_best_val is None) or (max_e1rm > (hist_best_val + EPS))];
    a comparison with [NaN] is false. *)
Definition is_pr_day (hist_best_val : option float)
  (max_e1rm0 : option float) : bool :=
  match hist_best_val with
  | None => true
  | Some h =>
      match max_e1rm0 with
      | None => false
      | Some m => (h + EPS <? m)%float
      end
  end.

(** One displayed line of lines 495-507. *)
Record SetLine : Type := mkSetLine {
  line_row : Row;
  is_session_best : bool;
  show_pr : bool
}.

Definition label_eqb (i : nat) (best : option nat) : bool :=
  match best with
  | Some b => Nat.eqb i b
  | None => false
  end.

Record ExerciseReport : Type := mkExerciseReport {
  rep_exercise : string;
  rep_max_e1rm : option float;
  rep_hist_best_val : option float;
  rep_is_pr_day : bool;
  rep_best_idx : option nat;
  rep_lines : list SetLine
}.

(** The column that [df.apply] of the estimator builds has dtype [object]
    when the estimator returned [None] for every row, and is a float column
    otherwise. *)
Definition object_dtype (df : list Row) : bool :=
  forallb (fun r => negb (notna (est_1rm_epley (weight_kg r) (reps r)))) df.

(** Line 493: [ex_df["e1rm"].idxmax()].  On a column of dtype [object] it
    raises [TypeError]. *)
Definition best_idx_of (object_column : bool) (df : list Row)
  : result (option nat) :=
  if object_column then Raise TypeError else Ok (idxmax df).

(** The body of the loop of line 495: [int(row['set_no'])] and
    [int(row['reps'])] raise [TypeError] on [pd.NA]. *)
Definition set_line (best_idx : option nat) (pr : bool) (row : Row)
  : result SetLine :=
  match set_no row, reps row with
  | Some _, Some _ =>
      let best := label_eqb (idx row) best_idx in
      Ok {| line_row := row; is_session_best := best;
            show_pr := best && pr |}
  | _, _ => Raise TypeError
  end.

(** A [for] loop that collects what its body returns and stops at the
    first exception. *)
Fixpoint for_each {A B : Type} (body : A -> result B) (l : list A)
  : result (list B) :=
  match l with
  | [] => Ok []
  | x :: rest =>
      y <- body x ;;
      ys <- for_each body rest ;;
      Ok (y :: ys)
  end.

(** The body of the loop of line 481 for one exercise. *)
Definition exercise_report (hist : list (string * float))
  (today : list Row) (object_column : bool) (ex : string)
  : result ExerciseReport :=
  let df := ex_df today ex in
  let m := max_e1rm df in
  let h := loc hist ex in
  let pr := is_pr_day h m in
  best_idx <- best_idx_of object_column df ;;
  lines <- for_each (set_line best_idx pr) df ;;
  Ok {| rep_exercise := ex; rep_max_e1rm := m; rep_hist_best_val := h;
        rep_is_pr_day := pr; rep_best_idx := best_idx;
        rep_lines := lines |}.

(** Lines 466-507.  [None] is the notice "no record on this date". *)
Definition day_view (sets : DataFrame) (day : Z)
  : result (option (list ExerciseReport)) :=
  rows <- getitem sets "date" ;;
  let today := today_sets rows day in
  if null today then Ok None
  else
    let object_column := object_dtype today in
    let today := assign_e1rm today in
    let hist := best_hist rows day in
    reports <- for_each (exercise_report hist today object_column)
                 (sorted_names (unique String.eqb (map exercise today))) ;;
    Ok (Some reports).

(** The record flag of one exercise on one day, as the day view computes
    it. *)
Definition record_flag (rows : list Row) (day : Z) (ex : string) : bool :=
  is_pr_day (loc (best_hist rows day) ex)
            (max_e1rm (ex_df (assign_e1rm (today_sets rows day)) ex)).

(** ** Session aggregation (app.py, lines 555-562 and 587-594) *)

Record SessionRow : Type := mkSessionRow {
  s_date : Z;
  s_exercise : string;
  session_1rm : float
}.

Definition group_key (r : Row) : Z * string := (date r, exercise r).

Definition session_key (s : SessionRow) : Z * string :=
  (s_date s, s_exercise s).

Definition group_key_eqb (a b : Z * string) : bool :=
  (fst a =? fst b)%Z && String.eqb (snd a) (snd b).

Definition group_key_leb (a b : Z * string) : bool :=
  match (fst a ?= fst b)%Z with
  | Lt => true
  | Gt => false
  | Eq => String.leb (snd a) (snd b)
  end.

(** [df.groupby(["date","exercise"], as_index=False)["e1rm"].max()]: one row
    per key, keys ascending, holding the largest number of the group, [NaN]
    for a group without any. *)
Definition groupby_date_exercise_max (df : list Row) : list SessionRow :=
  map
    (fun k =>
       {| s_date := fst k; s_exercise := snd k;
          session_1rm :=
            or_nan (col_max
                      (map e1rm
                           (filter (fun r => group_key_eqb (group_key r) k)
                                   df))) |})
    (sort_by group_key_leb (unique group_key_eqb (map group_key df))).

Definition ses_of_rows (rows : list Row) : list SessionRow :=
  groupby_date_exercise_max (dropna_e1rm (assign_e1rm rows)).

(** [None] is the notice "no data". *)
Definition ses (sets : DataFrame) : result (option (list SessionRow)) :=
  if empty sets then Ok None
  else
    rows <- getitem sets "weight_kg" ;;
    Ok (Some (ses_of_rows rows)).

(** ** Sample collections *)

Definition a_set (d : Z) (ex : string) (n : Z) (w : float) (r : Z)
  : Workout :=
  {| w_date := d; w_exercise := ex; w_set_no := Some n;
     w_weight_kg := Some w; w_reps := Some r; w_note := EmptyString |}.

(** Two sets of the same session with the same estimate. *)
Definition tied_sets : list Workout :=
  [ a_set 10 "Squat" 1 100 5; a_set 10 "Squat" 2 100 5 ].

(** A session worth 150.0 on day 1, then a session on day 2 worth 150.05. *)
Definition near_record : list Workout :=
  [ a_set 1 "Bench Press" 1 75 30; a_set 2 "Bench Press" 1 75.025 30 ].

(** The same with a session worth 150.15 on day 2. *)
Definition clear_record : list Workout :=
  [ a_set 1 "Bench Press" 1 75 30; a_set 2 "Bench Press" 1 75.075 30 ].

(** A valid session on day 1 and a set without repetitions on day 2. *)
Definition undefined_today : list Workout :=
  [ a_set 1 "Bench Press" 1 75 30; a_set 2 "Bench Press" 1 80 0 ].

(** Two dates, two exercises, and one observation without estimate. *)
Definition two_by_two : list Workout :=
  [ a_set 1 "Squat" 1 100 5; a_set 1 "Squat" 2 110 3;
    a_set 1 "Bench Press" 1 60 10;
    a_set 2 "Squat" 1 105 5; a_set 2 "Squat" 2 105 0;
    a_set 2 "Bench Press" 2 62 8; a_set 2 "Bench Press" 1 65 5 ].

(** The exercise was logged on days 1 and 3; its sets of day 3 come out of
    the table in descending set number. *)
Definition two_earlier_days : list Workout :=
  [ a_set 1 "Squat" 1 100 5; a_set 3 "Squat" 2 110 3;
    a_set 3 "Squat" 1 105 5; a_set 3 "Bench Press" 1 60 10;
    a_set 5 "Squat" 1 120 1 ].

(** ** Python strings

    A Python [str] is the list of its code points; [None] of an
    [option pystr] is Python's [None]. *)

Definition pystr : Type := list N.

(** The [str] of an ASCII literal. *)
Definition lit (s : string) : pystr :=
  map Ascii.N_of_ascii (list_ascii_of_string s).

Definition pystr_eqb (a b : pystr) : bool :=
  if list_eq_dec N.eq_dec a b then true else false.

(** [x or ""] *)
Definition or_empty (x : option pystr) : pystr :=
  match x with
  | Some s => s
  | None => []
  end.

(** The characters that [str.strip()] removes ([str.isspace]). *)
Definition py_isspace (c : N) : bool :=
  ((9 <=? c) && (c <=? 13) || (28 <=? c) && (c <=? 32)
   || (c =? 133) || (c =? 160) || (c =? 5760)
   || (8192 <=? c) && (c <=? 8202)
   || (c =? 8232) || (c =? 8233) || (c =? 8239) || (c =? 8287)
   || (c =? 12288))%N.

Fixpoint lstrip (drop : N -> bool) (s : pystr) : pystr :=
  match s with
  | [] => []
  | c :: rest => if drop c then lstrip drop rest else s
  end.

Fixpoint rstrip (drop : N -> bool) (s : pystr) : pystr :=
  match s with
  | [] => []
  | c :: rest =>
      match rstrip drop rest with
      | [] => if drop c then [] else [c]
      | kept => c :: kept
      end
  end.

(** [s.strip()] *)
Definition strip (s : pystr) : pystr :=
  rstrip py_isspace (lstrip py_isspace s).

(** ** The exercise master (app.py, lines 28-35, 45-65 and 229-300) *)

(** [x in seen] *)
Definition mem (x : pystr) (seen : list pystr) : bool :=
  existsb (pystr_eqb x) seen.

(** The loop of [_dedup_keep_order] with its two accumulators. *)
Fixpoint dedup_loop (seq : list (option pystr)) (seen out : list pystr)
  : list pystr :=
  match seq with
  | [] => out
  | x :: rest =>
      let x := strip (or_empty x) in
      if negb (null x) && negb (mem x seen)
      then dedup_loop rest (x :: seen) (out ++ [x])
      else dedup_loop rest seen out
  end.

Definition _dedup_keep_order (seq : list (option pystr)) : list pystr :=
  dedup_loop seq [] [].

(** The master is a Python [dict] from body part to the list of its
    exercise names, read from a JSON file: an association list in insertion
    order; a name of a list is a [str] or [null]. *)
Definition Master : Type := list (pystr * list (option pystr)).

(** [d.get(k)] *)
Fixpoint dict_get (d : Master) (k : pystr) : option (list (option pystr)) :=
  match d with
  | [] => None
  | (k', v) :: rest => if pystr_eqb k' k then Some v else dict_get rest k
  end.

(** [k in d] *)
Definition dict_in (d : Master) (k : pystr) : bool := notna (dict_get d k).

(** [d.get(k, [])] *)
Definition get_or_empty (d : Master) (k : pystr) : list (option pystr) :=
  match dict_get d k with
  | Some v => v
  | None => []
  end.

(** [d[k] = v]: a known key keeps its place, a new key goes last. *)
Fixpoint dict_set (d : Master) (k : pystr) (v : list (option pystr))
  : Master :=
  match d with
  | [] => [(k, v)]
  | (k', v') :: rest =>
      if pystr_eqb k' k then (k', v) :: rest
      else (k', v') :: dict_set rest k v
  end.

(** [d.pop(k, None)], the popped value dropped. *)
Definition dict_pop (d : Master) (k : pystr) : Master :=
  filter (fun kv => negb (pystr_eqb (fst kv) k)) d.

(** [d.setdefault(k, v)], the returned value dropped. *)
Definition setdefault (d : Master) (k : pystr) (v : list (option pystr))
  : Master :=
  if dict_in d k then d else dict_set d k v.

Definition dict_keys (d : Master) : list pystr := map fst d.

Definition names (l : list string) : list (option pystr) :=
  map (fun s => Some (lit s)) l.

(** The body part that collects the exercises of deleted parts. *)
Definition UNCATEGORISED : pystr := [26410; 20998; 39006]%N.

Definition DEFAULT_EX : Master :=
  [ ([36275]%N, names ["Squat"; "Deadlift"; "Leg Press"]%string);
    ([33016]%N, names ["Bench Press"; "Incline Bench Press"; "Dips"]%string);
    ([32972; 20013]%N,
     names ["Barbell Row"; "Pull-up"; "Lat Pulldown"]%string);
    ([32937]%N, names ["Overhead Press"; "Lateral Raise"]%string);
    ([33109]%N, names ["Barbell Curl"; "Triceps Pushdown"]%string);
    (UNCATEGORISED, []) ].

(** What [load_ex_master] finds on disk: no file, a file that [json.load]
    or the clean-up rejects, or a file holding a master. *)
Inductive ExFile : Type :=
| Missing
| Unreadable
| Parsed (data : Master).

(** The loop [for k in DEFAULT_EX.keys()] of [load_ex_master]. *)
Definition clean_defaults (data : Master) : Master :=
  fold_left
    (fun d k =>
       let d := setdefault d k [] in
       dict_set d k (map Some (_dedup_keep_order (get_or_empty d k))))
    (dict_keys DEFAULT_EX) data.

(** [load_ex_master]: the master returned and the file left behind (a
    missing file is created with the defaults). *)
Definition load_ex_master (file : ExFile) : Master * ExFile :=
  match file with
  | Missing => (DEFAULT_EX, Parsed DEFAULT_EX)
  | Unreadable => (DEFAULT_EX, Unreadable)
  | Parsed data => (clean_defaults data, Parsed data)
  end.

(** Exceptions of the code below: those of the frame operations and the
    [KeyError] of a dict. *)
Inductive py_exception : Type :=
| DictKeyError (key : pystr)
| FrameError (e : exn).

Coercion FrameError : exn >-> py_exception.

Inductive outcome (A : Type) : Type :=
| Returns (a : A)
| Raises (e : py_exception).

Arguments Returns {A} a.
Arguments Raises {A} e.

(** [ex_master[k]] *)
Definition dict_item (d : Master) (k : pystr)
  : outcome (list (option pystr)) :=
  match dict_get d k with
  | Some v => Returns v
  | None => Raises (DictKeyError k)
  end.

(** Truth value of a selection: [None] and the empty string are false. *)
Definition selected (x : option pystr) : bool := negb (null (or_empty x)).

(** Lines 230-237, button "add body part". *)
Definition add_bodypart (m : Master) (new_bp : option pystr) : Master :=
  let name := strip (or_empty new_bp) in
  if negb (null name) then setdefault m name [] else m.

(** Lines 239-247, button "rename body part":
    [ex_master[new] = ex_master.pop(old)]. *)
Definition rename_bodypart (m : Master) (bp_old : pystr)
  (bp_new : option pystr) : Master :=
  let new := strip (or_empty bp_new) in
  if negb (null new) && dict_in m bp_old then
    dict_set (dict_pop m bp_old) new (get_or_empty m bp_old)
  else m.

(** Lines 249-258, button "delete body part". *)
Definition delete_bodypart (m : Master) (bp_del : pystr) : Master :=
  if dict_in m bp_del && negb (pystr_eqb bp_del UNCATEGORISED) then
    let m :=
      dict_set m UNCATEGORISED
        (map Some
             (_dedup_keep_order
                (get_or_empty m UNCATEGORISED ++ get_or_empty m bp_del))) in
    dict_pop m bp_del
  else m.

(** Lines 262-271, button "add exercise"; lines 431-434 do the same for a
    new exercise typed in the add-set form. *)
Definition add_exercise (m : Master) (bp_sel : pystr)
  (ex_add : option pystr) : Master :=
  let ex_list := get_or_empty m bp_sel in
  let name := strip (or_empty ex_add) in
  if negb (null name) then
    dict_set m bp_sel (map Some (_dedup_keep_order (ex_list ++ [Some name])))
  else m.

Definition name_eqb (a b : option pystr) : bool :=
  match a, b with
  | Some x, Some y => pystr_eqb x y
  | None, None => true
  | _, _ => false
  end.

(** Lines 273-282, button "rename exercise". *)
Definition rename_exercise (m : Master) (bp_sel : pystr)
  (ex_old : option pystr) (ex_new : option pystr) : outcome Master :=
  let new := strip (or_empty ex_new) in
  if selected ex_old && negb (null new) then
    match dict_item m bp_sel with
    | Raises e => Raises e
    | Returns l =>
        let m :=
          dict_set m bp_sel
            (map (fun x => if name_eqb x ex_old then Some new else x) l) in
        Returns (dict_set m bp_sel
                   (map Some (_dedup_keep_order (get_or_empty m bp_sel))))
    end
  else Returns m.

(** Lines 284-292, button "move". *)
Definition move_exercise (m : Master) (bp_sel : pystr)
  (ex_mv : option pystr) (mv_to : option pystr) : outcome Master :=
  if selected ex_mv && selected mv_to then
    match dict_item m bp_sel with
    | Raises e => Raises e
    | Returns l =>
        let m :=
          dict_set m bp_sel (filter (fun x => negb (name_eqb x ex_mv)) l) in
        let target := or_empty mv_to in
        Returns (dict_set m target
                   (map Some
                        (_dedup_keep_order
                           (get_or_empty m target ++ [ex_mv]))))
    end
  else Returns m.

(** Lines 294-300, button "delete exercises". *)
Definition delete_exercises (m : Master) (bp_sel : pystr)
  (ex_del : list (option pystr)) : Master :=
  let ex_list := get_or_empty m bp_sel in
  if negb (null ex_del) then
    dict_set m bp_sel
      (filter (fun x => negb (existsb (name_eqb x) ex_del)) ex_list)
  else m.

(** ** Chart ranges (app.py, lines 79-89) *)

(** [Series.min()], missing values skipped. *)
Definition min_step (acc : option float) (v : option float)
  : option float :=
  match acc, value v with
  | None, x => x
  | Some a, None => Some a
  | Some a, Some x => if (a <=? x)%float then Some a else Some x
  end.

Definition col_min (c : list (option float)) : option float :=
  fold_left min_step c None.

(** [max(1.0, abs(hi))]: Python's [max] keeps its first argument unless the
    second is greater. *)
Definition at_least_one (hi : float) : float :=
  if (1 <? abs hi)%float then abs hi else 1%float.

(** [y_domain(series, pad_ratio)]; the series is what [pd.to_numeric] makes
    of it, so what is not a number is missing. *)
Definition y_domain (series : list (option float)) (pad_ratio : float)
  : option (float * float) :=
  match col_min series, col_max series with
  | Some lo, Some hi =>
      let span := (hi - lo)%float in
      let span :=
        if (span =? 0)%float then (at_least_one hi * 0.1)%float
        else span in
      let pad := (span * pad_ratio)%float in
      Some ((lo - pad)%float, (hi + pad)%float)
  | _, _ => None
  end.

(** The default [pad_ratio=0.05]. *)
Definition PAD_RATIO : float := 0.05%float.

(** ** Default entries of the add-set form (app.py, lines 388-395) *)

(** [df.tail(1)] *)
Fixpoint tail1 {A : Type} (l : list A) : option A :=
  match l with
  | [] => None
  | [x] => Some x
  | _ :: rest => tail1 rest
  end.

(** Lines 370-372 and 388-395: [last_w, last_r], the previous session's
    last set as default entries.  [bool(pd.NA)] raises [TypeError]; a [NaN]
    weight is true and stays. *)
Definition last_defaults (sets : DataFrame) (exercise0 : string)
  (date0 : Z) : outcome (option float * Z) :=
  match (rows <- getitem sets "exercise" ;;
         _ <- getitem sets "date" ;; Ok rows) with
  | Raise e => Raises (FrameError e)
  | Ok rows =>
      if negb (empty sets) && existsb (prev_mask exercise0 date0) rows then
        match col_zmax (map (fun r => Some (date r))
                            (filter (prev_mask exercise0 date0) rows)) with
        | Some day =>
            match tail1 (sort_values_set_no
                           (filter (on_day exercise0 day) rows)) with
            | Some r =>
                let last_w :=
                  match weight_kg r with
                  | Some w => if (w =? 0)%float then Some 0%float else Some w
                  | None => None
                  end in
                match reps r with
                | Some n => Returns (last_w, if (n =? 0)%Z then 1%Z else n)
                | None => Raises TypeError
                end
            | None => Returns (Some 0%float, 1%Z)
            end
        | None => Returns (Some 0%float, 1%Z)
        end
      else Returns (Some 0%float, 1%Z)
  end.

(** ** Binary64 numbers

    What the properties below say about floats. *)

(** The comparisons of binary64 are read through an order-preserving key in
    [Z]: zero for both zeros, the exponent and mantissa of a finite number
    weighed so that the larger number has the larger key, and a key beyond
    all of these for the infinities. *)
Definition SFkey (x : spec_float) : Z :=
  match x with
  | S754_zero _ => 0%Z
  | S754_infinity s => if s then (- 2 ^ 65)%Z else (2 ^ 65)%Z
  | S754_nan => 0%Z
  | S754_finite s m e =>
      let k := ((e + 1075) * 2 ^ 53 + Zpos m)%Z in
      if s then (- k)%Z else k
  end.

Definition fkey (x : float) : Z := SFkey (Prim2SF x).

Definition Fle (x y : float) : Prop := (x <=? y)%float = true.
Definition Flt (x y : float) : Prop := (x <? y)%float = true.
Definition Feq (x y : float) : Prop := (x =? y)%float = true.

(** The rational number that a binary64 number stands for (zero for the
    infinities and [NaN], which have none). *)
Definition SF2Q (x : spec_float) : Q :=
  match x with
  | S754_finite s m e =>
      ((if s then -1 else 1) * (inject_Z (Zpos m) * 2 ^ e))%Q
  | _ => 0%Q
  end.

Definition F2Q (x : float) : Q := SF2Q (Prim2SF x).

(** The zeros and the positive finite numbers. *)
Definition nonneg_finite (x : spec_float) : Prop :=
  match x with
  | S754_zero _ => True
  | S754_finite s _ _ => s = false
  | _ => False
  end.

Definition nonneg (x : float) : Prop := nonneg_finite (Prim2SF x).

(** The outcome of rounding: the number [m * 2 ^ e] stored as a float of
    sign [s]. *)
Definition stores (s : bool) (m e : Z) (R : spec_float) : Prop :=
  (m = 0%Z /\ R = S754_zero s) \/
  (exists p, Zpos p = m /\ R = S754_finite s p e) \/
  (exists p, (2 * Zpos p)%Z = m /\ R = S754_finite s p (e + 1)).

(** A column is clean when none of its cells holds [NaN]. *)
Definition clean_col (c : list (option float)) : Prop :=
  forall x, In (Some x) c -> is_nan x = false.

(** The rows of a frame are clean when no cell of the column [e1rm] holds
    [NaN]; the frames below are built that way. *)
Definition clean_rows (df : list Row) : Prop :=
  forall r x, In r df -> e1rm r = Some x -> is_nan x = false.

(** ** The statements about the estimator *)

(** The formula of the specification, over the rationals. *)
Definition epley (weight : Q) (reps : Z) : Q :=
  (weight * (1 + inject_Z reps / 30))%Q.

(** The estimate of [weight] kg for [reps] repetitions is a finite number
    within [1e-9] of the formula. *)
Definition within_tolerance (weight : float) (reps : Z) : Prop :=
  exists v,
    est_1rm_epley (Some weight) (Some reps) = Some v /\
    is_finite v = true /\
    (Qabs (F2Q v - epley (F2Q weight) reps) <= 1 # 1000000000)%Q.



(** The factor [1.0 + float(reps) / 30.0] is a positive finite number within
    [2 ^ -46] of [1 + reps / 30]. *)
Definition factor_ok (reps : Z) : bool :=
  match Prim2SF (1 + float_of_int reps / 30)%float with
  | S754_finite false m e =>
      (e <=? -40)%Z &&
      Qle_bool (Qabs (inject_Z (Zpos m) * 2 ^ e
                      - (1 + inject_Z reps / 30))) (2 ^ (-46))
  | _ => false
  end.

(** ** The statements about the day view *)

(** A set can be printed when it has a set number and a repetition
    count. *)
Definition printable (row : Row) : Prop :=
  set_no row <> None /\ reps row <> None.

(** The largest defined estimate among the records that satisfy [P]. *)
Definition best_estimate (data : list Workout) (P : Workout -> Prop)
  (b : float) : Prop :=
  (exists w, In w data /\ P w /\ w_e1rm w = Some b) /\
  (forall w v, In w data -> P w -> w_e1rm w = Some v ->
               (v <=? b)%float = true).

(** * Properties *)

(** ** Binary64 order *)

Lemma digits2_pos_gt (m : positive) :
  (Zpos m < 2 ^ Zpos (digits2_pos m))%Z.
Proof.
  induction m as [m IH|m IH|]; cbn [digits2_pos].
  - rewrite Pos2Z.inj_succ, Z.pow_succ_r by lia. lia.
  - rewrite Pos2Z.inj_succ, Z.pow_succ_r by lia. lia.
  - reflexivity.
Qed.

Lemma valid_finite_bounds (s : bool) (m : positive) (e : Z) :
  valid_binary (S754_finite s m e) = true ->
  (Zpos m < 2 ^ 53 /\ -1074 <= e <= 971)%Z.
Proof.
  unfold SpecFloat.valid_binary, bounded, canonical_mantissa, fexp.
  change (SpecFloat.emin prec emax) with (-1074)%Z.
  change (emax - prec)%Z with 971%Z. change prec with 53%Z.
  intros H. apply andb_true_iff in H. destruct H as (Hc & He).
  apply Z.eqb_eq in Hc. apply Z.leb_le in He.
  pose proof (digits2_pos_gt m) as Hd.
  assert (Hdig : (Zpos (digits2_pos m) <= 53)%Z) by lia.
  split; [|lia].
  eapply Z.lt_le_trans; [exact Hd|].
  apply Z.pow_le_mono_r; lia.
Qed.

Ltac key_order :=
  change (2 ^ 65)%Z with 36893488147419103232%Z in *;
  change (2 ^ 53)%Z with 9007199254740992%Z in *;
  f_equal; symmetry;
  first [ apply Z.compare_eq_iff; lia
        | apply Z.compare_lt_iff; lia
        | apply Z.compare_gt_iff; lia ].

Lemma SFcompare_key (x y : spec_float) :
  valid_binary x = true -> valid_binary y = true ->
  x <> S754_nan -> y <> S754_nan ->
  SFcompare x y = Some (SFkey x ?= SFkey y)%Z.
Proof.
  intros Vx Vy Nx Ny.
  destruct x as [sx|sx| |sx mx ex]; [| |congruence|];
    destruct y as [sy|sy| |sy my ey]; try congruence;
    try (apply valid_finite_bounds in Vx);
    try (apply valid_finite_bounds in Vy);
    cbn [SFcompare SFkey];
    try (destruct sx); try (destruct sy); try key_order.
  - rewrite Pos.compare_cont_spec. cbn [Pos.switch_Eq].
    destruct (Z.compare_spec ex ey) as [E|E|E]; try key_order.
    subst. destruct (Pos.compare_spec mx my) as [E'|E'|E'];
      cbn [CompOpp]; subst; key_order.
  - rewrite Pos.compare_cont_spec. cbn [Pos.switch_Eq].
    destruct (Z.compare_spec ex ey) as [E|E|E]; try key_order.
    subst. destruct (Pos.compare_spec mx my) as [E'|E'|E'];
      subst; key_order.
Qed.

(** A float is [NaN], or its comparisons are those of its key. *)
Lemma is_nan_spec (x : float) :
  is_nan x = true <-> Prim2SF x = S754_nan.
Proof.
  unfold is_nan. rewrite eqb_spec. unfold SFeqb.
  destruct (Prim2SF x) as [s|s| |s m e] eqn:E; cbn [SFcompare].
  - split; discriminate.
  - destruct s; split; discriminate.
  - split; reflexivity.
  - rewrite Pos.compare_cont_spec. cbn [Pos.switch_Eq].
    rewrite Z.compare_refl, Pos.compare_refl.
    destruct s; split; discriminate.
Qed.

Lemma compare_key (x y : float) :
  is_nan x = false -> is_nan y = false ->
  SFcompare (Prim2SF x) (Prim2SF y) = Some (fkey x ?= fkey y)%Z.
Proof.
  intros Hx Hy. apply SFcompare_key.
  - apply Prim2SF_valid.
  - apply Prim2SF_valid.
  - intros E. apply is_nan_spec in E. congruence.
  - intros E. apply is_nan_spec in E. congruence.
Qed.

Lemma leb_key (x y : float) :
  is_nan x = false -> is_nan y = false ->
  (x <=? y)%float = (fkey x <=? fkey y)%Z.
Proof.
  intros Hx Hy. rewrite leb_spec. unfold SFleb.
  rewrite (compare_key x y Hx Hy). unfold Z.leb.
  destruct (fkey x ?= fkey y)%Z; reflexivity.
Qed.

Lemma ltb_key (x y : float) :
  is_nan x = false -> is_nan y = false ->
  (x <? y)%float = (fkey x <? fkey y)%Z.
Proof.
  intros Hx Hy. rewrite ltb_spec. unfold SFltb.
  rewrite (compare_key x y Hx Hy). unfold Z.ltb.
  destruct (fkey x ?= fkey y)%Z; reflexivity.
Qed.

Lemma eqb_key (x y : float) :
  is_nan x = false -> is_nan y = false ->
  (x =? y)%float = (fkey x =? fkey y)%Z.
Proof.
  intros Hx Hy. rewrite eqb_spec. unfold SFeqb.
  rewrite (compare_key x y Hx Hy), Z.eqb_compare. reflexivity.
Qed.

(** Comparisons with [NaN] are false. *)
Lemma leb_nan (x y : float) :
  (x <=? y)%float = true -> is_nan x = false /\ is_nan y = false.
Proof.
  rewrite leb_spec. unfold SFleb. intros H.
  destruct (is_nan x) eqn:Hx.
  { apply is_nan_spec in Hx. rewrite Hx in H. discriminate. }
  destruct (is_nan y) eqn:Hy; [|auto].
  apply is_nan_spec in Hy. rewrite Hy in H.
  destruct (Prim2SF x); discriminate.
Qed.

Lemma ltb_nan (x y : float) :
  (x <? y)%float = true -> is_nan x = false /\ is_nan y = false.
Proof.
  rewrite ltb_spec. unfold SFltb. intros H.
  destruct (is_nan x) eqn:Hx.
  { apply is_nan_spec in Hx. rewrite Hx in H. discriminate. }
  destruct (is_nan y) eqn:Hy; [|auto].
  apply is_nan_spec in Hy. rewrite Hy in H.
  destruct (Prim2SF x); discriminate.
Qed.

(** ** Rounding of a product

    The mantissa arithmetic behind the binary64 product. *)

Lemma digits2_pos_le (m : positive) :
  (2 ^ (Zpos (digits2_pos m) - 1) <= Zpos m)%Z.
Proof.
  induction m as [m IH|m IH|]; cbn [digits2_pos].
  - rewrite Pos2Z.inj_succ.
    replace (Z.succ (Zpos (digits2_pos m)) - 1)%Z
      with (Z.succ (Zpos (digits2_pos m) - 1))%Z by lia.
    rewrite Z.pow_succ_r by lia. lia.
  - rewrite Pos2Z.inj_succ.
    replace (Z.succ (Zpos (digits2_pos m)) - 1)%Z
      with (Z.succ (Zpos (digits2_pos m) - 1))%Z by lia.
    rewrite Z.pow_succ_r by lia. lia.
  - cbn. lia.
Qed.

Lemma shr_1_m (mrs : shr_record) :
  (0 <= shr_m mrs)%Z ->
  (shr_m (shr_1 mrs) = shr_m mrs / 2 /\ 0 <= shr_m (shr_1 mrs))%Z.
Proof.
  destruct mrs as [m r s]. cbn [shr_m]. intros Hm.
  destruct m as [|[p|p|]|p]; cbn [shr_1 shr_m]; try lia.
  - split; [reflexivity|lia].
  - split; [|lia]. rewrite Pos2Z.inj_xI.
    apply (Z.div_unique _ 2 _ 1); lia.
  - split; [|lia]. rewrite Pos2Z.inj_xO.
    apply (Z.div_unique _ 2 _ 0); lia.
  - split; [reflexivity|lia].
Qed.

Lemma div_pow2 (a x y : Z) :
  (0 <= x)%Z -> (0 <= y)%Z -> (a / 2 ^ x / 2 ^ y = a / 2 ^ (x + y))%Z.
Proof.
  intros Hx Hy. rewrite Z.pow_add_r by assumption.
  apply Z.div_div.
  - pose proof (Z.pow_pos_nonneg 2 x ltac:(lia) Hx). lia.
  - pose proof (Z.pow_pos_nonneg 2 y ltac:(lia) Hy). lia.
Qed.

Lemma iter_shr_1_m (p : positive) (mrs : shr_record) :
  (0 <= shr_m mrs)%Z ->
  (shr_m (SpecFloat.iter_pos shr_1 p mrs) = shr_m mrs / 2 ^ Zpos p
   /\ 0 <= shr_m (SpecFloat.iter_pos shr_1 p mrs))%Z.
Proof.
  revert mrs. induction p as [p IH|p IH|]; intros mrs Hm;
    cbn [SpecFloat.iter_pos].
  - destruct (shr_1_m mrs Hm) as (E1 & P1).
    destruct (IH _ P1) as (E2 & P2). destruct (IH _ P2) as (E3 & P3).
    split; [|exact P3]. rewrite E3, E2, E1.
    change 2%Z with (2 ^ 1)%Z at 1.
    rewrite !div_pow2 by lia. f_equal. f_equal. lia.
  - destruct (IH _ Hm) as (E2 & P2). destruct (IH _ P2) as (E3 & P3).
    split; [|exact P3]. rewrite E3, E2.
    rewrite !div_pow2 by lia. f_equal. f_equal. lia.
  - destruct (shr_1_m mrs Hm) as (E1 & P1). split; [|exact P1].
    rewrite E1. reflexivity.
Qed.

Lemma round_nearest_even_bounds (m : Z) (l : location) :
  (m <= round_nearest_even m l <= m + 1)%Z.
Proof.
  destruct l as [|[| |]]; cbn [round_nearest_even]; try lia.
  destruct (Z.even m); lia.
Qed.

Lemma Zdigits2_le_53 (m : Z) :
  (0 < m < 2 ^ 53)%Z -> (Zdigits2 m <= 53)%Z.
Proof.
  intros Hm. destruct m as [|p|p]; try lia. cbn [Zdigits2].
  pose proof (digits2_pos_le p) as Hd.
  destruct (Z_le_gt_dec (Zpos (digits2_pos p)) 53) as [H|H]; [exact H|].
  exfalso.
  assert (2 ^ 53 <= 2 ^ (Zpos (digits2_pos p) - 1))%Z
    by (apply Z.pow_le_mono_r; lia).
  lia.
Qed.

Lemma binary_round_aux_spec (s : bool) (M : positive) (e : Z) :
  let d := Zpos (digits2_pos M) in
  let E := Z.max (Z.max (d + e - 53) (-1074)) e in
  (d + e <= 1023)%Z -> (e <= 970)%Z ->
  exists m,
    stores s m E (binary_round_aux prec emax s (Zpos M) e loc_Exact) /\
    (Zpos M / 2 ^ (E - e) <= m <= Zpos M / 2 ^ (E - e) + 1)%Z /\
    (E = e -> m = Zpos M).
Proof.
  intros d E Hov He.
  pose proof (digits2_pos_gt M) as Hlt. pose proof (digits2_pos_le M) as Hge.
  fold d in Hlt, Hge.
  unfold binary_round_aux, shr_fexp, fexp.
  change (SpecFloat.emin prec emax) with (-1074)%Z.
  change (emax - prec)%Z with 971%Z. change prec with 53%Z.
  cbn [Zdigits2 shr_record_of_loc]. fold d.
  destruct (Z_le_gt_dec (Z.max (d + e - 53) (-1074)) e) as [Hn|Hn].
  - (* no bit is shifted out: the product is stored as it is *)
    assert (EE : E = e) by (unfold E; lia).
    assert (Hs : forall mrs,
              shr mrs e (Z.max (d + e - 53) (-1074) - e) = (mrs, e)).
    { intros mrs. unfold shr.
      destruct (Z.max (d + e - 53) (-1074) - e)%Z eqn:En;
        try reflexivity. lia. }
    rewrite Hs. cbn [shr_m loc_of_shr_record round_nearest_even Zdigits2
                     shr_record_of_loc].
    fold d. rewrite Hs. cbn [shr_m].
    exists (Zpos M). rewrite EE, Z.sub_diag. cbn [Z.pow].
    rewrite Z.div_1_r. split; [|split; [lia|reflexivity]].
    right. left. exists M. split; [reflexivity|].
    destruct (Z.leb_spec e 971); [reflexivity|lia].
  - assert (EE : E = Z.max (d + e - 53) (-1074)) by (unfold E; lia).
    rewrite <- EE.
    destruct (E - e)%Z as [|n|n] eqn:En; try lia.
    cbn [shr].
    destruct (iter_shr_1_m n {| shr_m := Zpos M; shr_r := false;
                                shr_s := false |}) as (Eq & Pq);
      [cbn; lia|].
    cbn [shr_m] in Eq.
    set (mrs := SpecFloat.iter_pos shr_1 n _) in *.
    set (q := (Zpos M / 2 ^ Zpos n)%Z) in *.
    pose proof (round_nearest_even_bounds (shr_m mrs)
                  (loc_of_shr_record mrs)) as Hr.
    set (m := round_nearest_even (shr_m mrs) (loc_of_shr_record mrs)) in *.
    rewrite Eq in Hr.
    replace (e + Zpos n)%Z with E by lia.
    assert (Hq : (0 <= q < 2 ^ 53)%Z).
    { split; [unfold q; apply Z.div_pos; [lia|apply Z.pow_pos_nonneg; lia]|].
      unfold q. apply Z.div_lt_upper_bound;
        [apply Z.pow_pos_nonneg; lia|].
      rewrite <- Z.pow_add_r by lia.
      eapply Z.lt_le_trans; [exact Hlt|].
      apply Z.pow_le_mono_r; lia. }
    exists m. split; [|split; [exact Hr|lia]].
    assert (HE : (-1074 <= E <= 970)%Z) by lia.
    destruct (Z.eq_dec m 0) as [Hm0|Hm0].
    + (* rounded to zero *)
      rewrite Hm0. cbn [Zdigits2 shr_record_of_loc].
      assert (Hs : forall mrs0,
                shr mrs0 E (Z.max (0 + E - 53) (-1074) - E) = (mrs0, E)).
      { intros mrs0. unfold shr.
        destruct (Z.max (0 + E - 53) (-1074) - E)%Z eqn:En';
          try reflexivity. lia. }
      rewrite Hs. cbn [shr_m]. left. split; reflexivity.
    + destruct (Z_lt_ge_dec m (2 ^ 53)) as [Hm|Hm].
      * pose proof (Zdigits2_le_53 m ltac:(lia)) as Hd.
        assert (Hs : forall mrs0,
                  shr mrs0 E (Z.max (Zdigits2 m + E - 53) (-1074) - E)
                  = (mrs0, E)).
        { intros mrs0. unfold shr.
          destruct (Z.max (Zdigits2 m + E - 53) (-1074) - E)%Z eqn:En';
            try reflexivity. lia. }
        rewrite Hs. cbn [shr_record_of_loc shr_m].
        destruct m as [|p|p] eqn:Em; try lia.
        right. left. exists p. split; [reflexivity|].
        destruct (Z.leb_spec E 971); [reflexivity|lia].
      * assert (Em : m = (2 ^ 53)%Z) by lia.
        rewrite Em. change (2 ^ 53)%Z with 9007199254740992%Z.
        cbn [Zdigits2 digits2_pos Pos.succ].
        replace (Z.max (54 + E - 53) (-1074) - E)%Z with 1%Z by lia.
        cbn [shr shr_record_of_loc SpecFloat.iter_pos shr_1 shr_m].
        right. right. exists 4503599627370496%positive.
        split; [reflexivity|].
        destruct (Z.leb_spec (E + 1) 971); [reflexivity|lia].
Qed.

(** ** Binary64 numbers as rationals *)

Lemma pow2_pos (e : Z) : (0 < 2 ^ e)%Q.
Proof. apply Qpower_0_lt. reflexivity. Qed.

Lemma pow2_add (a b : Z) : (2 ^ (a + b) == 2 ^ a * 2 ^ b)%Q.
Proof. apply Qpower_plus. discriminate. Qed.

Lemma pow2_inject (n : Z) : (0 <= n)%Z -> (2 ^ n == inject_Z (2 ^ n))%Q.
Proof. intros Hn. symmetry. apply (Zpower_Qpower 2 n Hn). Qed.

Lemma pow2_le (a b : Z) : (a <= b)%Z -> (2 ^ a <= 2 ^ b)%Q.
Proof. intros H. apply Qpower_le_compat_l; [exact H|discriminate]. Qed.

Lemma pow2_split (a b : Z) :
  (a <= b)%Z -> (2 ^ b == inject_Z (2 ^ (b - a)) * 2 ^ a)%Q.
Proof.
  intros H. rewrite <- pow2_inject by lia. rewrite <- pow2_add.
  replace (b - a + a)%Z with b by lia. reflexivity.
Qed.

Lemma scaled_le_up (X Y a b : Z) :
  (a <= b)%Z ->
  (inject_Z X * 2 ^ a <= inject_Z Y * 2 ^ b)%Q <->
  (X <= Y * 2 ^ (b - a))%Z.
Proof.
  intros H. rewrite (pow2_split a b H), Qmult_assoc, <- inject_Z_mult.
  rewrite (Qmult_le_r _ _ _ (pow2_pos a)). rewrite Zle_Qle. reflexivity.
Qed.

Lemma scaled_le_down (X Y a b : Z) :
  (b <= a)%Z ->
  (inject_Z X * 2 ^ a <= inject_Z Y * 2 ^ b)%Q <->
  (X * 2 ^ (a - b) <= Y)%Z.
Proof.
  intros H. rewrite (pow2_split b a H), Qmult_assoc, <- inject_Z_mult.
  rewrite (Qmult_le_r _ _ _ (pow2_pos b)). rewrite Zle_Qle. reflexivity.
Qed.

Lemma stores_value (m E : Z) (R : spec_float) :
  stores false m E R -> (SF2Q R == inject_Z m * 2 ^ E)%Q.
Proof.
  intros [(-> & ->)|[(p & <- & ->)|(p & <- & ->)]]; cbn [SF2Q].
  - rewrite Qmult_0_l. reflexivity.
  - rewrite Qmult_1_l. reflexivity.
  - rewrite Qmult_1_l, pow2_add, inject_Z_mult.
    change (2 ^ 1)%Q with (inject_Z 2). ring.
Qed.

Lemma stores_class (m E : Z) (R : spec_float) :
  stores false m E R ->
  R = S754_zero false \/ exists p e, R = S754_finite false p e.
Proof.
  intros [(_ & ->)|[(p & _ & ->)|(p & _ & ->)]]; eauto.
Qed.

(** The rounded product of two positive mantissas: it is finite, within one
    unit in the last place of the exact product, and not below a binary64
    number that the exact product is not below. *)
Lemma round_product (M : positive) (e : Z) :
  let P := (inject_Z (Zpos M) * 2 ^ e)%Q in
  let R := binary_round_aux prec emax false (Zpos M) e loc_Exact in
  (P < 2 ^ 1022)%Q -> (e <= 970)%Z ->
  (R = S754_zero false \/ exists p E, R = S754_finite false p E) /\
  (P - (P * 2 ^ (-52) + 2 ^ (-1074)) <= SF2Q R)%Q /\
  (SF2Q R <= P + (P * 2 ^ (-52) + 2 ^ (-1074)))%Q /\
  (forall (m0 : positive) (e0 : Z),
     (Zpos m0 < 2 ^ 53)%Z -> (-1074 <= e0)%Z ->
     (inject_Z (Zpos m0) * 2 ^ e0 <= P)%Q ->
     (inject_Z (Zpos m0) * 2 ^ e0 <= SF2Q R)%Q).
Proof.
  intros P R HP He.
  pose proof (digits2_pos_gt M) as Hlt. pose proof (digits2_pos_le M) as Hge.
  set (d := Zpos (digits2_pos M)) in *.
  assert (Hd : (d + e <= 1022)%Z).
  { assert (H : (2 ^ (d - 1 + e) < 2 ^ 1022)%Q).
    { eapply Qle_lt_trans; [|exact HP]. unfold P.
      rewrite pow2_add, (pow2_inject (d - 1)) by lia.
      apply Qmult_le_compat_r; [|apply Qlt_le_weak, pow2_pos].
      rewrite <- Zle_Qle. exact Hge. }
    apply Qpower_lt_compat_l_inv in H; [lia|reflexivity]. }
  destruct (binary_round_aux_spec false M e ltac:(fold d; lia) He)
    as (m & Hst & Hm & Hexact).
  fold d in Hst, Hm, Hexact. fold R in Hst.
  set (E := Z.max (Z.max (d + e - 53) (-1074)) e) in *.
  pose proof (stores_value m E R Hst) as Hv.
  pose proof (pow2_pos e) as He0. pose proof (pow2_pos E) as HE0.
  assert (HP0 : (0 <= P)%Q).
  { unfold P. apply Qmult_le_0_compat; [|apply Qlt_le_weak, He0].
    change 0%Q with (inject_Z 0). rewrite <- Zle_Qle. lia. }
  pose proof (pow2_pos (-52)) as H52. pose proof (pow2_pos (-1074)) as H1074.
  assert (Hslack : (0 <= P * 2 ^ (-52) + 2 ^ (-1074))%Q).
  { apply Qlt_le_weak in H52, H1074.
    pose proof (Qmult_le_0_compat _ _ HP0 H52). lra. }
  split; [exact (stores_class m E R Hst)|].
  destruct (Z.eq_dec E e) as [EE|EE].
  - (* the product is stored exactly *)
    assert (Hval : (SF2Q R == P)%Q)
      by (rewrite Hv, (Hexact EE), EE; reflexivity).
    split; [rewrite Hval; lra|]. split; [rewrite Hval; lra|].
    intros m0 e0 _ _ Hle. rewrite Hval. exact Hle.
  - assert (Hn : (0 < E - e)%Z) by (unfold E in *; lia).
    set (t := (2 ^ (E - e))%Z) in *.
    assert (Ht : (0 < t)%Z) by (apply Z.pow_pos_nonneg; lia).
    pose proof (Z.mul_div_le (Zpos M) t Ht) as Hq1.
    pose proof (Z.mul_succ_div_gt (Zpos M) t Ht) as Hq2.
    set (q := (Zpos M / t)%Z) in *.
    assert (Hulp : (2 ^ E <= P * 2 ^ (-52) + 2 ^ (-1074))%Q).
    { destruct (Z.eq_dec E (-1074)) as [E1|E1].
      - rewrite E1. apply Qlt_le_weak in H52.
        pose proof (Qmult_le_0_compat _ _ HP0 H52). lra.
      - assert (E2 : E = (d - 1 + e + -52)%Z) by (unfold E in *; lia).
        rewrite E2, !pow2_add, (pow2_inject (d - 1)) by lia.
        apply Qlt_le_weak in H1074.
        assert (inject_Z (2 ^ (d - 1)) * 2 ^ e * 2 ^ (-52)
                <= P * 2 ^ (-52))%Q; [|lra].
        apply Qmult_le_compat_r; [|apply Qlt_le_weak, H52].
        unfold P. apply Qmult_le_compat_r; [|apply Qlt_le_weak, He0].
        rewrite <- Zle_Qle. exact Hge. }
    assert (Hlow : (inject_Z (Zpos M - t) * 2 ^ e <= SF2Q R)%Q).
    { rewrite Hv. apply scaled_le_up; [lia|]. fold t. nia. }
    assert (Hhigh : (SF2Q R <= inject_Z (Zpos M + t) * 2 ^ e)%Q).
    { rewrite Hv. apply scaled_le_down; [lia|]. fold t. nia. }
    assert (Et : (inject_Z t * 2 ^ e == 2 ^ E)%Q).
    { unfold t. rewrite <- pow2_inject, <- pow2_add by lia.
      replace (E - e + e)%Z with E by lia. reflexivity. }
    unfold Z.sub in Hlow. rewrite inject_Z_plus, inject_Z_opp in Hlow.
    rewrite inject_Z_plus in Hhigh. fold P in Hlow, Hhigh.
    split; [|split].
    + assert (Hlow' : (P - 2 ^ E <= SF2Q R)%Q).
      { rewrite <- Et. unfold P.
        eapply Qle_trans; [|exact Hlow]. unfold P. apply Qle_lteq. right.
        ring. }
      lra.
    + assert (Hhigh' : (SF2Q R <= P + 2 ^ E)%Q).
      { rewrite <- Et. eapply Qle_trans; [exact Hhigh|]. unfold P.
        apply Qle_lteq. right. ring. }
      lra.
    + intros m0 e0 Hm0 He1 Hle. rewrite Hv.
      destruct (Z_le_gt_dec E e0) as [HEe|HEe].
      * apply scaled_le_down; [exact HEe|].
        unfold P in Hle. apply scaled_le_down in Hle; [|lia].
        replace (e0 - e)%Z with ((e0 - E) + (E - e))%Z in Hle by lia.
        rewrite Z.pow_add_r in Hle by lia. fold t in Hle.
        eapply Z.le_trans; [|apply Hm].
        apply Z.div_le_lower_bound; [exact Ht|]. fold t. lia.
      * assert (E2 : (E - e = d - 53)%Z) by (unfold E in *; lia).
        assert (Hq52 : (2 ^ 52 <= q)%Z).
        { unfold q. apply Z.div_le_lower_bound; [exact Ht|].
          unfold t. rewrite E2, <- Z.pow_add_r by lia.
          replace (d - 53 + 52)%Z with (d - 1)%Z by lia. exact Hge. }
        apply scaled_le_up; [lia|].
        assert (H2 : (2 ^ 1 <= 2 ^ (E - e0))%Z)
          by (apply Z.pow_le_mono_r; lia).
        change (2 ^ 1)%Z with 2%Z in H2.
        change (2 ^ 53)%Z with 9007199254740992%Z in *.
        change (2 ^ 52)%Z with 4503599627370496%Z in *.
        fold t in Hm. fold q in Hm. nia.
Qed.

(** ** The order of binary64 and the order of the rationals *)

Lemma valid_finite_normal (s : bool) (m : positive) (e : Z) :
  valid_binary (S754_finite s m e) = true ->
  (e = -1074 \/ 2 ^ 52 <= Zpos m)%Z.
Proof.
  unfold SpecFloat.valid_binary, bounded, canonical_mantissa, fexp.
  change (SpecFloat.emin prec emax) with (-1074)%Z.
  change prec with 53%Z.
  intros H. apply andb_true_iff in H. destruct H as (Hc & _).
  apply Z.eqb_eq in Hc.
  destruct (Z.eq_dec e (-1074)) as [E|E]; [left; exact E|right].
  assert (Hd : Zpos (digits2_pos m) = 53%Z) by lia.
  pose proof (digits2_pos_le m) as Hge. rewrite Hd in Hge. exact Hge.
Qed.

Lemma SF2Q_nonneg (x : spec_float) : nonneg_finite x -> (0 <= SF2Q x)%Q.
Proof.
  destruct x as [s|s| |s m e]; cbn [nonneg_finite SF2Q];
    try (intros; apply Qle_refl).
  intros ->. rewrite Qmult_1_l.
  apply Qmult_le_0_compat; [|apply Qlt_le_weak, pow2_pos].
  change 0%Q with (inject_Z 0). rewrite <- Zle_Qle. lia.
Qed.

Lemma SF2Q_pos (m : positive) (e : Z) :
  (0 < SF2Q (S754_finite false m e))%Q.
Proof.
  cbn [SF2Q]. rewrite Qmult_1_l.
  apply Qmult_lt_0_compat; [|apply pow2_pos].
  change 0%Q with (inject_Z 0). rewrite <- Zlt_Qlt. lia.
Qed.

Lemma scaled_lt_exponent (m1 m2 : positive) (e1 e2 : Z) :
  valid_binary (S754_finite false m1 e1) = true ->
  valid_binary (S754_finite false m2 e2) = true ->
  (e1 < e2)%Z ->
  (inject_Z (Zpos m1) * 2 ^ e1 < inject_Z (Zpos m2) * 2 ^ e2)%Q.
Proof.
  intros V1 V2 He.
  pose proof (valid_finite_bounds _ _ _ V1) as (B1 & R1).
  pose proof (valid_finite_normal _ _ _ V2) as N2.
  apply Qnot_le_lt. intros Hle.
  apply scaled_le_down in Hle; [|lia].
  assert (H2 : (2 ^ 1 <= 2 ^ (e2 - e1))%Z) by (apply Z.pow_le_mono_r; lia).
  change (2 ^ 1)%Z with 2%Z in H2.
  change (2 ^ 53)%Z with 9007199254740992%Z in *.
  change (2 ^ 52)%Z with 4503599627370496%Z in *.
  destruct N2 as [N2|N2]; [lia|nia].
Qed.

Lemma SFcompare_Q (x y : spec_float) :
  valid_binary x = true -> valid_binary y = true ->
  nonneg_finite x -> nonneg_finite y ->
  SFcompare x y = Some (SF2Q x ?= SF2Q y)%Q.
Proof.
  intros Vx Vy Nx Ny.
  destruct x as [sx|sx| |sx mx ex]; cbn [nonneg_finite] in Nx;
    try contradiction;
    destruct y as [sy|sy| |sy my ey]; cbn [nonneg_finite] in Ny;
    try contradiction; subst;
    cbn [SFcompare]; f_equal; symmetry.
  - apply Qlt_alt. apply SF2Q_pos.
  - apply Qgt_alt. apply SF2Q_pos.
  - cbn [SF2Q]. rewrite !Qmult_1_l, Pos.compare_cont_spec.
    cbn [Pos.switch_Eq].
    destruct (Z.compare_spec ex ey) as [E|E|E].
    + subst ey.
      destruct (Pos.compare_spec mx my) as [E'|E'|E'].
      * subst. apply Qeq_alt. reflexivity.
      * apply Qlt_alt. apply Qmult_lt_r; [apply pow2_pos|].
        rewrite <- Zlt_Qlt. lia.
      * apply Qgt_alt. apply Qmult_lt_r; [apply pow2_pos|].
        rewrite <- Zlt_Qlt. lia.
    + apply Qlt_alt. apply scaled_lt_exponent; assumption.
    + apply Qgt_alt. apply scaled_lt_exponent; assumption.
Qed.

Lemma F2Q_nonneg (x : float) : nonneg x -> (0 <= F2Q x)%Q.
Proof. apply SF2Q_nonneg. Qed.

Lemma nonneg_not_nan (x : float) : nonneg x -> is_nan x = false.
Proof.
  intros H. destruct (is_nan x) eqn:E; [|reflexivity].
  apply is_nan_spec in E. unfold nonneg in H. rewrite E in H. destruct H.
Qed.

Lemma compare_F2Q (x y : float) :
  nonneg x -> nonneg y ->
  SFcompare (Prim2SF x) (Prim2SF y) = Some (F2Q x ?= F2Q y)%Q.
Proof.
  intros Hx Hy. apply SFcompare_Q; try assumption; apply Prim2SF_valid.
Qed.

Lemma leb_F2Q (x y : float) :
  nonneg x -> nonneg y ->
  (x <=? y)%float = true <-> (F2Q x <= F2Q y)%Q.
Proof.
  intros Hx Hy. rewrite leb_spec. unfold SFleb.
  rewrite (compare_F2Q x y Hx Hy), Qle_alt.
  destruct (F2Q x ?= F2Q y)%Q; split; congruence.
Qed.



(** A float between zero and a positive finite bound is a zero or a
    positive finite number. *)
Lemma between_nonneg (w hi : float) :
  nonneg hi ->
  (0 <=? w)%float = true -> (w <=? hi)%float = true -> nonneg w.
Proof.
  unfold nonneg. rewrite !leb_spec. unfold SFleb.
  change (Prim2SF 0) with (S754_zero false). intros Hhi H0 Hw.
  destruct (Prim2SF hi) as [sh|sh| |sh mh eh]; cbn [nonneg_finite] in Hhi;
    try contradiction; subst;
    destruct (Prim2SF w) as [s|s| |s m e];
    cbn [SFcompare nonneg_finite] in H0, Hw |- *;
    try destruct s; try discriminate; auto.
Qed.

(** ** The binary64 product of two positive numbers *)

Lemma mul_positive (x y : float) (mx my : positive) (ex ey : Z) :
  Prim2SF x = S754_finite false mx ex ->
  Prim2SF y = S754_finite false my ey ->
  (F2Q x * F2Q y < 2 ^ 1022)%Q -> (ex + ey <= 970)%Z ->
  let P := (F2Q x * F2Q y)%Q in
  nonneg (x * y) /\
  (P - (P * 2 ^ (-52) + 2 ^ (-1074)) <= F2Q (x * y))%Q /\
  (F2Q (x * y) <= P + (P * 2 ^ (-52) + 2 ^ (-1074)))%Q /\
  (forall z : float, nonneg z -> (F2Q z <= P)%Q ->
                     (F2Q z <= F2Q (x * y))%Q).
Proof.
  intros Ex Ey Hov He P.
  assert (EP : (P == inject_Z (Zpos (mx * my)) * 2 ^ (ex + ey))%Q).
  { unfold P, F2Q. rewrite Ex, Ey. cbn [SF2Q].
    rewrite Pos2Z.inj_mul, inject_Z_mult, pow2_add. ring. }
  assert (Hov' : (inject_Z (Zpos (mx * my)) * 2 ^ (ex + ey) < 2 ^ 1022)%Q)
    by (rewrite <- EP; exact Hov).
  destruct (round_product (mx * my) (ex + ey) Hov' He)
    as (Hclass & Hlow & Hhigh & Hrep).
  assert (Emul : Prim2SF (x * y)
                 = binary_round_aux prec emax false (Zpos (mx * my))
                     (ex + ey) loc_Exact).
  { rewrite mul_spec, Ex, Ey. reflexivity. }
  assert (EV : F2Q (x * y)
               = SF2Q (binary_round_aux prec emax false (Zpos (mx * my))
                         (ex + ey) loc_Exact))
    by (unfold F2Q; rewrite Emul; reflexivity).
  rewrite EV. unfold nonneg. rewrite Emul.
  rewrite <- EP in Hlow, Hhigh.
  split; [|split; [exact Hlow|split; [exact Hhigh|]]].
  - destruct Hclass as [->|(p & E & ->)]; cbn; auto.
  - intros z Hz Hle.
    assert (H0 : (0 <= SF2Q (binary_round_aux prec emax false
                               (Zpos (mx * my)) (ex + ey) loc_Exact))%Q).
    { apply SF2Q_nonneg.
      destruct Hclass as [->|(p & E & ->)]; cbn; auto. }
    pose proof (Prim2SF_valid z) as Vz.
    unfold nonneg in Hz. unfold F2Q in Hle |- *.
    destruct (Prim2SF z) as [s|s| |s m e]; cbn [nonneg_finite] in Hz;
      try contradiction; try exact H0.
    subst s.
    pose proof (valid_finite_bounds _ _ _ Vz) as (B & R).
    cbn [SF2Q] in Hle |- *. rewrite Qmult_1_l in Hle |- *.
    apply Hrep; [exact B|lia|]. rewrite <- EP. exact Hle.
Qed.

(** ** The estimator in binary64 *)

Lemma factors_ok : forallb factor_ok (map Z.of_nat (seq 1 1000)) = true.
Proof. vm_compute. reflexivity. Qed.

Lemma factor_spec (r : Z) :
  (1 <= r <= 1000)%Z ->
  exists m e,
    Prim2SF (1 + float_of_int r / 30)%float = S754_finite false m e /\
    (e <= -40)%Z /\
    (1 + inject_Z r / 30 - 2 ^ (-46)
     <= F2Q (1 + float_of_int r / 30)%float)%Q /\
    (F2Q (1 + float_of_int r / 30)%float
     <= 1 + inject_Z r / 30 + 2 ^ (-46))%Q.
Proof.
  intros Hr.
  assert (Hin : In r (map Z.of_nat (seq 1 1000))).
  { apply in_map_iff. exists (Z.to_nat r). split; [lia|].
    apply in_seq. lia. }
  pose proof factors_ok as Hall. rewrite forallb_forall in Hall.
  specialize (Hall r Hin). unfold factor_ok in Hall. unfold F2Q.
  destruct (Prim2SF (1 + float_of_int r / 30)%float) as [s|s| |s m e];
    try discriminate.
  destruct s; [discriminate|].
  apply andb_true_iff in Hall. destruct Hall as (He & Hq).
  apply Z.leb_le in He. apply Qle_bool_iff, Qabs_Qle_condition in Hq.
  exists m, e. split; [reflexivity|]. split; [exact He|].
  cbn [SF2Q]. rewrite Qmult_1_l. destruct Hq as (H1 & H2).
  revert H1 H2.
  generalize (inject_Z (Zpos m) * 2 ^ e)%Q (2 ^ (-46))%Q
    (inject_Z r / 30)%Q.
  intros C g x H1 H2. split; lra.
Qed.

Lemma reps_bounds (r : Z) :
  (1 <= r <= 1000)%Z ->
  (31 # 30 <= 1 + inject_Z r / 30 <= 1030 # 30)%Q.
Proof.
  intros (H1 & H2). rewrite Zle_Qle in H1, H2.
  change (inject_Z 1) with 1%Q in H1.
  change (inject_Z 1000) with 1000%Q in H2.
  generalize dependent (inject_Z r). intros q H1 H2.
  unfold Qdiv. change (/ 30)%Q with (1 # 30)%Q. split; lra.
Qed.

Lemma est_of_zero (w : float) (s : bool) (r : Z) :
  Prim2SF w = S754_zero s -> (1 <= r <= 1000)%Z ->
  exists v, est_1rm_epley (Some w) (Some r) = Some v /\
            Prim2SF v = S754_zero s.
Proof.
  intros Ew Hr. destruct (factor_spec r Hr) as (m & e & Ec & _).
  exists (w * (1 + float_of_int r / 30))%float. split.
  - unfold est_1rm_epley.
    assert (Hn : is_nan w = false).
    { destruct (is_nan w) eqn:E; [|reflexivity].
      apply is_nan_spec in E. congruence. }
    rewrite Hn. destruct (Z.leb_spec r 0); [lia|reflexivity].
  - rewrite mul_spec, Ew, Ec. cbn. destruct s; reflexivity.
Qed.

Lemma pow2_1000 : (36 * 2 ^ 1000 < 2 ^ 1022)%Q.
Proof.
  replace 1022%Z with (22 + 1000)%Z by reflexivity. rewrite pow2_add.
  apply Qmult_lt_r; [apply pow2_pos|]. reflexivity.
Qed.

(** The estimate of a positive finite weight: the rounded product of the
    weight and the factor. *)
Lemma est_of_positive (w : float) (mw : positive) (ew : Z) (r : Z) :
  Prim2SF w = S754_finite false mw ew ->
  (F2Q w <= 2 ^ 1000)%Q -> (1 <= r <= 1000)%Z ->
  exists v c,
    est_1rm_epley (Some w) (Some r) = Some v /\
    (1 + inject_Z r / 30 - 2 ^ (-46) <= c)%Q /\
    (c <= 1 + inject_Z r / 30 + 2 ^ (-46))%Q /\
    nonneg v /\
    (F2Q w * c - (F2Q w * c * 2 ^ (-52) + 2 ^ (-1074)) <= F2Q v)%Q /\
    (F2Q v <= F2Q w * c + (F2Q w * c * 2 ^ (-52) + 2 ^ (-1074)))%Q /\
    (forall z : float, nonneg z -> (F2Q z <= F2Q w * c)%Q ->
                       (F2Q z <= F2Q v)%Q).
Proof.
  intros Ew Hw Hr.
  destruct (factor_spec r Hr) as (m & e & Ec & He & Hc1 & Hc2).
  pose proof (reps_bounds r Hr) as (Hx1 & Hx2).
  set (c := (1 + float_of_int r / 30)%float) in *.
  set (x := (1 + inject_Z r / 30)%Q) in *.
  pose proof (Prim2SF_valid w) as Vw. rewrite Ew in Vw.
  pose proof (valid_finite_bounds _ _ _ Vw) as (_ & Rw).
  assert (H46 : (2 ^ (-46) <= 1)%Q) by (vm_compute; discriminate).
  assert (HW0 : (0 < F2Q w)%Q) by (unfold F2Q; rewrite Ew; apply SF2Q_pos).
  assert (Hov : (F2Q w * F2Q c < 2 ^ 1022)%Q).
  { eapply Qle_lt_trans; [|apply pow2_1000].
    pose proof (pow2_pos 1000) as Hp.
    assert (F2Q c <= 36)%Q by lra.
    assert (0 <= F2Q c)%Q by lra.
    eapply Qle_trans; [apply (Qmult_le_compat_r _ _ _ Hw); assumption|].
    rewrite (Qmult_comm 36). apply Qmult_le_l; assumption. }
  destruct (mul_positive w c mw m ew e Ew Ec Hov ltac:(lia))
    as (Hn & Hlow & Hhigh & Hrep).
  exists (w * c)%float, (F2Q c). split.
  - unfold est_1rm_epley.
    assert (Hnan : is_nan w = false).
    { destruct (is_nan w) eqn:E; [|reflexivity].
      apply is_nan_spec in E. congruence. }
    rewrite Hnan. destruct (Z.leb_spec r 0); [lia|reflexivity].
  - repeat split; assumption.
Qed.

Lemma nonneg_is_finite (x : float) : nonneg x -> is_finite x = true.
Proof.
  intros H. unfold is_finite, is_infinity.
  rewrite (nonneg_not_nan x H), eqb_spec, abs_spec.
  change (Prim2SF infinity) with (S754_infinity false).
  unfold nonneg in H.
  destruct (Prim2SF x) as [s|s| |s m e]; cbn in H |- *;
    try contradiction; reflexivity.
Qed.

Lemma zero_cases (w : float) :
  nonneg w ->
  (exists s, Prim2SF w = S754_zero s /\ (w =? 0)%float = true) \/
  (exists m e, Prim2SF w = S754_finite false m e /\ (w =? 0)%float = false).
Proof.
  unfold nonneg. intros H. rewrite eqb_spec.
  change (Prim2SF 0) with (S754_zero false).
  destruct (Prim2SF w) as [s|s| |s m e]; cbn [nonneg_finite] in H;
    try contradiction.
  - left. exists s. split; reflexivity.
  - subst s. right. exists m, e. split; reflexivity.
Qed.

(** Sizes of the constants of the error bounds. *)
Lemma pow2_sizes :
  (0 < 2 ^ (-46) <= 15 # 1000000000000000)%Q /\
  (0 < 2 ^ (-52) <= 23 # 100000000000000000)%Q /\
  (0 < 2 ^ (-1074) <= 1 # 1000000000000000000)%Q /\
  (2 ^ (-1074) == 2 ^ (-1022) * 2 ^ (-52))%Q /\ (0 < 2 ^ (-1022))%Q.
Proof.
  repeat split; try apply pow2_pos; try (vm_compute; discriminate).
Qed.

Lemma tolerance_in_range (w : float) (r : Z) :
  (0 <=? w)%float = true -> (w <=? 10000)%float = true ->
  (1 <= r <= 1000)%Z ->
  within_tolerance w r /\
  ((w =? 0)%float = true ->
   exists v, est_1rm_epley (Some w) (Some r) = Some v /\
             (v =? 0)%float = true).
Proof.
  intros H0 Hhi Hr.
  assert (N10 : nonneg 10000) by (unfold nonneg; vm_compute; reflexivity).
  assert (E10 : (F2Q 10000 == 10000)%Q) by (vm_compute; reflexivity).
  pose proof (between_nonneg w 10000 N10 H0 Hhi) as Nw.
  pose proof (proj1 (leb_F2Q w 10000 Nw N10) Hhi) as HW.
  rewrite E10 in HW.
  destruct (zero_cases w Nw) as [(s & Ew & Ez)|(m & e & Ew & Ez)].
  - destruct (est_of_zero w s r Ew Hr) as (v & Ev & Zv).
    assert (Nv : nonneg v) by (unfold nonneg; rewrite Zv; exact I).
    split.
    + exists v. split; [exact Ev|]. split; [apply nonneg_is_finite, Nv|].
      unfold epley, F2Q. rewrite Zv, Ew. cbn [SF2Q].
      apply Qabs_Qle_condition. split.
      * apply Qle_trans with 0%Q; [discriminate|].
        apply Qle_lteq. right. ring.
      * apply Qle_trans with 0%Q; [|discriminate].
        apply Qle_lteq. right. ring.
    + intros _. exists v. split; [exact Ev|].
      rewrite eqb_spec, Zv. reflexivity.
  - rewrite Ez. split; [|discriminate].
    assert (H1000 : (F2Q w <= 2 ^ 1000)%Q).
    { eapply Qle_trans; [exact HW|]. vm_compute. discriminate. }
    destruct (est_of_positive w m e r Ew H1000 Hr)
      as (v & c & Ev & Hc1 & Hc2 & Nv & Hlow & Hhigh & _).
    pose proof (reps_bounds r Hr) as (Hx1 & Hx2).
    pose proof (F2Q_nonneg w Nw) as HW0.
    destruct pow2_sizes as ((G0 & G1) & (A0 & A1) & (B0 & B1) & _).
    exists v. split; [exact Ev|]. split; [apply nonneg_is_finite, Nv|].
    unfold epley. revert Hc1 Hc2 Hlow Hhigh HW HW0 Hx1 Hx2 G0 G1 A0 A1 B0 B1.
    generalize (F2Q v) (F2Q w) (1 + inject_Z r / 30)%Q (2 ^ (-46))%Q
      (2 ^ (-52))%Q (2 ^ (-1074))%Q.
    intros V W x g a b Hc1 Hc2 Hlow Hhigh HW HW0 Hx1 Hx2 G0 G1 A0 A1 B0 B1.
    assert (HP : (0 <= W * c <= 360000)%Q) by nra.
    assert (HPa : (0 <= W * c * a <= 360000 * (23 # 100000000000000000))%Q)
      by nra.
    assert (Hd : (W * x - 10000 * (15 # 1000000000000000) <= W * c
                  <= W * x + 10000 * (15 # 1000000000000000))%Q) by nra.
    apply Qabs_Qle_condition. split; lra.
Qed.

Lemma est_None (weight : option float) (reps0 : option Z) :
  est_1rm_epley weight reps0 = None <->
  value weight = None \/ reps0 = None \/
  exists r, reps0 = Some r /\ (r <= 0)%Z.
Proof.
  unfold est_1rm_epley, value.
  destruct weight as [w|]; [|intuition].
  destruct (is_nan w); [intuition|].
  destruct reps0 as [r|]; [|intuition].
  destruct (Z.leb_spec r 0) as [Hle|Hgt]; split; intros H.
  - right; right. exists r. split; [reflexivity|exact Hle].
  - reflexivity.
  - discriminate.
  - destruct H as [H|[H|(r' & H & Hr')]]; try discriminate.
    injection H as ->. lia.
Qed.

(** C3, as stated, fails in binary64: the estimate of ten thousand million
    kilograms lifted once, and that of one kilogram lifted a million million
    times, are further than [1e-9] from the formula. *)
Lemma est_1rm_epley_tolerance_exceeded :
  (0 <=? 10000000000)%float = true /\ (1 <= 1)%Z /\
  ~ within_tolerance 10000000000 1 /\
  (0 <=? 1)%float = true /\ (1 <= 1000000000000)%Z /\
  ~ within_tolerance 1 1000000000000.
Proof.
  split; [reflexivity|]. split; [lia|]. split; [|split; [reflexivity|]].
  - intros (v & Ev & _ & H). vm_compute in Ev. injection Ev as <-.
    vm_compute in H. apply H. reflexivity.
  - split; [lia|].
    intros (v & Ev & _ & H). vm_compute in Ev. injection Ev as <-.
    vm_compute in H. apply H. reflexivity.
Qed.

(** C3 (amended). The estimator is undefined exactly when the weight is
    missing ([None] or [NaN]), the repetition count is missing or the count
    is not positive.  For a weight from 0 to 10000 kg and a count from 1 to
    1000 the estimate is a finite number within [1e-9] of
    [weight * (1 + reps / 30)], and it is zero for the weight zero.  The
    counts are those of the [Int64] column. *)
Theorem est_1rm_epley_contract (weight : option float) (reps0 : option Z) :
  (forall r, reps0 = Some r -> (- 2 ^ 63 <= r < 2 ^ 63)%Z) ->
  (est_1rm_epley weight reps0 = None <->
     value weight = None \/ reps0 = None \/
     exists r, reps0 = Some r /\ (r <= 0)%Z) /\
  (forall w r, weight = Some w -> reps0 = Some r ->
     (0 <=? w)%float = true -> (w <=? 10000)%float = true ->
     (1 <= r <= 1000)%Z ->
     within_tolerance w r /\
     ((w =? 0)%float = true ->
      exists v, est_1rm_epley weight reps0 = Some v /\
                (v =? 0)%float = true)).
Proof.
  intros _. split; [apply est_None|].
  intros w r -> -> H0 Hhi Hr. apply tolerance_in_range; assumption.
Qed.

Lemma est_1rm_epley_contract_witness :
  within_tolerance 100 5 /\
  (est_1rm_epley (Some 100%float) None = None <->
     value (Some 100%float) = None \/ @None Z = None \/
     exists r, @None Z = Some r /\ (r <= 0)%Z).
Proof.
  split.
  - apply (proj2 (est_1rm_epley_contract (Some 100%float) (Some 5%Z)
                    ltac:(intros r [= <-]; lia)) 100%float 5%Z);
      [reflexivity|reflexivity|reflexivity|reflexivity|lia].
  - apply (proj1 (est_1rm_epley_contract (Some 100%float) None
                    ltac:(intros r [=]))).
Defined.

(** The numeric instances of the specification, in binary64. *)
Example est_100_1 :
  est_1rm_epley (Some 100%float) (Some 1%Z)
  = Some 103.33333333333334%float.
Proof. reflexivity. Qed.

Example est_100_5 :
  est_1rm_epley (Some 100%float) (Some 5%Z)
  = Some 116.66666666666667%float.
Proof. reflexivity. Qed.

Example est_0_5 :
  est_1rm_epley (Some 0%float) (Some 5%Z) = Some 0%float.
Proof. reflexivity. Qed.

Example est_undefined :
  est_1rm_epley None (Some 5%Z) = None /\
  est_1rm_epley (Some nan) (Some 5%Z) = None /\
  est_1rm_epley (Some 100%float) None = None /\
  est_1rm_epley (Some 100%float) (Some 0%Z) = None /\
  est_1rm_epley (Some 100%float) (Some (-3)%Z) = None.
Proof. repeat split. Qed.








(** ** Lists: sorting, distinct values, maxima *)

Section SortBy.
Context {A : Type} (leb : A -> A -> bool).

Lemma insert_by_perm (x : A) (l : list A) :
  Permutation (x :: l) (insert_by leb x l).
Proof.
  induction l as [|y l IH]; simpl.
  - apply Permutation_refl.
  - destruct (leb x y).
    + apply Permutation_refl.
    + eapply perm_trans; [apply perm_swap|].
      apply perm_skip, IH.
Qed.

Lemma sort_by_perm (l : list A) : Permutation l (sort_by leb l).
Proof.
  induction l as [|x l IH]; simpl.
  - apply perm_nil.
  - eapply perm_trans; [apply perm_skip, IH|].
    apply insert_by_perm.
Qed.

Lemma sort_by_In (x : A) (l : list A) : In x (sort_by leb l) <-> In x l.
Proof.
  split; intros H.
  - eapply Permutation_in; [apply Permutation_sym, sort_by_perm|exact H].
  - eapply Permutation_in; [apply sort_by_perm|exact H].
Qed.

Hypothesis leb_total : forall a b, leb a b = true \/ leb b a = true.
Hypothesis leb_trans :
  forall a b c, leb a b = true -> leb b c = true -> leb a c = true.

Lemma insert_by_sorted (x : A) (l : list A) :
  StronglySorted (le_of leb) l ->
  StronglySorted (le_of leb) (insert_by leb x l).
Proof.
  induction 1 as [|y l Hs IH Hall]; simpl.
  - constructor; constructor.
  - destruct (leb x y) eqn:E.
    + constructor; [constructor; assumption|].
      constructor; [exact E|].
      eapply Forall_impl; [|exact Hall].
      intros z Hz. eapply leb_trans; eassumption.
    + constructor; [exact IH|].
      assert (Hyx : leb y x = true)
        by (destruct (leb_total x y) as [H|H]; congruence).
      rewrite Forall_forall in *. intros z Hz.
      apply (Permutation_in _ (Permutation_sym (insert_by_perm x l))) in Hz.
      destruct Hz as [<-|Hz]; [exact Hyx | apply Hall, Hz].
Qed.

Lemma sort_by_sorted (l : list A) :
  StronglySorted (le_of leb) (sort_by leb l).
Proof.
  induction l as [|x l IH]; simpl.
  - constructor.
  - apply insert_by_sorted, IH.
Qed.
End SortBy.

Section Unique.
Context {A : Type} (eqb : A -> A -> bool).
Hypothesis eqb_spec : forall a b, eqb a b = true <-> a = b.

Lemma unique_In (x : A) (l : list A) : In x (unique eqb l) <-> In x l.
Proof.
  induction l as [|y l IH]; simpl; [tauto|].
  rewrite filter_In, IH. split.
  - intros [H|[H _]]; auto.
  - intros [H|H]; [left; exact H|].
    destruct (eqb y x) eqn:E.
    + left. apply eqb_spec, E.
    + right. split; [exact H | reflexivity].
Qed.

Lemma unique_NoDup (l : list A) : NoDup (unique eqb l).
Proof.
  induction l as [|y l IH]; simpl; constructor.
  - rewrite filter_In. intros [_ H].
    assert (E : eqb y y = true) by (apply eqb_spec; reflexivity).
    rewrite E in H. discriminate.
  - apply NoDup_filter, IH.
Qed.
End Unique.


(** ** Columns of floats *)

(** Order goals about floats that are known not to be [NaN] are goals about
    their keys. *)
Ltac fkeys :=
  unfold Fle, Flt, Feq in *;
  repeat match goal with
  | H : (?x <=? ?y)%float = true |- _ =>
      let N1 := fresh "N" in let N2 := fresh "N" in
      destruct (leb_nan x y H) as [N1 N2];
      rewrite (leb_key x y N1 N2) in H; apply Z.leb_le in H
  | H : (?x <? ?y)%float = true |- _ =>
      let N1 := fresh "N" in let N2 := fresh "N" in
      destruct (ltb_nan x y H) as [N1 N2];
      rewrite (ltb_key x y N1 N2) in H; apply Z.ltb_lt in H
  | H : (?x <=? ?y)%float = false |- _ =>
      rewrite (leb_key x y) in H by assumption; apply Z.leb_gt in H
  | H : (?x <? ?y)%float = false |- _ =>
      rewrite (ltb_key x y) in H by assumption; apply Z.ltb_ge in H
  | H : (?x =? ?y)%float = true |- _ =>
      rewrite (eqb_key x y) in H by assumption; apply Z.eqb_eq in H
  | H : (?x =? ?y)%float = false |- _ =>
      rewrite (eqb_key x y) in H by assumption; apply Z.eqb_neq in H
  end;
  rewrite ?leb_key, ?ltb_key, ?eqb_key by assumption;
  rewrite ?Z.leb_le, ?Z.ltb_lt, ?Z.eqb_eq, ?Z.leb_gt, ?Z.ltb_ge,
    ?Z.eqb_neq;
  try lia.

Lemma value_Some (v : option float) (x : float) :
  value v = Some x <-> v = Some x /\ is_nan x = false.
Proof.
  unfold value. destruct v as [y|]; [|split; [discriminate | tauto]].
  destruct (is_nan y) eqn:E; split.
  - discriminate.
  - intros ([= ->] & H). congruence.
  - intros [= ->]. auto.
  - intros ([= ->] & _). reflexivity.
Qed.

Lemma value_idem (v : option float) : value (value v) = value v.
Proof.
  unfold value. destruct v as [x|]; [|reflexivity].
  destruct (is_nan x) eqn:E; [reflexivity | rewrite E; reflexivity].
Qed.

Lemma value_clean (v : option float) :
  (forall x, v = Some x -> is_nan x = false) -> value v = v.
Proof.
  intros H. destruct v as [x|]; [|reflexivity].
  simpl. rewrite (H x eq_refl). reflexivity.
Qed.

Lemma clean_col_cons (v : option float) (c : list (option float)) :
  clean_col (v :: c) ->
  (forall x, v = Some x -> is_nan x = false) /\ clean_col c.
Proof.
  intros H. split.
  - intros x ->. apply H. left. reflexivity.
  - intros x Hx. apply H. right. exact Hx.
Qed.

Lemma fold_max_step_spec (c : list (option float)) (acc : option float) :
  clean_col c -> (forall a, acc = Some a -> is_nan a = false) ->
  match fold_left max_step c acc with
  | None => acc = None /\ Forall (fun v => v = None) c
  | Some m =>
      is_nan m = false /\
      (acc = Some m \/ In (Some m) c) /\
      (forall a, acc = Some a -> Fle a m) /\
      (forall x, In (Some x) c -> Fle x m)
  end.
Proof.
  revert acc. induction c as [|v c IH]; intros acc Hc Hacc0; simpl.
  - destruct acc as [a|].
    + pose proof (Hacc0 a eq_refl) as Na.
      split; [exact Na|]. split; [left; reflexivity|]. split.
      * intros a' [= <-]. fkeys.
      * intros x [].
    + split; [reflexivity | constructor].
  - apply clean_col_cons in Hc. destruct Hc as (Hv & Hc).
    assert (Estep : max_step acc v
                    = match acc, v with
                      | None, _ => v
                      | Some a, None => Some a
                      | Some a, Some x =>
                          if (x <=? a)%float then Some a else Some x
                      end).
    { unfold max_step. rewrite (value_clean v Hv). reflexivity. }
    assert (Hstep : forall a, max_step acc v = Some a -> is_nan a = false).
    { rewrite Estep. intros a Ha.
      destruct acc as [b|], v as [x|]; try discriminate.
      - destruct (x <=? b)%float; injection Ha as <-; auto.
      - injection Ha as <-. auto.
      - injection Ha as <-. auto. }
    specialize (IH (max_step acc v) Hc Hstep).
    destruct (fold_left max_step c (max_step acc v)) as [m|].
    + destruct IH as (Nm & Hin & Hacc & Hall). rewrite Estep in Hin, Hacc.
      split; [exact Nm|].
      destruct acc as [a|], v as [x|]; simpl in *.
      * pose proof (Hacc0 a eq_refl) as Na.
        pose proof (Hv x eq_refl) as Nx.
        destruct (x <=? a)%float eqn:E.
        -- split; [destruct Hin as [Hin|Hin]; auto|].
           split; [exact Hacc|].
           intros y [[= <-]|Hy]; [|apply Hall, Hy].
           specialize (Hacc a eq_refl). fkeys.
        -- split; [destruct Hin as [Hin|Hin]; auto|].
           specialize (Hacc x eq_refl).
           split.
           ++ intros a' [= <-]. fkeys.
           ++ intros y [[= <-]|Hy]; [exact Hacc | apply Hall, Hy].
      * split; [destruct Hin as [Hin|Hin]; auto|].
        split; [exact Hacc|].
        intros y [Hy|Hy]; [discriminate | apply Hall, Hy].
      * split; [destruct Hin as [Hin|Hin]; auto|].
        split; [discriminate|].
        intros y [[= <-]|Hy]; [apply Hacc; reflexivity|apply Hall, Hy].
      * split; [destruct Hin as [Hin|Hin]; auto; discriminate|].
        split; [discriminate|].
        intros y [Hy|Hy]; [discriminate | apply Hall, Hy].
    + destruct IH as (Hacc & Hall). rewrite Estep in Hacc.
      destruct acc as [a|], v as [x|]; simpl in *; try discriminate.
      * destruct (x <=? a)%float; discriminate.
      * split; [reflexivity | constructor; [reflexivity | exact Hall]].
Qed.

Lemma col_max_Some (c : list (option float)) (m : float) :
  clean_col c -> col_max c = Some m ->
  is_nan m = false /\ In (Some m) c /\ forall x, In (Some x) c -> Fle x m.
Proof.
  unfold col_max. intros Hc H.
  assert (Hnone : forall a : float, None = Some a -> is_nan a = false)
    by discriminate.
  pose proof (fold_max_step_spec c None Hc Hnone) as S. rewrite H in S.
  destruct S as (Nm & [S|S] & _ & Hall); [discriminate | auto].
Qed.

Lemma col_max_None (c : list (option float)) :
  clean_col c -> (col_max c = None <-> forall x, ~ In (Some x) c).
Proof.
  unfold col_max. intros Hc.
  assert (Hnone : forall a : float, None = Some a -> is_nan a = false)
    by discriminate.
  pose proof (fold_max_step_spec c None Hc Hnone) as S. split.
  - intros H. rewrite H in S. destruct S as (_ & Hall).
    rewrite Forall_forall in Hall. intros x Hx.
    apply Hall in Hx. discriminate.
  - intros H. destruct (fold_left max_step c None) as [m|]; [|reflexivity].
    destruct S as (_ & [S|S] & _); [discriminate | elim (H m S)].
Qed.

Lemma fold_zmax_step_spec (c : list (option Z)) (acc : option Z) :
  match fold_left zmax_step c acc with
  | None => acc = None /\ Forall (fun v => v = None) c
  | Some m =>
      (acc = Some m \/ In (Some m) c) /\
      (forall a, acc = Some a -> (a <= m)%Z) /\
      (forall x, In (Some x) c -> (x <= m)%Z)
  end.
Proof.
  revert acc. induction c as [|v c IH]; intros acc; simpl.
  - destruct acc as [a|].
    + split; [left; reflexivity|]. split.
      * intros a' [= <-]. lia.
      * intros x [].
    + split; [reflexivity | constructor].
  - specialize (IH (zmax_step acc v)).
    destruct (fold_left zmax_step c (zmax_step acc v)) as [m|].
    + destruct IH as (Hin & Hacc & Hall).
      destruct acc as [a|], v as [x|]; simpl in *.
      * specialize (Hacc _ eq_refl). split.
        -- destruct Hin as [[= Hin]|Hin]; auto.
           destruct (Z.max_spec a x) as [[_ E]|[_ E]]; rewrite E in Hin;
             subst; auto.
        -- split; [intros a' [= <-]; lia|].
           intros y [[= <-]|Hy]; [lia | apply Hall, Hy].
      * split; [destruct Hin as [Hin|Hin]; auto|].
        split; [exact Hacc|].
        intros y [Hy|Hy]; [discriminate | apply Hall, Hy].
      * split; [destruct Hin as [Hin|Hin]; auto|].
        split; [discriminate|].
        intros y [[= <-]|Hy]; [apply Hacc; reflexivity|apply Hall, Hy].
      * split; [destruct Hin as [Hin|Hin]; auto; discriminate|].
        split; [discriminate|].
        intros y [Hy|Hy]; [discriminate | apply Hall, Hy].
    + destruct IH as (Hacc & Hall).
      destruct acc as [a|], v as [x|]; simpl in *; try discriminate.
      split; [reflexivity | constructor; [reflexivity | exact Hall]].
Qed.

Lemma col_zmax_Some (c : list (option Z)) (m : Z) :
  col_zmax c = Some m ->
  In (Some m) c /\ forall x, In (Some x) c -> (x <= m)%Z.
Proof.
  unfold col_zmax. intros H.
  pose proof (fold_zmax_step_spec c None) as S. rewrite H in S.
  destruct S as ([S|S] & _ & Hall); [discriminate | auto].
Qed.

Lemma col_zmax_None (c : list (option Z)) :
  col_zmax c = None <-> forall x, ~ In (Some x) c.
Proof.
  unfold col_zmax. pose proof (fold_zmax_step_spec c None) as S. split.
  - intros H. rewrite H in S. destruct S as (_ & Hall).
    rewrite Forall_forall in Hall. intros x Hx.
    apply Hall in Hx. discriminate.
  - intros H. destruct (fold_left zmax_step c None) as [m|]; [|reflexivity].
    destruct S as ([S|S] & _); [discriminate | elim (H m S)].
Qed.


Lemma clean_rows_col (df : list Row) :
  clean_rows df -> clean_col (map e1rm df).
Proof.
  intros H x Hx. apply in_map_iff in Hx. destruct Hx as (r & Hr & Hin).
  eapply H; eassumption.
Qed.

Lemma clean_rows_cons (r : Row) (df : list Row) :
  clean_rows (r :: df) ->
  (forall x, e1rm r = Some x -> is_nan x = false) /\ clean_rows df.
Proof.
  intros H. split.
  - intros x Hx. apply (H r x); [left; reflexivity | exact Hx].
  - intros r' x Hin Hx. apply (H r' x); [right; exact Hin | exact Hx].
Qed.

Lemma clean_rows_app (l1 l2 : list Row) :
  clean_rows (l1 ++ l2) <-> clean_rows l1 /\ clean_rows l2.
Proof.
  unfold clean_rows. split.
  - intros H. split; intros r x Hin; apply H, in_or_app; auto.
  - intros (H1 & H2) r x Hin. apply in_app_or in Hin.
    destruct Hin; [eapply H1 | eapply H2]; eassumption.
Qed.

Lemma clean_rows_incl (df df' : list Row) :
  (forall r, In r df' -> In r df) -> clean_rows df -> clean_rows df'.
Proof. intros Hincl H r x Hin. apply H, Hincl, Hin. Qed.

Lemma clean_rows_filter (p : Row -> bool) (df : list Row) :
  clean_rows df -> clean_rows (filter p df).
Proof.
  apply clean_rows_incl. intros r Hr. apply filter_In in Hr. apply Hr.
Qed.

Lemma clean_rows_sort (leb : Row -> Row -> bool) (df : list Row) :
  clean_rows df -> clean_rows (sort_by leb df).
Proof. apply clean_rows_incl. intros r. apply sort_by_In. Qed.

Lemma value_not_nan (v : option float) (x : float) :
  value v = Some x -> is_nan x = false.
Proof. intros H. apply value_Some in H. apply H. Qed.

Lemma clean_rows_assign (df : list Row) : clean_rows (assign_e1rm df).
Proof.
  intros r x Hin Hx. unfold assign_e1rm in Hin.
  apply in_map_iff in Hin. destruct Hin as (r0 & <- & _).
  simpl in Hx. eapply value_not_nan, Hx.
Qed.

Lemma clean_rows_load (data : list Workout) (i : nat) :
  clean_rows (load_rows i data).
Proof.
  revert i. induction data as [|w data IH]; intros i r x; simpl.
  - intros [].
  - intros [<-|Hin] Hx.
    + simpl in Hx. eapply value_not_nan, Hx.
    + eapply IH; eassumption.
Qed.

Create HintDb clean.

#[local] Hint Resolve clean_rows_col clean_rows_filter clean_rows_sort
  clean_rows_assign clean_rows_load : clean.

(** [idxmax] returns the label of the first row that reaches the maximum:
    every row before it is strictly below, every row after it is at most
    equal. *)
Lemma idxmax_from_spec (df : list Row) (best : option (nat * float)) :
  clean_rows df ->
  (forall j b, best = Some (j, b) -> is_nan b = false) ->
  match idxmax_from best df with
  | None => best = None /\ forall r, In r df -> e1rm r = None
  | Some i =>
      (exists b, best = Some (i, b) /\
         forall r v, In r df -> e1rm r = Some v -> Fle v b) \/
      (exists l1 r l2 m,
         df = l1 ++ r :: l2 /\ idx r = i /\ e1rm r = Some m /\
         is_nan m = false /\
         (forall j b, best = Some (j, b) -> Flt b m) /\
         (forall r' v, In r' l1 -> e1rm r' = Some v -> Flt v m) /\
         (forall r' v, In r' l2 -> e1rm r' = Some v -> Fle v m))
  end.
Proof.
  revert best.
  induction df as [|r rest IH]; intros best Hc Hbest; simpl.
  - destruct best as [[i b]|]; simpl.
    + left. exists b. split; [reflexivity | intros ? ? []].
    + split; [reflexivity | intros ? []].
  - apply clean_rows_cons in Hc. destruct Hc as (Hr & Hc).
    rewrite (value_clean (e1rm r) Hr).
    destruct (e1rm r) as [v|] eqn:Ev.
    + pose proof (Hr v eq_refl) as Nv.
      assert (Hnew : forall j b, Some (idx r, v) = Some (j, b) ->
                                 is_nan b = false)
        by (intros j b [= _ <-]; exact Nv).
      destruct best as [[j b]|].
      * pose proof (Hbest j b eq_refl) as Nb.
        destruct (v <=? b)%float eqn:E.
        -- specialize (IH (Some (j, b)) Hc Hbest).
           destruct (idxmax_from (Some (j, b)) rest) as [i|].
           ++ destruct IH as [(b' & Hb & Hall)|
                (l1 & r' & l2 & m & -> & Hi & Hm & Nm & Hb & H1 & H2)].
              ** injection Hb as Hbi Hbv; subst. left. exists b'.
                 split; [reflexivity|].
                 intros r0 v0 [<-|Hin] Hv0; [|eapply Hall; eassumption].
                 rewrite Ev in Hv0. injection Hv0 as <-. exact E.
              ** right. exists (r :: l1), r', l2, m.
                 repeat split; auto.
                 intros r0 v0 [<-|Hin] Hv0; [|eapply H1; eassumption].
                 rewrite Ev in Hv0. injection Hv0 as <-.
                 specialize (Hb j b eq_refl). fkeys.
           ++ destruct IH as [IH _]. discriminate.
        -- specialize (IH (Some (idx r, v)) Hc Hnew).
           destruct (idxmax_from (Some (idx r, v)) rest) as [i|].
           ++ right.
              destruct IH as [(b' & Hb & Hall)|
                (l1 & r' & l2 & m & -> & Hi & Hm & Nm & Hb & H1 & H2)].
              ** injection Hb as Hbi Hbv; subst. exists [], r, rest, b'.
                 repeat split; auto.
                 --- intros j' b0 [= -> ->]. fkeys.
                 --- intros ? ? [].
              ** exists (r :: l1), r', l2, m.
                 assert (Hvm : Flt v m) by (eapply Hb; reflexivity).
                 repeat split; auto.
                 --- intros j' b0 [= -> ->]. fkeys.
                 --- intros r0 v0 [<-|Hin] Hv0; [|eapply H1; eassumption].
                     rewrite Ev in Hv0. injection Hv0 as <-. exact Hvm.
           ++ destruct IH as [IH _]. discriminate.
      * specialize (IH (Some (idx r, v)) Hc Hnew).
        destruct (idxmax_from (Some (idx r, v)) rest) as [i|].
        -- right.
           destruct IH as [(b' & Hb & Hall)|
             (l1 & r' & l2 & m & -> & Hi & Hm & Nm & Hb & H1 & H2)].
           ++ injection Hb as Hbi Hbv; subst. exists [], r, rest, b'.
              repeat split; auto; [discriminate | intros ? ? []].
           ++ exists (r :: l1), r', l2, m.
              assert (Hvm : Flt v m) by (eapply Hb; reflexivity).
              repeat split; auto; [discriminate|].
              intros r0 v0 [<-|Hin] Hv0; [|eapply H1; eassumption].
              rewrite Ev in Hv0. injection Hv0 as <-. exact Hvm.
        -- destruct IH as [IH _]. discriminate.
    + specialize (IH best Hc Hbest).
      destruct (idxmax_from best rest) as [i|].
      * destruct IH as [(b' & Hb & Hall)|
          (l1 & r' & l2 & m & -> & Hi & Hm & Nm & Hb & H1 & H2)].
        -- left. exists b'. split; [exact Hb|].
           intros r0 v0 [<-|Hin] Hv0; [congruence | eapply Hall; eassumption].
        -- right. exists (r :: l1), r', l2, m.
           repeat split; auto.
           intros r0 v0 [<-|Hin] Hv0; [congruence | eapply H1; eassumption].
      * destruct IH as [Hb Hall]. split; [exact Hb|].
        intros r0 [<-|Hin]; [exact Ev | apply Hall, Hin].
Qed.

Lemma idxmax_Some (df : list Row) (i : nat) :
  clean_rows df -> idxmax df = Some i ->
  exists l1 r l2 m,
    df = l1 ++ r :: l2 /\ idx r = i /\ e1rm r = Some m /\
    is_nan m = false /\
    (forall r' v, In r' l1 -> e1rm r' = Some v -> Flt v m) /\
    (forall r' v, In r' l2 -> e1rm r' = Some v -> Fle v m).
Proof.
  unfold idxmax. intros Hc H.
  assert (Hnone : forall (j : nat) (b : float),
            None = Some (j, b) -> is_nan b = false) by discriminate.
  pose proof (idxmax_from_spec df None Hc Hnone) as S. rewrite H in S.
  destruct S as [(b & Hb & _)|(l1 & r & l2 & m & S)]; [discriminate|].
  exists l1, r, l2, m. tauto.
Qed.

Lemma idxmax_None (df : list Row) :
  clean_rows df ->
  (idxmax df = None <-> forall r, In r df -> e1rm r = None).
Proof.
  unfold idxmax. intros Hc.
  assert (Hnone : forall (j : nat) (b : float),
            None = Some (j, b) -> is_nan b = false) by discriminate.
  pose proof (idxmax_from_spec df None Hc Hnone) as S. split.
  - intros H. rewrite H in S. apply S.
  - intros H. destruct (idxmax_from None df) as [i|]; [|reflexivity].
    destruct S as [(b & Hb & _)|(l1 & r & l2 & m & -> & _ & Hm & _)];
      [discriminate|].
    rewrite H in Hm; [discriminate|].
    apply in_or_app. right. left. reflexivity.
Qed.
(** ** Orders used by the sorts *)

Lemma key_leb_total (a b : option Z) :
  key_leb a b = true \/ key_leb b a = true.
Proof.
  destruct a as [x|], b as [y|]; simpl; auto.
  destruct (Z.leb_spec x y); [left; reflexivity|].
  right. apply Z.leb_le. lia.
Qed.

Lemma key_leb_trans (a b c : option Z) :
  key_leb a b = true -> key_leb b c = true -> key_leb a c = true.
Proof.
  destruct a as [x|], b as [y|], c as [z|]; simpl; try congruence.
  rewrite !Z.leb_le. lia.
Qed.


Lemma key_leb_refl (a : option Z) : key_leb a a = true.
Proof. destruct a as [x|]; simpl; [apply Z.leb_refl | reflexivity]. Qed.

Lemma sort_values_set_no_sorted (df : list Row) :
  StronglySorted (le_of set_no_leb) (sort_values_set_no df).
Proof.
  apply sort_by_sorted.
  - intros a b. apply key_leb_total.
  - intros a b c. apply key_leb_trans.
Qed.

Lemma sort_values_set_no_perm (df : list Row) :
  Permutation df (sort_values_set_no df).
Proof. apply sort_by_perm. Qed.



(** ** Index labels *)

Lemma load_rows_idx_ge (data : list Workout) (i : nat) (r : Row) :
  In r (load_rows i data) -> (i <= idx r)%nat.
Proof.
  revert i. induction data as [|w data IH]; intros i; simpl; [tauto|].
  intros [<-|H]; [simpl; lia|]. apply IH in H. lia.
Qed.

Lemma load_rows_idx_NoDup (data : list Workout) (i : nat) :
  NoDup (map idx (load_rows i data)).
Proof.
  revert i. induction data as [|w data IH]; intros i; simpl; constructor.
  - rewrite in_map_iff. intros (r & Hr & Hin).
    apply load_rows_idx_ge in Hin. lia.
  - apply IH.
Qed.

Lemma NoDup_map_filter {Row0 Label : Type} (label : Row0 -> Label)
  (keep : Row0 -> bool) (df : list Row0) (Hnd : NoDup (map label df)) :
  NoDup (map label (filter keep df)).
Proof.
  induction df as [|x df IH]; simpl in *; [constructor|].
  inversion Hnd as [|? ? Hnot Hnd']; subst.
  destruct (keep x); simpl; [constructor|]; auto.
  rewrite in_map_iff in *. intros (y & Hy & Hin).
  apply Hnot. exists y. split; [exact Hy|].
  apply filter_In in Hin. tauto.
Qed.

Lemma assign_e1rm_idx (df : list Row) :
  map idx (assign_e1rm df) = map idx df.
Proof.
  unfold assign_e1rm. rewrite map_map. apply map_ext. reflexivity.
Qed.

Lemma ex_df_idx_NoDup (data : list Workout) (day : Z) (ex : string) :
  NoDup (map idx
           (ex_df (assign_e1rm (today_sets (load_rows 0 data) day)) ex)).
Proof.
  unfold ex_df.
  eapply Permutation_NoDup;
    [apply Permutation_map, sort_values_set_no_perm|].
  apply NoDup_map_filter. rewrite assign_e1rm_idx.
  apply NoDup_map_filter, load_rows_idx_NoDup.
Qed.

Lemma filter_label_unique (l1 : list Row) (r : Row) (l2 : list Row) :
  NoDup (map idx (l1 ++ r :: l2)) ->
  filter (fun row => Nat.eqb (idx row) (idx r)) (l1 ++ r :: l2) = [r].
Proof.
  intros Hnd. rewrite filter_app. simpl. rewrite Nat.eqb_refl.
  rewrite map_app in Hnd. simpl in Hnd.
  assert (H1 : forall x, In x l1 -> Nat.eqb (idx x) (idx r) = false).
  { intros x Hx. apply Nat.eqb_neq. intros E.
    apply NoDup_remove_2 in Hnd. apply Hnd, in_or_app. left.
    rewrite <- E. apply in_map, Hx. }
  assert (H2 : forall x, In x l2 -> Nat.eqb (idx x) (idx r) = false).
  { intros x Hx. apply Nat.eqb_neq. intros E.
    apply NoDup_remove_2 in Hnd. apply Hnd, in_or_app. right.
    rewrite <- E. apply in_map, Hx. }
  assert (F : forall l, (forall x, In x l ->
                Nat.eqb (idx x) (idx r) = false) ->
              filter (fun row => Nat.eqb (idx row) (idx r)) l = []).
  { induction l as [|x l IH]; simpl; intros H; [reflexivity|].
    rewrite (H x (or_introl eq_refl)). apply IH.
    intros y Hy. apply H. right. exact Hy. }
  rewrite (F l1 H1), (F l2 H2). reflexivity.
Qed.

(** ** The session-best set *)

Lemma filter_map_swap {A B : Type} (f : A -> B) (p : B -> bool)
  (l : list A) :
  filter p (map f l) = map f (filter (fun x => p (f x)) l).
Proof.
  induction l as [|x l IH]; simpl; [reflexivity|].
  destruct (p (f x)); simpl; congruence.
Qed.
(** ** The order on exercise names *)

Lemma ascii_compare_refl (a : Ascii.ascii) : Ascii.compare a a = Eq.
Proof. unfold Ascii.compare. apply N.compare_refl. Qed.

Lemma ascii_compare_Lt_trans (a b c : Ascii.ascii) :
  Ascii.compare a b = Lt -> Ascii.compare b c = Lt -> Ascii.compare a c = Lt.
Proof.
  unfold Ascii.compare. rewrite !N.compare_lt_iff. apply N.lt_trans.
Qed.

Lemma string_compare_refl (s : string) : String.compare s s = Eq.
Proof.
  induction s as [|a s IH]; simpl; [reflexivity|].
  rewrite ascii_compare_refl. exact IH.
Qed.

Lemma string_compare_Lt_trans (a b c : string) :
  String.compare a b = Lt -> String.compare b c = Lt ->
  String.compare a c = Lt.
Proof.
  revert b c. induction a as [|x a IH]; intros [|y b] [|z c]; simpl;
    try congruence.
  destruct (Ascii.compare x y) eqn:Exy;
    destruct (Ascii.compare y z) eqn:Eyz; try congruence; intros H1 H2.
  - apply Ascii.compare_eq_iff in Exy, Eyz. subst.
    rewrite ascii_compare_refl. eapply IH; eassumption.
  - apply Ascii.compare_eq_iff in Exy. subst. rewrite Eyz. reflexivity.
  - apply Ascii.compare_eq_iff in Eyz. subst. rewrite Exy. reflexivity.
  - rewrite (ascii_compare_Lt_trans x y z Exy Eyz). reflexivity.
Qed.

Lemma sorted_names_In (ex : string) (l : list string) :
  In ex (sorted_names (unique String.eqb l)) <-> In ex l.
Proof.
  unfold sorted_names. rewrite sort_by_In.
  apply unique_In. apply String.eqb_eq.
Qed.

Lemma desc_leb_total (a b : option float) :
  desc_leb a b = true \/ desc_leb b a = true.
Proof.
  unfold desc_leb.
  destruct (value a) as [x|] eqn:Ea, (value b) as [y|] eqn:Eb; auto.
  apply value_not_nan in Ea, Eb.
  destruct (y <=? x)%float eqn:E; [left; reflexivity|].
  right. fkeys.
Qed.

Lemma desc_leb_trans (a b c : option float) :
  desc_leb a b = true -> desc_leb b c = true -> desc_leb a c = true.
Proof.
  unfold desc_leb.
  destruct (value a) as [x|] eqn:Ea, (value b) as [y|] eqn:Eb,
    (value c) as [z|] eqn:Ec; try congruence.
  intros H1 H2. fkeys.
Qed.

Lemma exercise_e1rm_leb_total (a b : Row) :
  exercise_e1rm_leb a b = true \/ exercise_e1rm_leb b a = true.
Proof.
  unfold exercise_e1rm_leb.
  rewrite (String.compare_antisym (exercise a) (exercise b)).
  destruct (String.compare (exercise b) (exercise a)); simpl; auto.
  apply desc_leb_total.
Qed.

Lemma exercise_e1rm_leb_trans (a b c : Row) :
  exercise_e1rm_leb a b = true -> exercise_e1rm_leb b c = true ->
  exercise_e1rm_leb a c = true.
Proof.
  unfold exercise_e1rm_leb.
  destruct (String.compare (exercise a) (exercise b)) eqn:Eab;
    destruct (String.compare (exercise b) (exercise c)) eqn:Ebc;
    try congruence; intros H1 H2.
  - apply String.compare_eq_iff in Eab, Ebc. rewrite Eab, Ebc.
    rewrite string_compare_refl. eapply desc_leb_trans; eassumption.
  - apply String.compare_eq_iff in Eab. rewrite Eab, Ebc. reflexivity.
  - apply String.compare_eq_iff in Ebc. rewrite <- Ebc, Eab. reflexivity.
  - rewrite (string_compare_Lt_trans _ _ _ Eab Ebc). reflexivity.
Qed.

Lemma sort_values_exercise_e1rm_sorted (df : list Row) :
  StronglySorted (le_of exercise_e1rm_leb) (sort_values_exercise_e1rm df).
Proof.
  apply sort_by_sorted.
  - apply exercise_e1rm_leb_total.
  - apply exercise_e1rm_leb_trans.
Qed.

(** ** Loaded rows *)

Lemma set_e1rm_same (r : Row) : set_e1rm r (e1rm r) = r.
Proof. destruct r; reflexivity. Qed.

Lemma assign_e1rm_fixed (df : list Row) :
  Forall (fun r => e1rm r = value (est_1rm_epley (weight_kg r) (reps r)))
         df ->
  assign_e1rm df = df.
Proof.
  induction 1 as [|r df Hr _ IH]; simpl; [reflexivity|].
  rewrite <- Hr, set_e1rm_same. f_equal. exact IH.
Qed.

Lemma load_rows_e1rm (data : list Workout) (i : nat) :
  Forall (fun r => e1rm r = value (est_1rm_epley (weight_kg r) (reps r)))
         (load_rows i data).
Proof.
  revert i. induction data as [|w data IH]; intros i; simpl; constructor.
  - reflexivity.
  - apply IH.
Qed.

Lemma Forall_filter {A : Type} (P : A -> Prop) (p : A -> bool)
  (l : list A) : Forall P l -> Forall P (filter p l).
Proof.
  rewrite !Forall_forall. intros H x Hx. apply filter_In in Hx.
  apply H, Hx.
Qed.

Lemma assign_e1rm_loaded (data : list Workout) (i : nat)
  (p : Row -> bool) :
  assign_e1rm (filter p (load_rows i data)) = filter p (load_rows i data).
Proof. apply assign_e1rm_fixed, Forall_filter, load_rows_e1rm. Qed.

Lemma assign_e1rm_load_rows (data : list Workout) (i : nat) :
  assign_e1rm (load_rows i data) = load_rows i data.
Proof. apply assign_e1rm_fixed, load_rows_e1rm. Qed.

Lemma history_loaded (data : list Workout) (day : Z) :
  history (load_rows 0 data) day
  = filter (fun r => (date r <? day)%Z) (load_rows 0 data).
Proof.
  unfold history.
  destruct (negb (null (filter (fun r => (date r <? day)%Z)
                               (load_rows 0 data)))); [|reflexivity].
  apply assign_e1rm_loaded.
Qed.

Lemma dropna_e1rm_In (r : Row) (df : list Row) :
  clean_rows df ->
  (In r (dropna_e1rm df) <-> In r df /\ exists v, e1rm r = Some v).
Proof.
  intros Hc. unfold dropna_e1rm. rewrite filter_In.
  split; intros [H1 H2]; split; auto.
  - rewrite value_clean in H2 by (intros x; apply Hc, H1).
    destruct (e1rm r) as [v|]; [exists v; reflexivity | discriminate].
  - rewrite value_clean by (intros x; apply Hc, H1).
    destruct H2 as [v ->]. reflexivity.
Qed.

(** ** Grouping by exercise: the historical best *)

Lemma loc_map (F : string -> float) (names : list string) (ex : string) :
  loc (map (fun k => (k, F k)) names) ex
  = if existsb (String.eqb ex) names then Some (F ex) else None.
Proof.
  induction names as [|k names IH]; simpl; [reflexivity|].
  rewrite (String.eqb_sym ex k).
  destruct (String.eqb_spec k ex) as [->|Hne]; simpl.
  - reflexivity.
  - exact IH.
Qed.

Lemma filter_none {A : Type} (p : A -> bool) (l : list A) :
  (forall x, In x l -> p x = false) -> filter p l = [].
Proof.
  induction l as [|x l IH]; simpl; intros H; [reflexivity|].
  rewrite (H x (or_introl eq_refl)). apply IH.
  intros y Hy. apply H. right. exact Hy.
Qed.

Lemma existsb_name (ex : string) (l : list string) :
  existsb (String.eqb ex) l = true <-> In ex l.
Proof.
  rewrite existsb_exists. split.
  - intros (x & Hx & E). apply String.eqb_eq in E. subst. exact Hx.
  - intros H. exists ex. split; [exact H | apply String.eqb_refl].
Qed.

Lemma loc_groupby_exercise_first (df : list Row) (ex : string) :
  loc (groupby_exercise_first df) ex
  = if existsb (String.eqb ex) (map exercise df)
    then Some (or_nan
                 (first_valid
                    (map e1rm
                         (filter (fun r => String.eqb (exercise r) ex) df))))
    else None.
Proof.
  unfold groupby_exercise_first.
  rewrite (loc_map
             (fun k => or_nan
                         (first_valid
                            (map e1rm
                                 (filter
                                    (fun r => String.eqb (exercise r) k)
                                    df))))).
  destruct (existsb (String.eqb ex) (map exercise df)) eqn:E.
  - apply (proj1 (existsb_name _ _)) in E.
    apply (proj2 (sorted_names_In _ _)) in E.
    apply (proj2 (existsb_name _ _)) in E. rewrite E. reflexivity.
  - destruct (existsb (String.eqb ex)
                (sorted_names (unique String.eqb (map exercise df))))
      eqn:E'; [|reflexivity].
    apply (proj1 (existsb_name _ _)) in E'.
    apply (proj1 (sorted_names_In _ _)) in E'.
    apply (proj2 (existsb_name _ _)) in E'. congruence.
Qed.

(** In a frame sorted by exercise and descending estimate, the first row of
    an exercise carries the largest estimate of that exercise. *)
Lemma first_of_exercise_is_max (df : list Row) (ex : string) :
  clean_rows df ->
  Forall (fun r => exists v, e1rm r = Some v) df ->
  StronglySorted (le_of exercise_e1rm_leb) df ->
  match first_valid
          (map e1rm (filter (fun r => String.eqb (exercise r) ex) df)) with
  | None => forall r, In r df -> exercise r <> ex
  | Some h =>
      is_nan h = false /\
      (exists r, In r df /\ exercise r = ex /\ e1rm r = Some h) /\
      (forall r v, In r df -> exercise r = ex -> e1rm r = Some v ->
                   Fle v h)
  end.
Proof.
  intros Hc Hdef Hs. induction Hs as [|r df Hs IH Hall]; simpl.
  - intros r [].
  - inversion Hdef as [|? ? [h Hh] Hdef']; subst.
    apply clean_rows_cons in Hc. destruct Hc as (Hr & Hc).
    specialize (IH Hc Hdef'). pose proof (Hr h Hh) as Nh.
    destruct (String.eqb_spec (exercise r) ex) as [Hex|Hne]; simpl.
    + rewrite (value_clean (e1rm r) Hr), Hh. split; [exact Nh|]. split.
      * exists r. auto.
      * intros r' v [<-|Hin] Hex' Hv.
        -- rewrite Hh in Hv. injection Hv as <-. fkeys.
        -- rewrite Forall_forall in Hall. specialize (Hall r' Hin).
           unfold le_of, exercise_e1rm_leb in Hall.
           rewrite Hex, Hex', string_compare_refl in Hall.
           unfold desc_leb in Hall.
           rewrite (value_clean (e1rm r) Hr), Hh in Hall.
           rewrite value_clean in Hall by (intros x; apply Hc, Hin).
           rewrite Hv in Hall. exact Hall.
    + destruct (first_valid
                  (map e1rm
                       (filter (fun r0 => String.eqb (exercise r0) ex) df)))
        as [h'|].
      * destruct IH as (Nh' & (r' & Hin & Hex' & Hv') & Hmax).
        split; [exact Nh'|]. split.
        -- exists r'. auto.
        -- intros r0 v [<-|Hin0] Hex0 Hv0; [contradiction|].
           eapply Hmax; eassumption.
      * intros r0 [<-|Hin0]; [exact Hne | apply IH, Hin0].
Qed.

(** The historical best of an exercise is the largest defined estimate among
    its rows dated before the day. *)
Lemma hist_best_rows (data : list Workout) (day : Z) (ex : string) :
  match loc (best_hist (load_rows 0 data) day) ex with
  | None =>
      forall r v, In r (load_rows 0 data) -> (date r < day)%Z ->
                  exercise r = ex -> e1rm r <> Some v
  | Some h =>
      is_nan h = false /\
      (exists r, In r (load_rows 0 data) /\ (date r < day)%Z /\
                 exercise r = ex /\ e1rm r = Some h) /\
      (forall r v, In r (load_rows 0 data) -> (date r < day)%Z ->
                   exercise r = ex -> e1rm r = Some v -> Fle v h)
  end.
Proof.
  unfold best_hist. rewrite loc_groupby_exercise_first, history_loaded.
  set (rows := load_rows 0 data).
  set (valid := dropna_e1rm (filter (fun r => (date r <? day)%Z) rows)).
  assert (Hcf : clean_rows (filter (fun r => (date r <? day)%Z) rows))
    by (unfold rows; auto with clean).
  assert (Hcv : clean_rows (sort_values_exercise_e1rm valid)).
  { unfold sort_values_exercise_e1rm, valid, dropna_e1rm.
    auto with clean. }
  assert (Hin : forall r, In r (sort_values_exercise_e1rm valid) <->
                  In r rows /\ (date r < day)%Z /\ exists v, e1rm r = Some v).
  { intros r. unfold sort_values_exercise_e1rm. rewrite sort_by_In.
    unfold valid. rewrite (dropna_e1rm_In r _ Hcf), filter_In, Z.ltb_lt.
    tauto. }
  pose proof (first_of_exercise_is_max (sort_values_exercise_e1rm valid) ex
                Hcv) as S.
  assert (Hdef : Forall (fun r => exists v, e1rm r = Some v)
                        (sort_values_exercise_e1rm valid)).
  { apply Forall_forall. intros r Hr. apply Hin in Hr. tauto. }
  specialize (S Hdef (sort_values_exercise_e1rm_sorted valid)).
  destruct (existsb (String.eqb ex)
              (map exercise (sort_values_exercise_e1rm valid))) eqn:Ex.
  - apply (proj1 (existsb_name _ _)) in Ex. apply in_map_iff in Ex.
    destruct Ex as (r0 & Hex0 & Hr0).
    destruct (first_valid
                (map e1rm
                     (filter (fun r => String.eqb (exercise r) ex)
                             (sort_values_exercise_e1rm valid)))) as [h|].
    + destruct S as (Nh & (r & Hr & Hex & Hv) & Hmax). simpl.
      split; [exact Nh|]. split.
      * exists r. apply Hin in Hr. tauto.
      * intros r' v Hr' Hd Hex' Hv'. apply (Hmax r' v); auto.
        apply Hin. split; [exact Hr'|]. split; [exact Hd|]. eauto.
    + elim (S r0 Hr0 Hex0).
  - intros r v Hr Hd Hex Hv.
    assert (Hin' : In r (sort_values_exercise_e1rm valid)).
    { apply Hin. split; [exact Hr|]. split; [exact Hd|]. eauto. }
    assert (Et : existsb (String.eqb ex)
                   (map exercise (sort_values_exercise_e1rm valid)) = true).
    { apply (proj2 (existsb_name _ _)), in_map_iff. exists r. auto. }
    congruence.
Qed.
Lemma load_rows_In (data : list Workout) (i : nat) (r : Row) :
  In r (load_rows i data) -> exists w, In w data /\ r = load_row (idx r) w.
Proof.
  revert i. induction data as [|w data IH]; intros i; simpl; [tauto|].
  intros [<-|H].
  - exists w. auto.
  - destruct (IH _ H) as (w' & Hw' & E). exists w'. auto.
Qed.

Lemma In_load_rows (data : list Workout) (i : nat) (w : Workout) :
  In w data -> exists j, In (load_row j w) (load_rows i data).
Proof.
  revert i. induction data as [|w' data IH]; intros i; simpl; [tauto|].
  intros [->|H].
  - exists i. auto.
  - destruct (IH (S i) H) as (j & Hj). exists j. auto.
Qed.

Lemma load_rows_app (d1 d2 : list Workout) (i : nat) :
  load_rows i (d1 ++ d2)
  = load_rows i d1 ++ load_rows (i + List.length d1) d2.
Proof.
  revert i. induction d1 as [|w d1 IH]; intros i; simpl.
  - rewrite Nat.add_0_r. reflexivity.
  - rewrite IH. do 3 f_equal. lia.
Qed.


(** ** Grouping by date and exercise *)

Lemma group_key_eqb_eq (a b : Z * string) :
  group_key_eqb a b = true <-> a = b.
Proof.
  destruct a as [d1 e1], b as [d2 e2]. unfold group_key_eqb. simpl.
  rewrite andb_true_iff, Z.eqb_eq, String.eqb_eq. split.
  - intros [-> ->]. reflexivity.
  - intros [= -> ->]. auto.
Qed.

Lemma session_keys_In (k : Z * string) (df : list Row) :
  In k (sort_by group_key_leb (unique group_key_eqb (map group_key df)))
  <-> exists r, In r df /\ group_key r = k.
Proof.
  rewrite sort_by_In, (unique_In _ group_key_eqb_eq), in_map_iff.
  split; intros (r & H1 & H2); exists r; auto.
Qed.

Lemma session_keys_NoDup (df : list Row) :
  NoDup (sort_by group_key_leb (unique group_key_eqb (map group_key df))).
Proof.
  eapply Permutation_NoDup; [apply sort_by_perm|].
  apply (unique_NoDup _ group_key_eqb_eq).
Qed.

(** Every group gets a row; it holds the largest estimate of the group, or
    [NaN] when the group has none. *)
Lemma groupby_max_In (df : list Row) (s : SessionRow) :
  clean_rows df ->
  In s (groupby_date_exercise_max df) ->
  (exists r, In r df /\ group_key r = session_key s) /\
  ((is_nan (session_1rm s) = true /\
    forall r, In r df -> group_key r = session_key s -> e1rm r = None) \/
   (is_nan (session_1rm s) = false /\
    (exists r, In r df /\ group_key r = session_key s /\
               e1rm r = Some (session_1rm s)) /\
    (forall r v, In r df -> group_key r = session_key s ->
                 e1rm r = Some v -> Fle v (session_1rm s)))).
Proof.
  intros Hc. unfold groupby_date_exercise_max. rewrite in_map_iff.
  intros (k & <- & Hk). unfold session_key. simpl.
  rewrite <- surjective_pairing.
  split; [apply session_keys_In, Hk|].
  assert (Hcf : clean_col
                  (map e1rm
                       (filter (fun r => group_key_eqb (group_key r) k)
                               df)))
    by auto with clean.
  destruct (col_max
              (map e1rm
                   (filter (fun r => group_key_eqb (group_key r) k) df)))
    as [m|] eqn:Em; simpl.
  - right. apply (col_max_Some _ _ Hcf) in Em.
    destruct Em as (Nm & Hin & Hmax). split; [exact Nm|]. split.
    + apply in_map_iff in Hin. destruct Hin as (r & Hr & Hf).
      apply filter_In in Hf. destruct Hf as (Hf & Hkr).
      apply group_key_eqb_eq in Hkr. exists r. auto.
    + intros r v Hr Hkr Hv. apply Hmax. rewrite <- Hv.
      apply in_map, filter_In. split; [exact Hr|].
      apply group_key_eqb_eq, Hkr.
  - left. split; [reflexivity|].
    rewrite (col_max_None _ Hcf) in Em. intros r Hr Hkr.
    destruct (e1rm r) as [v|] eqn:Ev; [|reflexivity].
    elim (Em v). rewrite <- Ev. apply in_map, filter_In.
    split; [exact Hr | apply group_key_eqb_eq, Hkr].
Qed.

Lemma groupby_max_key (df : list Row) (r : Row) :
  In r df ->
  exists s, In s (groupby_date_exercise_max df) /\
            session_key s = group_key r.
Proof.
  intros Hin. unfold groupby_date_exercise_max.
  eexists. split.
  - apply in_map_iff. exists (group_key r). split; [reflexivity|].
    apply session_keys_In. exists r. auto.
  - unfold session_key. simpl. symmetry. apply surjective_pairing.
Qed.

Lemma groupby_max_NoDup (df : list Row) :
  NoDup (map session_key (groupby_date_exercise_max df)).
Proof.
  unfold groupby_date_exercise_max. rewrite map_map.
  unfold session_key. simpl.
  rewrite (map_ext _ (fun k => k))
    by (intros k; symmetry; apply surjective_pairing).
  rewrite map_id. apply session_keys_NoDup.
Qed.

(** The aggregate reads only the date, the exercise and the estimate of a
    row. *)
Lemma filter_map_ext (k : Z * string) (df1 df2 : list Row) :
  map (fun r => (group_key r, e1rm r)) df1
  = map (fun r => (group_key r, e1rm r)) df2 ->
  map e1rm (filter (fun r => group_key_eqb (group_key r) k) df1)
  = map e1rm (filter (fun r => group_key_eqb (group_key r) k) df2).
Proof.
  revert df2. induction df1 as [|r1 df1 IH]; intros [|r2 df2]; simpl;
    try discriminate; [reflexivity|].
  intros [= Hd Hx He Hrest]. unfold group_key at 1 3. rewrite Hd, Hx.
  fold (group_key r2).
  destruct (group_key_eqb (group_key r2) k); simpl.
  - rewrite He. f_equal. apply IH, Hrest.
  - apply IH, Hrest.
Qed.

Lemma groupby_max_ext (df1 df2 : list Row) :
  map (fun r => (group_key r, e1rm r)) df1
  = map (fun r => (group_key r, e1rm r)) df2 ->
  groupby_date_exercise_max df1 = groupby_date_exercise_max df2.
Proof.
  intros H. unfold groupby_date_exercise_max.
  assert (Hk : map group_key df1 = map group_key df2).
  { apply (f_equal (map fst)) in H. rewrite !map_map in H. exact H. }
  rewrite Hk. apply map_ext. intros k.
  rewrite (filter_map_ext k df1 df2 H). reflexivity.
Qed.

Lemma valid_rows_shift (data : list Workout) (i j : nat) :
  map (fun r => (group_key r, e1rm r))
      (dropna_e1rm (assign_e1rm (load_rows i data)))
  = map (fun r => (group_key r, e1rm r))
        (dropna_e1rm (assign_e1rm (load_rows j data))).
Proof.
  revert i j. induction data as [|w data IH]; intros i j; simpl;
    [reflexivity|].
  rewrite value_idem.
  destruct (value (est_1rm_epley (w_weight_kg w) (w_reps w))); simpl.
  - f_equal. apply IH.
  - apply IH.
Qed.

Lemma ses_undefined_observation (d1 d2 : list Workout) (w : Workout) :
  value (est_1rm_epley (w_weight_kg w) (w_reps w)) = None ->
  ses_of_rows (load_rows 0 (d1 ++ w :: d2))
  = ses_of_rows (load_rows 0 (d1 ++ d2)).
Proof.
  intros Hw. unfold ses_of_rows. apply groupby_max_ext.
  rewrite !load_rows_app. unfold assign_e1rm, dropna_e1rm.
  rewrite !map_app, !filter_app, !map_app. f_equal.
  simpl. rewrite Hw. simpl.
  apply (valid_rows_shift d2).
Qed.

Lemma ses_of_loaded_rows (data : list Workout) :
  ses_of_rows (load_rows 0 data)
  = groupby_date_exercise_max (dropna_e1rm (load_rows 0 data)).
Proof. unfold ses_of_rows. rewrite assign_e1rm_load_rows. reflexivity. Qed.

(** After [dropna] every group has a number, so no row of the aggregate
    holds [NaN]. *)
Lemma ses_row_In (data : list Workout) (s : SessionRow) :
  In s (ses_of_rows (load_rows 0 data)) ->
  is_nan (session_1rm s) = false /\
  (exists r, In r (load_rows 0 data) /\ group_key r = session_key s /\
             e1rm r = Some (session_1rm s)) /\
  (forall r v, In r (load_rows 0 data) -> group_key r = session_key s ->
               e1rm r = Some v -> Fle v (session_1rm s)).
Proof.
  rewrite ses_of_loaded_rows. intros H.
  assert (Hc : clean_rows (load_rows 0 data)) by auto with clean.
  assert (Hcd : clean_rows (dropna_e1rm (load_rows 0 data)))
    by (unfold dropna_e1rm; auto with clean).
  apply (groupby_max_In _ _ Hcd) in H.
  destruct H as ((r0 & Hr0 & Hk0) &
                 [(_ & Hnone)|(Nm & (r & Hr & Hk & Hv) & Hmax)]).
  - apply (dropna_e1rm_In r0 _ Hc) in Hr0.
    destruct Hr0 as (Hr0 & v & Hv).
    rewrite Hnone in Hv; [discriminate| |exact Hk0].
    apply (dropna_e1rm_In r0 _ Hc). eauto.
  - split; [exact Nm|]. split.
    + exists r. apply (dropna_e1rm_In r _ Hc) in Hr. tauto.
    + intros r' v Hr' Hk' Hv'. apply (Hmax r' v); auto.
      apply (dropna_e1rm_In r' _ Hc). eauto.
Qed.

Lemma ses_row_exists (data : list Workout) (r : Row) (v : float) :
  In r (load_rows 0 data) -> e1rm r = Some v ->
  exists s, In s (ses_of_rows (load_rows 0 data)) /\
            session_key s = group_key r.
Proof.
  intros Hr Hv. rewrite ses_of_loaded_rows.
  apply (groupby_max_key _ r).
  apply dropna_e1rm_In; [auto with clean | eauto].
Qed.

(** ** Session aggregation *)

(** C6. The aggregate has one row for each (date, exercise) pair that has at
    least one defined estimate and no other row: a pair whose estimates are
    all undefined has none.  The row holds the largest estimate of the pair,
    and adding an observation whose estimate is undefined changes
    nothing. *)
Theorem session_aggregation_spec (data : list Workout) :
  let table := ses_of_rows (load_rows 0 data) in
  (data <> [] -> ses (db_load_sets data) = Ok (Some table)) /\
  NoDup (map session_key table) /\
  (forall d ex,
     In (d, ex) (map session_key table) <->
     exists w v, In w data /\ w_date w = d /\ w_exercise w = ex /\
                 w_e1rm w = Some v) /\
  (forall s, In s table ->
     is_nan (session_1rm s) = false /\
     (exists w, In w data /\ w_date w = s_date s /\
                w_exercise w = s_exercise s /\
                w_e1rm w = Some (session_1rm s)) /\
     (forall w v, In w data -> w_date w = s_date s ->
                  w_exercise w = s_exercise s ->
                  w_e1rm w = Some v ->
                  (v <=? session_1rm s)%float = true)) /\
  (forall d1 w d2, data = d1 ++ d2 ->
     w_e1rm w = None ->
     ses_of_rows (load_rows 0 (d1 ++ w :: d2)) = table).
Proof.
  intros table. split; [|split; [|split; [|split]]].
  - destruct data as [|w data']; [congruence|]. intros _. reflexivity.
  - unfold table. rewrite ses_of_loaded_rows. apply groupby_max_NoDup.
  - intros d ex. rewrite in_map_iff. split.
    + intros (s & Hk & Hs). apply ses_row_In in Hs.
      destruct Hs as (_ & (r & Hr & Hkr & Hv) & _).
      apply load_rows_In in Hr. destruct Hr as (w & Hw & Er).
      exists w, (session_1rm s). rewrite Hk in Hkr.
      rewrite Er in Hkr, Hv. unfold group_key in Hkr. simpl in Hkr, Hv.
      injection Hkr as Hd Hx. auto.
    + intros (w & v & Hw & Hd & Hx & Hv).
      destruct (In_load_rows data 0 w Hw) as (j & Hj).
      destruct (ses_row_exists data (load_row j w) v Hj Hv) as (s & Hs & Hk).
      exists s. split; [|exact Hs].
      rewrite Hk. unfold group_key. simpl. congruence.
  - intros s Hs. apply ses_row_In in Hs.
    destruct Hs as (Nm & (r & Hr & Hkr & Hv) & Hmax).
    split; [exact Nm|]. split.
    + apply load_rows_In in Hr. destruct Hr as (w & Hw & Er).
      exists w. rewrite Er in Hkr, Hv.
      unfold group_key, session_key in Hkr. simpl in Hkr, Hv.
      injection Hkr as Hd Hx. auto.
    + intros w v Hw Hd Hx Hv'.
      destruct (In_load_rows data 0 w Hw) as (j & Hj).
      apply (Hmax (load_row j w) v Hj); [|exact Hv'].
      unfold group_key, session_key. simpl. congruence.
  - intros d1 w d2 -> Hw. apply ses_undefined_observation, Hw.
Qed.

Lemma session_aggregation_spec_witness :
  ses_of_rows (load_rows 0 ([a_set 1 "Squat" 1 100 5]
                            ++ a_set 1 "Squat" 2 110 0
                            :: [a_set 2 "Squat" 1 105 5]))
  = ses_of_rows (load_rows 0 ([a_set 1 "Squat" 1 100 5]
                              ++ [a_set 2 "Squat" 1 105 5])).
Proof.
  apply (session_aggregation_spec
           ([a_set 1 "Squat" 1 100 5] ++ [a_set 2 "Squat" 1 105 5]));
    reflexivity.
Defined.

(** The instance of the specification: two dates and two exercises give four
    rows, each with the largest estimate of its pair; the set without
    estimate changes nothing. *)
Example ses_two_by_two :
  map (fun s => (s_date s, s_exercise s))
      (ses_of_rows (load_rows 0 two_by_two))
  = [(1%Z, "Bench Press"%string); (1%Z, "Squat"%string);
     (2%Z, "Bench Press"%string); (2%Z, "Squat"%string)].
Proof. reflexivity. Qed.

(** A pair whose estimates are all undefined is dropped before the
    grouping, not by it: on the frame with its undefined rows the grouping
    yields a [NaN] row for the pair. *)
Example ses_drops_undefined_pair :
  map session_key (ses_of_rows (load_rows 0 undefined_today))
  = [(1%Z, "Bench Press"%string)] /\
  map (fun s => (session_key s, is_nan (session_1rm s)))
      (groupby_date_exercise_max (load_rows 0 undefined_today))
  = [((1%Z, "Bench Press"%string), false);
     ((2%Z, "Bench Press"%string), true)].
Proof. split; reflexivity. Qed.

(** ** The historical best *)

(** C4. The historical best of an exercise on a day is the largest session
    value among the sessions of that exercise dated before the day.  It is
    undefined exactly when there is no such session, which is the case
    exactly when no earlier observation of the exercise has a defined
    estimate: undefined estimates are skipped, not counted as zero. *)
Theorem historical_best_spec (data : list Workout) (day : Z) (ex : string) :
  let rows := load_rows 0 data in
  let hist := loc (best_hist rows day) ex in
  let prior (s : SessionRow) :=
    In s (ses_of_rows rows) /\ s_exercise s = ex /\ (s_date s < day)%Z in
  (hist = None <-> forall s, ~ prior s) /\
  (hist = None <->
     forall w v, In w data -> w_exercise w = ex -> (w_date w < day)%Z ->
                 w_e1rm w <> Some v) /\
  (forall h, hist = Some h ->
     (exists s, prior s /\ (session_1rm s =? h)%float = true) /\
     (forall s, prior s -> (session_1rm s <=? h)%float = true)).
Proof.
  intros rows hist prior.
  pose proof (hist_best_rows data day ex) as S. fold rows hist in S.
  assert (Hprior : forall s, prior s ->
            is_nan (session_1rm s) = false /\
            exists r, In r rows /\ (date r < day)%Z /\ exercise r = ex /\
                      e1rm r = Some (session_1rm s)).
  { intros s (Hs & Hx & Hd). apply ses_row_In in Hs.
    destruct Hs as (Nm & (r & Hr & Hk & Hv) & _).
    split; [exact Nm|]. exists r.
    unfold group_key, session_key in Hk. injection Hk as Hd' Hx'.
    repeat split; auto; congruence. }
  destruct hist as [h|] eqn:Eh.
  - destruct S as (Nh & (r & Hr & Hd & Hx & Hv) & Hmax).
    destruct (ses_row_exists data r h Hr Hv) as (s & Hs & Hk).
    unfold group_key, session_key in Hk. injection Hk as Hsd Hsx.
    assert (Hp : prior s) by (repeat split; auto; congruence).
    split; [|split].
    + split; [discriminate|]. intros H. elim (H s Hp).
    + split; [discriminate|]. intros H.
      apply load_rows_In in Hr. destruct Hr as (w & Hw & Er).
      rewrite Er in Hd, Hx, Hv. simpl in Hd, Hx, Hv.
      elim (H w h Hw Hx Hd Hv).
    + intros h' [= <-]. split.
      * exists s. split; [exact Hp|].
        destruct (Hprior s Hp) as (Ns & r' & Hr' & Hd' & Hx' & Hv').
        pose proof (Hmax r' _ Hr' Hd' Hx' Hv') as Hle.
        apply ses_row_In in Hs. destruct Hs as (_ & _ & Hsmax).
        assert (Hge : Fle h (session_1rm s)).
        { apply (Hsmax r h Hr); [|exact Hv].
          unfold group_key, session_key. congruence. }
        fkeys.
      * intros s' Hp'.
        destruct (Hprior s' Hp') as (_ & r' & Hr' & Hd' & Hx' & Hv').
        apply (Hmax r' _ Hr' Hd' Hx' Hv').
  - split; [|split].
    + split; [|reflexivity]. intros _ s Hp.
      destruct (Hprior s Hp) as (_ & r & Hr & Hd & Hx & Hv).
      apply (S r _ Hr Hd Hx Hv).
    + split; [|reflexivity]. intros _ w v Hw Hx Hd Hv.
      destruct (In_load_rows data 0 w Hw) as (j & Hj).
      apply (S (load_row j w) v Hj Hd Hx Hv).
    + discriminate.
Qed.

Lemma historical_best_spec_witness :
  (exists s,
     (In s (ses_of_rows (load_rows 0 near_record)) /\
      s_exercise s = "Bench Press"%string /\ (s_date s < 2)%Z) /\
     (session_1rm s =? 150)%float = true) /\
  (forall s,
     In s (ses_of_rows (load_rows 0 near_record)) /\
     s_exercise s = "Bench Press"%string /\ (s_date s < 2)%Z ->
     (session_1rm s <=? 150)%float = true).
Proof.
  apply (proj2 (proj2 (historical_best_spec near_record 2 "Bench Press"))
           150%float eq_refl).
Defined.

(** An earlier set without estimate does not make a historical best of
    zero. *)
Example hist_skips_undefined :
  loc (best_hist (load_rows 0 [a_set 1 "Squat" 1 100 0;
                               a_set 2 "Squat" 1 100 5]) 2) "Squat" = None.
Proof. reflexivity. Qed.
Lemma StronglySorted_map {A B : Type} (f : A -> B) (R : B -> B -> Prop)
  (l : list A) :
  StronglySorted (fun a b => R (f a) (f b)) l -> StronglySorted R (map f l).
Proof.
  induction 1 as [|x l Hs IH Hall]; simpl; constructor.
  - exact IH.
  - rewrite Forall_forall in *. intros y Hy.
    apply in_map_iff in Hy. destruct Hy as (z & <- & Hz). apply Hall, Hz.
Qed.

Lemma Permutation_filter {A : Type} (p : A -> bool) (l l' : list A) :
  Permutation l l' -> Permutation (filter p l) (filter p l').
Proof.
  induction 1 as [|x l l' _ IH|x y l|l l' l'' _ IH1 _ IH2]; simpl.
  - constructor.
  - destruct (p x); [apply perm_skip|]; exact IH.
  - destruct (p x), (p y); try apply Permutation_refl. apply perm_swap.
  - eapply perm_trans; eassumption.
Qed.

(** C7. On a collection that is not empty the previous-session block shows
    the latest date before the reference date on which the exercise was
    logged, with all the sets of the exercise on that date in ascending set
    number, and it shows "none" exactly when the exercise has no earlier
    observation.  On the empty collection it raises [KeyError] where "none"
    is due. *)
Theorem prev_session_spec (data : list Workout) (ex : string) (ref : Z) :
  let earlier (w : Workout) := w_exercise w = ex /\ (w_date w < ref)%Z in
  match prev_block (db_load_sets data) ex ref with
  | Raise e => data = [] /\ e = KeyError "exercise"%string
  | Ok None => data <> [] /\ forall w, In w data -> ~ earlier w
  | Ok (Some p) =>
      (exists w, In w data /\ earlier w /\ w_date w = prev_day p) /\
      (forall w, In w data -> earlier w -> (w_date w <= prev_day p)%Z) /\
      Permutation (prev_df p)
        (map prev_columns
             (filter (on_day ex (prev_day p)) (load_rows 0 data))) /\
      StronglySorted
        (fun a b => key_leb (p_set_no a) (p_set_no b) = true) (prev_df p) /\
      prev_best p = col_max (map p_e1rm (prev_df p))
  end.
Proof.
  intros earlier.
  destruct data as [|w0 data0] eqn:Ed; [split; reflexivity|].
  assert (Hne : data <> []) by (rewrite Ed; discriminate).
  rewrite <- Ed in *.
  assert (Eload : db_load_sets data = Frame (load_rows 0 data))
    by (rewrite Ed; reflexivity).
  assert (Enull : null (load_rows 0 data) = false)
    by (rewrite Ed; reflexivity).
  rewrite Eload. unfold prev_block, getitem, bind, empty. rewrite Enull.
  set (rows := load_rows 0 data). simpl negb. cbv iota.
  assert (Hmask : forall r, prev_mask ex ref r = true <->
                    exercise r = ex /\ (date r < ref)%Z).
  { intros r. unfold prev_mask.
    rewrite andb_true_iff, String.eqb_eq, Z.ltb_lt. tauto. }
  destruct (existsb (prev_mask ex ref) rows) eqn:Eany; simpl andb; cbv iota.
  - destruct (col_zmax (map (fun r => Some (date r))
                            (filter (prev_mask ex ref) rows)))
      as [day|] eqn:Emax.
    + apply col_zmax_Some in Emax. destruct Emax as (Hin & Hmax). simpl.
      split; [|split; [|split; [|split]]].
      * apply in_map_iff in Hin. destruct Hin as (r & [= Hr] & Hf).
        apply filter_In in Hf. destruct Hf as (Hf & Hm).
        apply Hmask in Hm. apply load_rows_In in Hf.
        destruct Hf as (w & Hw & Er). exists w.
        rewrite Er in Hm, Hr. simpl in Hm, Hr. unfold earlier. tauto.
      * intros w Hw (Hx & Hd).
        destruct (In_load_rows data 0 w Hw) as (j & Hj).
        apply Hmax.
        change (Some (w_date w))
          with ((fun r => Some (date r)) (load_row j w)).
        apply in_map, filter_In. split; [exact Hj|].
        apply Hmask. simpl. auto.
      * unfold rows. rewrite assign_e1rm_loaded.
        apply Permutation_map, Permutation_sym, sort_values_set_no_perm.
      * apply StronglySorted_map.
        apply (sort_values_set_no_sorted
                 (assign_e1rm (filter (on_day ex day) rows))).
      * reflexivity.
    + rewrite col_zmax_None in Emax.
      apply existsb_exists in Eany. destruct Eany as (r & Hr & Hm).
      elim (Emax (date r)).
      change (Some (date r)) with ((fun r => Some (date r)) r).
      apply in_map, filter_In. auto.
  - split; [exact Hne|]. intros w Hw (Hx & Hd).
    destruct (In_load_rows data 0 w Hw) as (j & Hj).
    assert (Ht : existsb (prev_mask ex ref) rows = true).
    { apply existsb_exists. exists (load_row j w). split; [exact Hj|].
      apply Hmask. simpl. auto. }
    congruence.
Qed.

(** The instances of the specification: no history gives "none"; with two
    earlier dates only the latest is shown, sets in ascending number. *)
Example prev_block_no_history :
  prev_block (db_load_sets two_earlier_days) "Squat" 1 = Ok None.
Proof. reflexivity. Qed.

Example prev_block_latest_day :
  exists p,
    prev_block (db_load_sets two_earlier_days) "Squat" 5 = Ok (Some p) /\
    prev_day p = 3%Z /\
    map p_set_no (prev_df p) = [Some 1%Z; Some 2%Z].
Proof. eexists. repeat split. Qed.

(** Case analysis on the two tests of a previous-session block: is there an
    earlier observation, and which is the latest earlier date. *)
Ltac prev_block_cases ex d rows :=
  destruct (negb (empty (Frame rows)) && existsb (prev_mask ex d) rows);
  [|reflexivity];
  destruct (col_zmax (map (fun r => Some (date r))
                          (filter (prev_mask ex d) rows)));
  reflexivity.

(** C8. Whenever the guarded block runs, it computes what the block that
    always runs computes: the same outcome, and in case of a previous
    session the same date, the same table and the same session value. *)
Theorem prev_blocks_agree (sets : DataFrame) (ex : string) (d : Z) :
  truthy ex = true ->
  prev_block_guarded sets ex d
  = (shown <- prev_block sets ex d ;; Ok (Some shown)).
Proof.
  intros Ht. unfold prev_block_guarded, prev_block. rewrite Ht.
  destruct sets as [|rows]; [reflexivity|].
  unfold getitem, bind. prev_block_cases ex d rows.
Qed.

Lemma prev_blocks_agree_witness :
  prev_block_guarded (db_load_sets two_earlier_days) "Squat" 5
  = (shown <- prev_block (db_load_sets two_earlier_days) "Squat" 5 ;;
     Ok (Some shown)).
Proof.
  apply (prev_blocks_agree (db_load_sets two_earlier_days) "Squat" 5).
  reflexivity.
Defined.

(** ** Set numbering *)

Lemma group_set_numbers (data : list Workout) (i : nat) (d : Z)
  (ex : string) :
  map set_no
      (filter (fun r => (date r =? d)%Z && String.eqb (exercise r) ex)
              (load_rows i data))
  = map w_set_no
        (filter (fun w => (w_date w =? d)%Z && String.eqb (w_exercise w) ex)
                data).
Proof.
  revert i. induction data as [|w data IH]; intros i; simpl; [reflexivity|].
  destruct ((w_date w =? d)%Z && String.eqb (w_exercise w) ex); simpl;
    rewrite IH; reflexivity.
Qed.

Lemma next_set_no_eq (data : list Workout) (d : Z) (ex : string) :
  next_set_no (db_load_sets data) d ex
  = match col_zmax
            (map w_set_no
                 (filter (fun w => (w_date w =? d)%Z
                                   && String.eqb (w_exercise w) ex) data))
    with
    | Some cur_max => (cur_max + 1)%Z
    | None => 1%Z
    end.
Proof.
  destruct data as [|w data]; [reflexivity|].
  unfold next_set_no, db_load_sets, getitem, bind.
  rewrite group_set_numbers. reflexivity.
Qed.

(** C9. The next set number is 1 for an empty group and otherwise exceeds
    every set number of the group, being one more than the largest.  After
    the submitted record has joined the table, the records that were there
    are still there unchanged, the new record is in the group with the new
    number, and set numbers that were distinct within the group remain
    distinct. *)
Theorem next_set_no_spec (data : list Workout) (d : Z) (ex : string) :
  let sets := db_load_sets data in
  let n := next_set_no sets d ex in
  let in_group (w : Workout) :=
    (w_date w =? d)%Z && String.eqb (w_exercise w) ex in
  let group := filter in_group data in
  (group = [] -> n = 1%Z) /\
  (forall w k, In w group -> w_set_no w = Some k -> (k < n)%Z) /\
  (n = 1%Z \/ exists w, In w group /\ w_set_no w = Some (n - 1)%Z) /\
  (forall weight reps0 note0 data',
     Permutation data'
       (submitted_row sets d ex weight reps0 note0 :: data) ->
     (forall w, In w data -> In w data') /\
     In (submitted_row sets d ex weight reps0 note0)
        (filter in_group data') /\
     w_set_no (submitted_row sets d ex weight reps0 note0) = Some n /\
     (NoDup (map w_set_no group) ->
      NoDup (map w_set_no (filter in_group data')))).
Proof.
  intros sets n in_group group.
  assert (En : n = match col_zmax (map w_set_no group) with
                   | Some cur_max => (cur_max + 1)%Z
                   | None => 1%Z
                   end) by apply next_set_no_eq.
  assert (Hlt : forall w k, In w group -> w_set_no w = Some k -> (k < n)%Z).
  { intros w k Hw Hk. rewrite En.
    destruct (col_zmax (map w_set_no group)) as [m|] eqn:Em.
    - apply col_zmax_Some in Em. destruct Em as (_ & Hmax).
      assert (k <= m)%Z by (apply Hmax; rewrite <- Hk; apply in_map, Hw).
      lia.
    - rewrite col_zmax_None in Em. elim (Em k).
      rewrite <- Hk. apply in_map, Hw. }
  split; [|split; [|split]].
  - intros Hg. rewrite En, Hg. reflexivity.
  - exact Hlt.
  - rewrite En. destruct (col_zmax (map w_set_no group)) as [m|] eqn:Em.
    + right. apply col_zmax_Some in Em. destruct Em as (Hin & _).
      apply in_map_iff in Hin. destruct Hin as (w & Hw & Hin).
      exists w. split; [exact Hin|]. rewrite Hw. f_equal. lia.
    + left. reflexivity.
  - intros weight reps0 note0 data' Hperm.
    set (new := submitted_row sets d ex weight reps0 note0) in *.
    assert (Hnew : in_group new = true).
    { unfold in_group, new. simpl.
      rewrite Z.eqb_refl, String.eqb_refl. reflexivity. }
    assert (Hg : Permutation (filter in_group data') (new :: group)).
    { eapply perm_trans; [apply Permutation_filter, Hperm|].
      simpl. rewrite Hnew. apply Permutation_refl. }
    split; [|split; [|split]].
    + intros w Hw. eapply Permutation_in;
        [apply Permutation_sym, Hperm | right; exact Hw].
    + eapply Permutation_in; [apply Permutation_sym, Hg | left; reflexivity].
    + reflexivity.
    + intros Hnd. eapply Permutation_NoDup;
        [apply Permutation_map, Permutation_sym, Hg|].
      simpl. constructor; [|exact Hnd].
      rewrite in_map_iff. intros (w & Hw & Hin).
      change (w_set_no new) with (Some n) in Hw.
      specialize (Hlt w n Hin Hw). lia.
Qed.

Lemma next_set_no_spec_witness :
  let new := submitted_row (db_load_sets two_by_two) 2 "Squat" 100 5 EmptyString in
  (forall w, In w two_by_two -> In w (two_by_two ++ [new])) /\
  w_set_no new = Some 3%Z /\
  NoDup (map w_set_no
             (filter (fun w => (w_date w =? 2)%Z
                               && String.eqb (w_exercise w) "Squat")
                     (two_by_two ++ [new]))).
Proof.
  intros new.
  destruct (proj2 (proj2 (proj2 (next_set_no_spec two_by_two 2 "Squat")))
              100%float 5%Z EmptyString (two_by_two ++ [new]))
    as (Hkept & _ & Hno & Hnd).
  - apply Permutation_sym, Permutation_cons_append.
  - split; [exact Hkept|]. split; [exact Hno|].
    apply Hnd. repeat constructor; simpl; intuition discriminate.
Defined.

Example next_set_no_first : next_set_no (db_load_sets two_by_two) 3 "Squat" = 1%Z.
Proof. reflexivity. Qed.

(** ** The empty collection *)

(** C5. With no record in the table the frame has no column: both
    previous-session blocks and the day view raise [KeyError], while the
    aggregation reports "no data" and the set numbering falls back to 1. *)
Theorem empty_collection_raises (ex : string) (d : Z) :
  prev_block (db_load_sets []) ex d = Raise (KeyError "exercise") /\
  prev_block_guarded (db_load_sets []) ex d
  = (if truthy ex then Raise (KeyError "exercise") else Ok None) /\
  day_view (db_load_sets []) d = Raise (KeyError "date") /\
  ses (db_load_sets []) = Ok None /\
  next_set_no (db_load_sets []) d ex = 1%Z.
Proof.
  repeat split.
Qed.

(** On a collection with at least one record the previous-session blocks and
    the aggregation do not raise, also when the exercise or the date matches
    nothing. *)
Lemma nonempty_collection_never_raises (data : list Workout) (ex : string)
  (d : Z) :
  data <> [] ->
  raises (prev_block (db_load_sets data) ex d) = false /\
  raises (prev_block_guarded (db_load_sets data) ex d) = false /\
  raises (ses (db_load_sets data)) = false.
Proof.
  intros Hne. destruct data as [|w data]; [congruence|].
  unfold db_load_sets.
  set (rows := load_rows 0 (w :: data)).
  assert (Hp : raises (prev_block (Frame rows) ex d) = false).
  { unfold prev_block, getitem, bind. prev_block_cases ex d rows. }
  split; [exact Hp|]. split.
  - unfold prev_block_guarded, getitem, bind.
    destruct (truthy ex); [|reflexivity].
    prev_block_cases ex d rows.
  - reflexivity.
Qed.

(** ** The day view *)

Lemma for_each_Ok {A B : Type} (body : A -> result B) (l : list A)
  (ys : list B) :
  for_each body l = Ok ys <-> Forall2 (fun x y => body x = Ok y) l ys.
Proof.
  revert ys. induction l as [|x l IH]; intros ys; simpl.
  - split.
    + intros [= <-]. constructor.
    + intros H. inversion H. reflexivity.
  - split.
    + unfold bind. destruct (body x) as [y|e] eqn:Ex; [|discriminate].
      destruct (for_each body l) as [ys'|e] eqn:El; [|discriminate].
      intros [= <-]. constructor; [exact Ex | apply IH; reflexivity].
    + intros H. inversion H as [|x' y l' ys' Hxy Hrest]; subst.
      unfold bind. rewrite Hxy.
      apply IH in Hrest. rewrite Hrest. reflexivity.
Qed.

Lemma for_each_map {A B : Type} (body : A -> result B) (g : A -> B)
  (l : list A) :
  (forall x, In x l -> body x = Ok (g x)) ->
  for_each body l = Ok (map g l).
Proof.
  intros H. apply for_each_Ok. induction l as [|x l IH]; simpl.
  - constructor.
  - constructor; [apply H; left; reflexivity|].
    apply IH. intros y Hy. apply H. right. exact Hy.
Qed.

Lemma Forall2_map_eq {A B : Type} (body : A -> result B) (g : A -> B)
  (l : list A) (ys : list B) :
  Forall2 (fun x y => body x = Ok y) l ys ->
  (forall x y, In x l -> body x = Ok y -> y = g x) ->
  ys = map g l.
Proof.
  induction 1 as [|x y l ys Hxy _ IH]; intros Hg; simpl; [reflexivity|].
  f_equal.
  - apply Hg; [left; reflexivity | exact Hxy].
  - apply IH. intros x' y' Hx'. apply Hg. right. exact Hx'.
Qed.

Lemma for_each_raises {A B : Type} (body : A -> result B) (l : list A)
  (e : exn) :
  for_each body l = Raise e -> exists x, In x l /\ body x = Raise e.
Proof.
  induction l as [|x l IH]; simpl; [discriminate|].
  unfold bind. destruct (body x) as [y|e'] eqn:Ex.
  - destruct (for_each body l) as [ys|e''] eqn:El; [discriminate|].
    intros [= <-]. destruct (IH eq_refl) as (x' & Hx' & E).
    exists x'. split; [right; exact Hx' | exact E].
  - intros [= <-]. exists x. split; [left; reflexivity | exact Ex].
Qed.

Lemma set_line_Ok (best_idx : option nat) (pr : bool) (row : Row)
  (line : SetLine) :
  set_line best_idx pr row = Ok line <->
  printable row /\
  line = {| line_row := row;
            is_session_best := label_eqb (idx row) best_idx;
            show_pr := label_eqb (idx row) best_idx && pr |}.
Proof.
  unfold set_line, printable.
  destruct (set_no row) as [n|], (reps row) as [k|]; split;
    try discriminate; try (intros ((H1 & H2) & _); congruence).
  - intros [= <-]. split; [split; discriminate | reflexivity].
  - intros (_ & ->). reflexivity.
Qed.

Lemma set_line_raises (best_idx : option nat) (pr : bool) (row : Row)
  (e : exn) :
  set_line best_idx pr row = Raise e -> e = TypeError /\ ~ printable row.
Proof.
  unfold set_line, printable. intros H.
  destruct (set_no row) as [n|], (reps row) as [k|]; try discriminate;
    injection H as <-; (split; [reflexivity|]); intros (H1 & H2);
    congruence.
Qed.

(** The report of an exercise when the loop body runs through: the column
    is a float column and every set of the exercise can be printed. *)
Lemma exercise_report_Ok (hist : list (string * float)) (today : list Row)
  (object_column : bool) (ex : string) (rep : ExerciseReport) :
  let df := ex_df today ex in
  exercise_report hist today object_column ex = Ok rep <->
  object_column = false /\
  Forall printable df /\
  rep = {| rep_exercise := ex;
           rep_max_e1rm := max_e1rm df;
           rep_hist_best_val := loc hist ex;
           rep_is_pr_day := is_pr_day (loc hist ex) (max_e1rm df);
           rep_best_idx := idxmax df;
           rep_lines :=
             map (fun row =>
                    {| line_row := row;
                       is_session_best := label_eqb (idx row) (idxmax df);
                       show_pr := label_eqb (idx row) (idxmax df)
                                  && is_pr_day (loc hist ex)
                                               (max_e1rm df) |}) df |}.
Proof.
  intros df. unfold exercise_report, best_idx_of. fold df.
  destruct object_column; simpl.
  { split; [discriminate | intros (H & _); discriminate]. }
  unfold bind.
  destruct (for_each (set_line (idxmax df)
                               (is_pr_day (loc hist ex) (max_e1rm df))) df)
    as [lines|e] eqn:El.
  - apply for_each_Ok in El.
    assert (Hp : Forall printable df).
    { clear - El. induction El as [|x y l ys Hxy _ IH]; constructor; auto.
      apply set_line_Ok in Hxy. apply Hxy. }
    pose proof (Forall2_map_eq _
                  (fun row =>
                     {| line_row := row;
                        is_session_best := label_eqb (idx row) (idxmax df);
                        show_pr := label_eqb (idx row) (idxmax df)
                                   && is_pr_day (loc hist ex)
                                                (max_e1rm df) |})
                  df lines El) as Hl.
    rewrite Hl by (intros x y _ Hxy; apply set_line_Ok in Hxy; apply Hxy).
    split.
    + intros [= <-]. auto.
    + intros (_ & _ & ->). reflexivity.
  - split; [discriminate|]. intros (_ & Hp & _).
    apply for_each_raises in El. destruct El as (row & Hrow & E).
    apply set_line_raises in E. destruct E as (_ & E).
    rewrite Forall_forall in Hp. elim E. apply Hp, Hrow.
Qed.

Lemma exercise_report_raises (hist : list (string * float))
  (today : list Row) (object_column : bool) (ex : string) (e : exn) :
  exercise_report hist today object_column ex = Raise e ->
  e = TypeError /\
  (object_column = true \/
   exists row, In row (ex_df today ex) /\ ~ printable row).
Proof.
  unfold exercise_report, best_idx_of.
  destruct object_column; simpl.
  { intros [= <-]. auto. }
  unfold bind.
  destruct (for_each _ (ex_df today ex)) as [lines|e'] eqn:El;
    [discriminate|].
  intros [= <-]. apply for_each_raises in El.
  destruct El as (row & Hrow & E). apply set_line_raises in E.
  destruct E as (-> & E). split; [reflexivity|]. right. exists row. auto.
Qed.

Lemma today_rows_In (data : list Workout) (day : Z) (ex : string)
  (r : Row) :
  In r (ex_df (assign_e1rm (today_sets (load_rows 0 data) day)) ex) <->
  In r (load_rows 0 data) /\ date r = day /\ exercise r = ex.
Proof.
  unfold ex_df, today_sets, sort_values_set_no.
  rewrite sort_by_In, assign_e1rm_loaded, !filter_In.
  rewrite Z.eqb_eq, String.eqb_eq. tauto.
Qed.

Lemma today_clean (data : list Workout) (day : Z) (ex : string) :
  clean_rows (ex_df (assign_e1rm (today_sets (load_rows 0 data) day)) ex).
Proof. unfold ex_df, sort_values_set_no. auto with clean. Qed.

(** The frame of a day has a column of dtype [object] exactly when no set
    of the day has an estimate. *)
Lemma object_dtype_loaded (data : list Workout) (day : Z) :
  object_dtype (today_sets (load_rows 0 data) day) = true <->
  forall w, In w data -> w_date w = day ->
            est_1rm_epley (w_weight_kg w) (w_reps w) = None.
Proof.
  unfold object_dtype, today_sets. rewrite forallb_forall. split.
  - intros H w Hw Hd. destruct (In_load_rows data 0 w Hw) as (j & Hj).
    specialize (H (load_row j w)). simpl in H.
    destruct (est_1rm_epley (w_weight_kg w) (w_reps w)); [|reflexivity].
    discriminate H. apply filter_In. split; [exact Hj|].
    simpl. apply Z.eqb_eq, Hd.
  - intros H r Hr. apply filter_In in Hr. destruct Hr as (Hr & Hd).
    apply load_rows_In in Hr. destruct Hr as (w & Hw & E).
    rewrite E in Hd |- *. simpl in *. apply Z.eqb_eq in Hd.
    rewrite (H w Hw Hd). reflexivity.
Qed.

(** What the day view returns when it returns reports. *)
Lemma day_view_Ok (data : list Workout) (day : Z)
  (reports : list ExerciseReport) :
  let rows := load_rows 0 data in
  let today := assign_e1rm (today_sets rows day) in
  day_view (db_load_sets data) day = Ok (Some reports) ->
  today_sets rows day <> [] /\
  object_dtype (today_sets rows day) = false /\
  Forall2
    (fun ex rep =>
       exercise_report (best_hist rows day) today false ex = Ok rep)
    (sorted_names (unique String.eqb (map exercise today))) reports.
Proof.
  intros rows today. destruct data as [|w0 data0]; [discriminate|].
  change (db_load_sets (w0 :: data0)) with (Frame rows).
  unfold day_view, getitem, bind.
  destruct (null (today_sets rows day)) eqn:En; [discriminate|].
  fold today.
  destruct (for_each (exercise_report (best_hist rows day) today
                        (object_dtype (today_sets rows day)))
              (sorted_names (unique String.eqb (map exercise today))))
    as [reps|e] eqn:El; [|discriminate].
  intros [= <-]. apply for_each_Ok in El.
  assert (Hne : today_sets rows day <> [])
    by (intros E; rewrite E in En; discriminate).
  split; [exact Hne|].
  destruct (object_dtype (today_sets rows day)) eqn:Eo.
  - exfalso. inversion El as [Hn Hr|ex rep names reps' Hex _ Hn Hr].
    + destruct (today_sets rows day) as [|r0 rest] eqn:Et;
        [elim Hne; reflexivity|].
      assert (Hin : In (exercise r0)
                       (sorted_names
                          (unique String.eqb (map exercise today)))).
      { apply sorted_names_In. unfold today. simpl. left. reflexivity. }
      rewrite <- Hn in Hin. destruct Hin.
    + apply exercise_report_Ok in Hex. destruct Hex as (Hex & _).
      discriminate.
  - split; [reflexivity | exact El].
Qed.

Lemma Forall2_In_r {A B : Type} (R : A -> B -> Prop) (l : list A)
  (ys : list B) (y : B) :
  Forall2 R l ys -> In y ys -> exists x, In x l /\ R x y.
Proof.
  induction 1 as [|x y' l ys Hxy _ IH]; intros Hin; [destruct Hin|].
  destruct Hin as [<-|Hin].
  - exists x. split; [left; reflexivity | exact Hxy].
  - destruct (IH Hin) as (x' & Hx' & HR). exists x'.
    split; [right; exact Hx' | exact HR].
Qed.

Lemma Forall2_In_l {A B : Type} (R : A -> B -> Prop) (l : list A)
  (ys : list B) (x : A) :
  Forall2 R l ys -> In x l -> exists y, In y ys /\ R x y.
Proof.
  induction 1 as [|x' y l ys Hxy _ IH]; intros Hin; [destruct Hin|].
  destruct Hin as [<-|Hin].
  - exists y. split; [left; reflexivity | exact Hxy].
  - destruct (IH Hin) as (y' & Hy' & HR). exists y'.
    split; [right; exact Hy' | exact HR].
Qed.

(** A report that the day view returns is the report of an exercise logged
    on the day, computed from the sets of that exercise on that day, all of
    which can be printed. *)
Lemma day_view_report (data : list Workout) (day : Z)
  (reports : list ExerciseReport) (rep : ExerciseReport) :
  let rows := load_rows 0 data in
  let today := assign_e1rm (today_sets rows day) in
  let df := ex_df today (rep_exercise rep) in
  day_view (db_load_sets data) day = Ok (Some reports) ->
  In rep reports ->
  In (rep_exercise rep) (map exercise today) /\
  Forall printable df /\
  rep_max_e1rm rep = max_e1rm df /\
  rep_hist_best_val rep = loc (best_hist rows day) (rep_exercise rep) /\
  rep_is_pr_day rep
  = is_pr_day (loc (best_hist rows day) (rep_exercise rep)) (max_e1rm df) /\
  rep_best_idx rep = idxmax df /\
  rep_lines rep
  = map (fun row =>
           {| line_row := row;
              is_session_best := label_eqb (idx row) (idxmax df);
              show_pr := label_eqb (idx row) (idxmax df)
                         && rep_is_pr_day rep |}) df.
Proof.
  intros rows today df Hview Hin.
  apply day_view_Ok in Hview. destruct Hview as (_ & _ & Hall).
  destruct (Forall2_In_r _ _ _ _ Hall Hin) as (ex & Hex & Hrep).
  apply exercise_report_Ok in Hrep. destruct Hrep as (_ & Hp & E).
  assert (Ex : rep_exercise rep = ex) by (rewrite E; reflexivity).
  unfold df. rewrite Ex. fold rows today.
  split; [apply (proj1 (sorted_names_In _ _)) in Hex; exact Hex|].
  split; [exact Hp|]. rewrite E. simpl. repeat split.
Qed.



(** The instance of the specification: of two tied sets the first one is
    marked. *)
Example tie_break_selects_set_1 :
  exists reports,
    day_view (db_load_sets tied_sets) 10 = Ok (Some reports) /\
    map (fun rep => map (fun l => (set_no (line_row l), is_session_best l))
                        (rep_lines rep)) reports
    = [[(Some 1%Z, true); (Some 2%Z, false)]].
Proof. eexists. split; reflexivity. Qed.

(** Ties are ties of the computed estimates: 40 kg for 10 and 50 kg for 2
    give 53.333333333333329 and 53.333333333333336, and the second set is
    marked. *)
Example rounding_breaks_a_tie :
  exists reports,
    day_view (db_load_sets [a_set 1 "Squat" 1 40 10; a_set 1 "Squat" 2 50 2])
             1
    = Ok (Some reports) /\
    map (fun rep => map (fun l => (set_no (line_row l), is_session_best l))
                        (rep_lines rep)) reports
    = [[(Some 1%Z, false); (Some 2%Z, true)]].
Proof. eexists. split; reflexivity. Qed.

(** ** The record flag *)

Lemma eqb_nan (x y : float) :
  (x =? y)%float = true -> is_nan x = false /\ is_nan y = false.
Proof.
  rewrite eqb_spec. unfold SFeqb. intros H.
  destruct (is_nan x) eqn:Hx.
  { apply is_nan_spec in Hx. rewrite Hx in H. discriminate. }
  destruct (is_nan y) eqn:Hy; [|auto].
  apply is_nan_spec in Hy. rewrite Hy in H.
  destruct (Prim2SF x); discriminate.
Qed.

(** Two floats with the same key are the same float, or both are a zero. *)
Lemma fkey_eq_cases (x y : float) :
  is_nan x = false -> is_nan y = false -> fkey x = fkey y ->
  x = y \/
  exists s1 s2, Prim2SF x = S754_zero s1 /\ Prim2SF y = S754_zero s2.
Proof.
  intros Nx Ny. unfold fkey.
  pose proof (Prim2SF_valid x) as Vx. pose proof (Prim2SF_valid y) as Vy.
  assert (Hx : Prim2SF x <> S754_nan)
    by (intros E; apply is_nan_spec in E; congruence).
  assert (Hy : Prim2SF y <> S754_nan)
    by (intros E; apply is_nan_spec in E; congruence).
  destruct (Prim2SF x) as [sx|sx| |sx mx ex] eqn:Ex; [| |congruence|];
    destruct (Prim2SF y) as [sy|sy| |sy my ey] eqn:Ey; try congruence;
    try (apply valid_finite_bounds in Vx);
    try (apply valid_finite_bounds in Vy);
    cbn [SFkey];
    change (2 ^ 65)%Z with 36893488147419103232%Z;
    change (2 ^ 53)%Z with 9007199254740992%Z in *;
    intros Hk.
  - right. exists sx, sy. auto.
  - destruct sy; lia.
  - destruct sy; lia.
  - destruct sx; lia.
  - left. apply Prim2SF_inj. rewrite Ex, Ey.
    destruct sx, sy; try reflexivity; lia.
  - destruct sx, sy; lia.
  - destruct sx; lia.
  - destruct sx, sy; lia.
  - left. apply Prim2SF_inj. rewrite Ex, Ey.
    assert (sx = sy) by (destruct sx, sy; try reflexivity; lia).
    subst sy.
    assert (ex = ey) by (destruct sx; lia). subst ey.
    assert (mx = my) by (destruct sx; lia). subst my. reflexivity.
Qed.

(** Adding the tolerance to equal floats gives the same float, also for the
    two zeros. *)
Lemma add_EPS_compat (x y : float) :
  (x =? y)%float = true -> (x + EPS)%float = (y + EPS)%float.
Proof.
  intros H. destruct (eqb_nan x y H) as (Nx & Ny).
  rewrite (eqb_key x y Nx Ny) in H. apply Z.eqb_eq in H.
  destruct (fkey_eq_cases x y Nx Ny H) as [->|(s1 & s2 & Ex & Ey)];
    [reflexivity|].
  apply Prim2SF_inj. rewrite !add_spec, Ex, Ey.
  assert (E : Prim2SF EPS = S754_finite false 7205759403792794 (-56))
    by reflexivity.
  rewrite E. reflexivity.
Qed.

Lemma session_max_rows (data : list Workout) (day : Z) (ex : string) :
  match max_e1rm
          (ex_df (assign_e1rm (today_sets (load_rows 0 data) day)) ex) with
  | None =>
      forall r v, In r (load_rows 0 data) -> date r = day ->
                  exercise r = ex -> e1rm r <> Some v
  | Some m =>
      is_nan m = false /\
      (exists r, In r (load_rows 0 data) /\ date r = day /\
                 exercise r = ex /\ e1rm r = Some m) /\
      (forall r v, In r (load_rows 0 data) -> date r = day ->
                   exercise r = ex -> e1rm r = Some v -> Fle v m)
  end.
Proof.
  unfold max_e1rm.
  set (df := ex_df (assign_e1rm (today_sets (load_rows 0 data) day)) ex).
  assert (Hc : clean_col (map e1rm df))
    by (apply clean_rows_col, today_clean).
  destruct (col_max (map e1rm df)) as [m|] eqn:Em.
  - apply (col_max_Some _ _ Hc) in Em. destruct Em as (Nm & Hin & Hmax).
    split; [exact Nm|]. split.
    + apply in_map_iff in Hin. destruct Hin as (r & Hr & Hin).
      apply today_rows_In in Hin. exists r. tauto.
    + intros r v Hr Hd Hx Hv. apply Hmax. rewrite <- Hv.
      apply in_map, today_rows_In. auto.
  - rewrite (col_max_None _ Hc) in Em. intros r v Hr Hd Hx Hv.
    apply (Em v). rewrite <- Hv. apply in_map, today_rows_In. auto.
Qed.

Lemma best_estimate_unique (data : list Workout) (P : Workout -> Prop)
  (b b' : float) :
  best_estimate data P b -> best_estimate data P b' ->
  (b =? b')%float = true.
Proof.
  intros ((w & Hw & HP & Hb) & Hmax) ((w' & Hw' & HP' & Hb') & Hmax').
  pose proof (Hmax w' b' Hw' HP' Hb') as H1.
  pose proof (Hmax' w b Hw HP Hb) as H2. fkeys.
Qed.

Lemma rows_best_estimate (data : list Workout) (P : Workout -> Prop)
  (Q : Row -> Prop) (b : float) :
  (forall i w, Q (load_row i w) <-> P w) ->
  (exists r, In r (load_rows 0 data) /\ Q r /\ e1rm r = Some b) ->
  (forall r v, In r (load_rows 0 data) -> Q r -> e1rm r = Some v ->
               Fle v b) ->
  best_estimate data P b.
Proof.
  intros HPQ (r & Hr & HQ & Hb) Hmax. split.
  - apply load_rows_In in Hr. destruct Hr as (w & Hw & E).
    exists w. rewrite E in HQ, Hb. apply HPQ in HQ. auto.
  - intros w v Hw HP Hv.
    destruct (In_load_rows data 0 w Hw) as (j & Hj).
    apply (Hmax (load_row j w) v Hj); [apply HPQ, HP | exact Hv].
Qed.

(** The record flag in terms of the records: no earlier record of the
    exercise has an estimate, or the best estimate of the day exceeds the
    best earlier estimate plus the tolerance. *)
Lemma record_flag_records (data : list Workout) (day : Z) (ex : string) :
  let earlier (w : Workout) := w_exercise w = ex /\ (w_date w < day)%Z in
  let on_the_day (w : Workout) := w_exercise w = ex /\ w_date w = day in
  record_flag (load_rows 0 data) day ex = true <->
  (forall w v, In w data -> earlier w -> w_e1rm w <> Some v) \/
  (exists h m,
     best_estimate data earlier h /\ best_estimate data on_the_day m /\
     (h + EPS <? m)%float = true).
Proof.
  intros earlier on_the_day. unfold record_flag, is_pr_day.
  pose proof (hist_best_rows data day ex) as Hh.
  pose proof (session_max_rows data day ex) as Hm.
  assert (Hearlier : forall i w,
            (exercise (load_row i w) = ex /\ (date (load_row i w) < day)%Z)
            <-> earlier w) by (intros i w; reflexivity).
  assert (Htoday : forall i w,
            (exercise (load_row i w) = ex /\ date (load_row i w) = day)
            <-> on_the_day w) by (intros i w; reflexivity).
  destruct (loc (best_hist (load_rows 0 data) day) ex) as [h|].
  - destruct Hh as (Nh & (rh & Hrh & Hdh & Hxh & Hvh) & Hhmax).
    assert (Bh : best_estimate data earlier h).
    { apply (rows_best_estimate data earlier
               (fun r => exercise r = ex /\ (date r < day)%Z) h Hearlier).
      - exists rh. auto.
      - intros r v Hr (Hx & Hd) Hv. eapply Hhmax; eassumption. }
    assert (Hhas : ~ forall w v, In w data -> earlier w ->
                                 w_e1rm w <> Some v).
    { intros H. destruct Bh as ((w & Hw & HP & Hb) & _).
      elim (H w h Hw HP Hb). }
    destruct (max_e1rm
                (ex_df (assign_e1rm (today_sets (load_rows 0 data) day)) ex))
      as [m|].
    + destruct Hm as (Nm & (rm & Hrm & Hdm & Hxm & Hvm) & Hmmax).
      assert (Bm : best_estimate data on_the_day m).
      { apply (rows_best_estimate data on_the_day
                 (fun r => exercise r = ex /\ date r = day) m Htoday).
        - exists rm. auto.
        - intros r v Hr (Hx & Hd) Hv. eapply Hmmax; eassumption. }
      split.
      * intros H. right. exists h, m. auto.
      * intros [H|(h' & m' & Bh' & Bm' & Hlt)]; [contradiction|].
        pose proof (best_estimate_unique _ _ _ _ Bh' Bh) as Eh.
        pose proof (best_estimate_unique _ _ _ _ Bm' Bm) as Em.
        rewrite <- (add_EPS_compat h' h Eh).
        destruct (ltb_nan _ _ Hlt) as (Ns & _).
        destruct (eqb_nan _ _ Em) as (Nm' & _). fkeys.
    + split; [discriminate|].
      intros [H|(h' & m' & _ & ((w & Hw & (Hx & Hd) & Hb) & _) & _)];
        [contradiction|].
      destruct (In_load_rows data 0 w Hw) as (j & Hj).
      elim (Hm (load_row j w) m' Hj Hd Hx Hb).
  - split; [|reflexivity]. intros _. left.
    intros w v Hw (Hx & Hd) Hv.
    destruct (In_load_rows data 0 w Hw) as (j & Hj).
    apply (Hh (load_row j w) v Hj Hd Hx Hv).
Qed.



(** The instances of the specification: 150.05 after 150.0 is no record,
    150.15 is one, and a first session is one. *)
Example record_flag_within_tolerance :
  record_flag (load_rows 0 near_record) 2 "Bench Press" = false.
Proof. reflexivity. Qed.

Example record_flag_beyond_tolerance :
  record_flag (load_rows 0 clear_record) 2 "Bench Press" = true.
Proof. reflexivity. Qed.

Example record_flag_first_session :
  record_flag (load_rows 0 near_record) 1 "Bench Press" = true.
Proof. reflexivity. Qed.

(** The sum and the comparison are those of binary64: after 10 kg for 6
    (an estimate of 12.0) the set 11 kg for 3 (12.100000000000001) is a
    record, although 11 * 1.1 - 10 * 1.2 is 0.1 in exact arithmetic. *)
Example record_flag_rounding :
  record_flag (load_rows 0 [a_set 1 "Squat" 1 10 6; a_set 2 "Squat" 1 11 3])
              2 "Squat" = true.
Proof. reflexivity. Qed.

(** ** Strings *)

Lemma pystr_eqb_eq (a b : pystr) : pystr_eqb a b = true <-> a = b.
Proof.
  unfold pystr_eqb. destruct (list_eq_dec N.eq_dec a b); split; congruence.
Qed.

Lemma pystr_eqb_sym (a b : pystr) : pystr_eqb a b = pystr_eqb b a.
Proof.
  unfold pystr_eqb.
  destruct (list_eq_dec N.eq_dec a b), (list_eq_dec N.eq_dec b a);
    congruence.
Qed.

Lemma mem_In (x : pystr) (seen : list pystr) :
  mem x seen = true <-> In x seen.
Proof.
  unfold mem. rewrite existsb_exists. split.
  - intros (y & Hy & E). apply pystr_eqb_eq in E. congruence.
  - intros H. exists x. split; [exact H | apply pystr_eqb_eq; reflexivity].
Qed.

Lemma lstrip_fixed (drop : N -> bool) (s : pystr) :
  lstrip drop (lstrip drop s) = lstrip drop s.
Proof.
  induction s as [|c s IH]; simpl; [reflexivity|].
  destruct (drop c) eqn:E; [exact IH|]. simpl. rewrite E. reflexivity.
Qed.

Lemma rstrip_fixed (drop : N -> bool) (s : pystr) :
  rstrip drop (rstrip drop s) = rstrip drop s.
Proof.
  induction s as [|c s IH]; simpl; [reflexivity|].
  destruct (rstrip drop s) as [|k kept] eqn:E.
  - destruct (drop c) eqn:Ec; simpl; [reflexivity|]. rewrite Ec. reflexivity.
  - simpl in *. rewrite IH. reflexivity.
Qed.

(** Stripping on the right leaves the first character in place. *)
Lemma rstrip_head (drop : N -> bool) (s : pystr) :
  match s with
  | [] => True
  | c :: _ =>
      drop c = false ->
      exists rest, rstrip drop s = c :: rest
  end.
Proof.
  destruct s as [|c s]; [exact I|]. intros Hc. simpl.
  destruct (rstrip drop s) as [|k kept].
  - rewrite Hc. exists []. reflexivity.
  - exists (k :: kept). reflexivity.
Qed.

Lemma lstrip_rstrip_fixed (drop : N -> bool) (s : pystr) :
  lstrip drop (rstrip drop (lstrip drop s)) = rstrip drop (lstrip drop s).
Proof.
  induction s as [|c s IH]; simpl; [reflexivity|].
  destruct (drop c) eqn:Ec; [exact IH|].
  destruct (rstrip_head drop (c :: s) Ec) as (rest & E).
  rewrite E. simpl. rewrite Ec. reflexivity.
Qed.

Lemma strip_fixed (s : pystr) : strip (strip s) = strip s.
Proof.
  unfold strip. rewrite lstrip_rstrip_fixed. apply rstrip_fixed.
Qed.

(** ** [_dedup_keep_order] *)

Lemma unique_filter_swap {A : Type} (eqb : A -> A -> bool)
  (eqb_spec : forall a b, eqb a b = true <-> a = b)
  (keep : A -> bool) (l : list A) :
  unique eqb (filter keep l) = filter keep (unique eqb l).
Proof.
  induction l as [|x l IH]; simpl; [reflexivity|].
  assert (Hdrop : keep x = false ->
            forall u, filter keep (filter (fun y => negb (eqb x y)) u)
                      = filter keep u).
  { intros Hx u. induction u as [|y u IHu]; simpl; [reflexivity|].
    destruct (eqb x y) eqn:E; simpl.
    - apply eqb_spec in E. subst y. rewrite Hx. exact IHu.
    - destruct (keep y); [f_equal|]; exact IHu. }
  destruct (keep x) eqn:Hx; simpl.
  - f_equal. rewrite IH.
    clear. induction (unique eqb l) as [|y u IHu]; simpl; [reflexivity|].
    destruct (keep y) eqn:Ky; simpl; destruct (eqb x y) eqn:E; simpl;
      rewrite ?Ky; try rewrite IHu; reflexivity.
  - rewrite IH. symmetry. apply Hdrop. reflexivity.
Qed.

Lemma filter_twice {A : Type} (p q : A -> bool) (l : list A) :
  filter p (filter q l) = filter (fun x => q x && p x) l.
Proof.
  induction l as [|x l IH]; simpl; [reflexivity|].
  destruct (q x); simpl; [destruct (p x); [f_equal|]|]; exact IH.
Qed.

(** The loop keeps, in order, the first occurrence of every stripped and
    non-blank name it has not seen. *)
Lemma dedup_loop_spec (seq : list (option pystr)) (seen out : list pystr) :
  dedup_loop seq seen out
  = out ++ unique pystr_eqb
             (filter (fun x => negb (mem x seen))
                     (filter (fun x => negb (null x))
                             (map (fun x => strip (or_empty x)) seq))).
Proof.
  revert seen out. induction seq as [|x seq IH]; intros seen out; simpl.
  - rewrite app_nil_r. reflexivity.
  - set (y := strip (or_empty x)).
    destruct (null y) eqn:En; simpl; [apply IH|].
    destruct (mem y seen) eqn:Em; simpl; [apply IH|].
    rewrite IH, <- app_assoc. simpl. do 2 f_equal.
    rewrite <- (unique_filter_swap pystr_eqb pystr_eqb_eq).
    apply f_equal. rewrite !filter_twice.
    apply filter_ext. intros z. rewrite (pystr_eqb_sym z y).
    destruct (null z), (mem z seen), (pystr_eqb y z); reflexivity.
Qed.

Lemma filter_true_all {A : Type} (l : list A) :
  filter (fun _ => true) l = l.
Proof. induction l as [|x l IH]; simpl; congruence. Qed.

Lemma dedup_unique (seq : list (option pystr)) :
  _dedup_keep_order seq
  = unique pystr_eqb
      (filter (fun x => negb (null x))
              (map (fun x => strip (or_empty x)) seq)).
Proof.
  unfold _dedup_keep_order. rewrite dedup_loop_spec. simpl.
  apply f_equal. apply filter_true_all.
Qed.

Lemma null_false {A : Type} (l : list A) : null l = false <-> l <> [].
Proof. destruct l; simpl; split; congruence. Qed.

Lemma dedup_In (seq : list (option pystr)) (y : pystr) :
  In y (_dedup_keep_order seq) <->
  y <> [] /\ exists x, In x seq /\ strip (or_empty x) = y.
Proof.
  rewrite dedup_unique, (unique_In _ pystr_eqb_eq), filter_In, in_map_iff.
  rewrite negb_true_iff, null_false. split.
  - intros ((x & Hx & Hin) & Hne). split; [exact Hne|]. exists x. auto.
  - intros (Hne & x & Hin & Hx). split; [|exact Hne]. exists x. auto.
Qed.

Lemma dedup_NoDup (seq : list (option pystr)) :
  NoDup (_dedup_keep_order seq).
Proof. rewrite dedup_unique. apply (unique_NoDup _ pystr_eqb_eq). Qed.

(** X1. The result of [_dedup_keep_order] has no repetition; it holds
    exactly the non-empty stripped forms of the entries of the sequence, and
    each of its names is already stripped. *)
Theorem dedup_keep_order_spec (seq : list (option pystr)) :
  NoDup (_dedup_keep_order seq) /\
  (forall y, In y (_dedup_keep_order seq) <->
             y <> [] /\ exists x, In x seq /\ strip (or_empty x) = y) /\
  (forall y, In y (_dedup_keep_order seq) -> strip y = y).
Proof.
  split; [apply dedup_NoDup|]. split; [apply dedup_In|].
  intros y Hy. apply dedup_In in Hy. destruct Hy as (_ & x & _ & <-).
  apply strip_fixed.
Qed.

Lemma unique_of_NoDup {A : Type} (eqb : A -> A -> bool)
  (eqb_spec : forall a b, eqb a b = true <-> a = b) (l : list A) :
  NoDup l -> unique eqb l = l.
Proof.
  induction 1 as [|x l Hnot Hnd IH]; simpl; [reflexivity|].
  rewrite IH. f_equal.
  rewrite <- (filter_true_all l) at 2. apply filter_ext_in.
  intros y Hy. destruct (eqb x y) eqn:E; [|reflexivity].
  apply eqb_spec in E. subst y. contradiction.
Qed.

Lemma filter_all_true {A : Type} (keep : A -> bool) (l : list A) :
  (forall x, In x l -> keep x = true) -> filter keep l = l.
Proof.
  intros H. rewrite <- (filter_true_all l) at 2.
  apply filter_ext_in. exact H.
Qed.

Lemma dedup_of_clean (out : list pystr) :
  NoDup out -> (forall y, In y out -> y <> [] /\ strip y = y) ->
  _dedup_keep_order (map Some out) = out.
Proof.
  intros Hnd Hclean. rewrite dedup_unique, map_map. simpl.
  assert (E1 : map (fun x => strip x) out = out).
  { rewrite <- (map_id out) at 2. apply map_ext_in.
    intros y Hy. apply Hclean, Hy. }
  rewrite E1, filter_all_true.
  - apply (unique_of_NoDup _ pystr_eqb_eq), Hnd.
  - intros y Hy. apply negb_true_iff, null_false, Hclean, Hy.
Qed.

Lemma dedup_again (seq : list (option pystr)) :
  _dedup_keep_order (map Some (_dedup_keep_order seq))
  = _dedup_keep_order seq.
Proof.
  apply dedup_of_clean; [apply dedup_NoDup|].
  intros y Hy. apply dedup_In in Hy. destruct Hy as (Hne & x & _ & <-).
  split; [exact Hne | apply strip_fixed].
Qed.

Lemma dedup_keep_order_spec_witness : strip (lit "Dips") = lit "Dips".
Proof.
  apply (proj2 (proj2 (dedup_keep_order_spec
                         (names [" Dips "; "Dips"]%string)))).
  vm_compute. left. reflexivity.
Defined.

(** X2. Cleaning a cleaned list changes nothing, and so does cleaning any
    list of distinct, stripped, non-empty names. *)
Theorem dedup_keep_order_idempotent (seq : list (option pystr))
  (out : list pystr) :
  _dedup_keep_order (map Some (_dedup_keep_order seq))
  = _dedup_keep_order seq /\
  (NoDup out -> (forall y, In y out -> y <> [] /\ strip y = y) ->
   _dedup_keep_order (map Some out) = out).
Proof.
  split.
  - apply dedup_of_clean; [apply dedup_NoDup|].
    intros y Hy. apply dedup_In in Hy. destruct Hy as (Hne & x & _ & <-).
    split; [exact Hne | apply strip_fixed].
  - apply dedup_of_clean.
Qed.

Lemma dedup_keep_order_idempotent_witness :
  _dedup_keep_order (map Some [lit "Squat"; lit "Dips"])
  = [lit "Squat"; lit "Dips"].
Proof.
  apply (proj2 (dedup_keep_order_idempotent [] [lit "Squat"; lit "Dips"])).
  - repeat constructor; simpl; intuition discriminate.
  - intros y [<-|[<-|[]]]; split; (discriminate || reflexivity).
Defined.

Lemma unique_app {A : Type} (eqb : A -> A -> bool)
  (eqb_spec : forall a b, eqb a b = true <-> a = b) (l1 l2 : list A) :
  unique eqb (l1 ++ l2)
  = unique eqb l1
    ++ filter (fun y => negb (existsb (eqb y) (unique eqb l1)))
              (unique eqb l2).
Proof.
  assert (eqb_sym : forall a b, eqb a b = eqb b a).
  { intros a b. destruct (eqb a b) eqn:E1, (eqb b a) eqn:E2; auto.
    - apply eqb_spec in E1. subst. rewrite (proj2 (eqb_spec b b) eq_refl) in E2.
      discriminate.
    - apply eqb_spec in E2. subst. rewrite (proj2 (eqb_spec a a) eq_refl) in E1.
      discriminate. }
  induction l1 as [|x l1 IH]; simpl.
  - symmetry. apply filter_true_all.
  - f_equal. rewrite IH, filter_app. f_equal.
    rewrite filter_twice. apply filter_ext. intros z.
    rewrite (eqb_sym z x).
    destruct (eqb x z) eqn:E; simpl; [apply andb_false_r|].
    rewrite andb_true_r. f_equal. clear IH.
    generalize (unique eqb l1) as us.
    induction us as [|u us IHu]; simpl; [reflexivity|].
    destruct (eqb x u) eqn:Eu; simpl.
    + apply eqb_spec in Eu. subst u. rewrite (eqb_sym z x), E. exact IHu.
    + rewrite IHu. reflexivity.
Qed.

Lemma dedup_app (l1 l2 : list (option pystr)) :
  _dedup_keep_order (l1 ++ l2)
  = _dedup_keep_order l1
    ++ filter (fun y => negb (mem y (_dedup_keep_order l1)))
              (_dedup_keep_order l2).
Proof.
  rewrite !dedup_unique, map_app, filter_app.
  apply (unique_app _ pystr_eqb_eq).
Qed.

(** X3. Cleaning a concatenation: the cleaned first part, followed by the
    names of the cleaned second part that the first part does not have.  In
    particular appending a name that is already there changes nothing. *)
Theorem dedup_keep_order_app (l1 l2 : list (option pystr))
  (name : option pystr) :
  _dedup_keep_order (l1 ++ l2)
  = _dedup_keep_order l1
    ++ filter (fun y => negb (mem y (_dedup_keep_order l1)))
              (_dedup_keep_order l2) /\
  (In (strip (or_empty name)) (_dedup_keep_order l1) ->
   _dedup_keep_order (l1 ++ [name]) = _dedup_keep_order l1).
Proof.
  split; [apply dedup_app|].
  intros Hin. rewrite dedup_app, (dedup_unique [name]). simpl.
  destruct (null (strip (or_empty name))); simpl; [apply app_nil_r|].
  apply mem_In in Hin. rewrite Hin. apply app_nil_r.
Qed.

Lemma dedup_keep_order_app_witness :
  _dedup_keep_order (names ["Squat"; "Dips"]%string ++ [Some (lit " Dips")])
  = _dedup_keep_order (names ["Squat"; "Dips"]%string).
Proof.
  apply (proj2 (dedup_keep_order_app (names ["Squat"; "Dips"]%string) []
                  (Some (lit " Dips")))).
  simpl. right. left. reflexivity.
Defined.

(** ** The master as a dictionary *)

Lemma pystr_eqb_refl (k : pystr) : pystr_eqb k k = true.
Proof. apply pystr_eqb_eq. reflexivity. Qed.

Lemma pystr_eqb_neq (a b : pystr) : pystr_eqb a b = false <-> a <> b.
Proof.
  split.
  - intros H E. apply pystr_eqb_eq in E. congruence.
  - intros H. destruct (pystr_eqb a b) eqn:E; [|reflexivity].
    apply pystr_eqb_eq in E. contradiction.
Qed.

Lemma dict_get_set_same (d : Master) (k : pystr) (v : list (option pystr)) :
  dict_get (dict_set d k v) k = Some v.
Proof.
  induction d as [|[k' v'] d IH]; simpl.
  - rewrite pystr_eqb_refl. reflexivity.
  - destruct (pystr_eqb k' k) eqn:E; simpl; rewrite E; [reflexivity|exact IH].
Qed.

Lemma dict_get_set_other (d : Master) (k k' : pystr)
  (v : list (option pystr)) :
  k' <> k -> dict_get (dict_set d k v) k' = dict_get d k'.
Proof.
  intros Hne. induction d as [|[k0 v0] d IH]; simpl.
  - destruct (pystr_eqb k k') eqn:E; [|reflexivity].
    apply pystr_eqb_eq in E. congruence.
  - destruct (pystr_eqb k0 k) eqn:E; simpl.
    + apply pystr_eqb_eq in E. subst k0.
      destruct (pystr_eqb k k') eqn:E'; [|reflexivity].
      apply pystr_eqb_eq in E'. congruence.
    + rewrite IH. reflexivity.
Qed.

Lemma dict_get_pop_same (d : Master) (k : pystr) :
  dict_get (dict_pop d k) k = None.
Proof.
  induction d as [|[k' v'] d IH]; simpl; [reflexivity|].
  destruct (pystr_eqb k' k) eqn:E; simpl; [exact IH|].
  rewrite E. exact IH.
Qed.

Lemma dict_get_pop_other (d : Master) (k k' : pystr) :
  k' <> k -> dict_get (dict_pop d k) k' = dict_get d k'.
Proof.
  intros Hne. induction d as [|[k0 v0] d IH]; simpl; [reflexivity|].
  destruct (pystr_eqb k0 k) eqn:E; simpl.
  - apply pystr_eqb_eq in E. subst k0.
    destruct (pystr_eqb k k') eqn:E'; [|exact IH].
    apply pystr_eqb_eq in E'. congruence.
  - rewrite IH. reflexivity.
Qed.

Lemma dict_set_same_value (d : Master) (k : pystr)
  (v : list (option pystr)) :
  dict_get d k = Some v -> dict_set d k v = d.
Proof.
  induction d as [|[k' v'] d IH]; simpl; [discriminate|].
  destruct (pystr_eqb k' k) eqn:E.
  - intros [= ->]. reflexivity.
  - intros H. rewrite (IH H). reflexivity.
Qed.

Lemma dict_in_keys (d : Master) (k : pystr) :
  dict_in d k = true <-> In k (dict_keys d).
Proof.
  unfold dict_in, dict_keys.
  induction d as [|[k' v'] d IH]; simpl; [split; [discriminate|tauto]|].
  destruct (pystr_eqb k' k) eqn:E; simpl.
  - apply pystr_eqb_eq in E. split; auto.
  - rewrite IH. apply pystr_eqb_neq in E. split; [auto|].
    intros [H|H]; [contradiction | exact H].
Qed.

Lemma dict_keys_set (d : Master) (k : pystr) (v : list (option pystr)) :
  dict_keys (dict_set d k v)
  = if dict_in d k then dict_keys d else dict_keys d ++ [k].
Proof.
  unfold dict_in, dict_keys.
  induction d as [|[k' v'] d IH]; simpl; [reflexivity|].
  destruct (pystr_eqb k' k) eqn:E; simpl; [reflexivity|].
  rewrite IH. destruct (notna (dict_get d k)); reflexivity.
Qed.

Lemma dict_keys_pop (d : Master) (k : pystr) :
  dict_keys (dict_pop d k)
  = filter (fun k' => negb (pystr_eqb k' k)) (dict_keys d).
Proof.
  unfold dict_keys, dict_pop.
  induction d as [|[k' v'] d IH]; simpl; [reflexivity|].
  destruct (pystr_eqb k' k); simpl; congruence.
Qed.

Lemma NoDup_app_end {A : Type} (l : list A) (x : A) :
  NoDup l -> ~ In x l -> NoDup (l ++ [x]).
Proof.
  intros Hnd Hx. eapply Permutation_NoDup;
    [apply Permutation_cons_append|]. constructor; assumption.
Qed.

Lemma dict_set_NoDup (d : Master) (k : pystr) (v : list (option pystr)) :
  NoDup (dict_keys d) -> NoDup (dict_keys (dict_set d k v)).
Proof.
  intros H. rewrite dict_keys_set.
  destruct (dict_in d k) eqn:E; [exact H|].
  apply NoDup_app_end; [exact H|].
  intros Hin. apply dict_in_keys in Hin. congruence.
Qed.

Lemma dict_pop_NoDup (d : Master) (k : pystr) :
  NoDup (dict_keys d) -> NoDup (dict_keys (dict_pop d k)).
Proof. intros H. rewrite dict_keys_pop. apply NoDup_filter, H. Qed.

Lemma setdefault_get (d : Master) (k k' : pystr) :
  dict_get (setdefault d k []) k'
  = if pystr_eqb k k' then Some (get_or_empty d k) else dict_get d k'.
Proof.
  unfold setdefault, dict_in, get_or_empty.
  destruct (pystr_eqb k k') eqn:E.
  - apply pystr_eqb_eq in E. subst k'.
    destruct (dict_get d k) eqn:G; simpl; [exact G|].
    apply dict_get_set_same.
  - apply pystr_eqb_neq in E.
    destruct (dict_get d k) eqn:G; simpl; [reflexivity|].
    apply dict_get_set_other. congruence.
Qed.

(** ** [load_ex_master] *)

Lemma default_keys_NoDup : NoDup (dict_keys DEFAULT_EX).
Proof.
  unfold DEFAULT_EX, dict_keys, UNCATEGORISED. simpl.
  repeat constructor; simpl; intuition discriminate.
Qed.

Lemma clean_step_get (d : Master) (k k' : pystr) :
  dict_get
    (dict_set (setdefault d k []) k
       (map Some (_dedup_keep_order (get_or_empty (setdefault d k []) k))))
    k'
  = if pystr_eqb k k'
    then Some (map Some (_dedup_keep_order (get_or_empty d k)))
    else dict_get d k'.
Proof.
  assert (E : get_or_empty (setdefault d k []) k = get_or_empty d k).
  { unfold get_or_empty at 1. rewrite setdefault_get, pystr_eqb_refl.
    reflexivity. }
  rewrite E. destruct (pystr_eqb k k') eqn:Ek.
  - apply pystr_eqb_eq in Ek. subst k'. apply dict_get_set_same.
  - apply pystr_eqb_neq in Ek.
    rewrite dict_get_set_other by congruence.
    rewrite setdefault_get.
    destruct (pystr_eqb k k') eqn:Ek'; [|reflexivity].
    apply pystr_eqb_eq in Ek'. contradiction.
Qed.

Lemma clean_fold_get (ks : list pystr) (d : Master) (k : pystr) :
  NoDup ks ->
  dict_get
    (fold_left
       (fun d k =>
          let d := setdefault d k [] in
          dict_set d k (map Some (_dedup_keep_order (get_or_empty d k))))
       ks d) k
  = if mem k ks
    then Some (map Some (_dedup_keep_order (get_or_empty d k)))
    else dict_get d k.
Proof.
  intros Hnd. revert d. induction Hnd as [|k0 ks Hnot Hnd IH]; intros d.
  - reflexivity.
  - simpl fold_left. rewrite IH. unfold mem. simpl existsb.
    fold (mem k ks). rewrite (pystr_eqb_sym k k0).
    destruct (pystr_eqb k0 k) eqn:E; simpl.
    + apply pystr_eqb_eq in E. subst k0.
      destruct (mem k ks) eqn:Em; [apply mem_In in Em; contradiction|].
      rewrite clean_step_get, pystr_eqb_refl. reflexivity.
    + unfold get_or_empty at 1. rewrite !clean_step_get, E.
      reflexivity.
Qed.

Lemma clean_defaults_get (data : Master) (k : pystr) :
  dict_get (clean_defaults data) k
  = if mem k (dict_keys DEFAULT_EX)
    then Some (map Some (_dedup_keep_order (get_or_empty data k)))
    else dict_get data k.
Proof. apply clean_fold_get, default_keys_NoDup. Qed.

(** X4. Whatever is on disk, the loaded master has every default body
    part.  When the file holds a master, the list of each default part is
    the cleaned list of the file, and every other part is returned as the
    file has it. *)
Theorem load_ex_master_spec (file : ExFile) :
  let m := fst (load_ex_master file) in
  (forall k, In k (dict_keys DEFAULT_EX) -> dict_in m k = true) /\
  (forall data, file = Parsed data ->
     (forall k, In k (dict_keys DEFAULT_EX) ->
        dict_get m k
        = Some (map Some (_dedup_keep_order (get_or_empty data k)))) /\
     (forall k, ~ In k (dict_keys DEFAULT_EX) ->
        dict_get m k = dict_get data k)).
Proof.
  pose proof clean_defaults_get as Hclean.
  intros m. split.
  - intros k Hk. destruct file as [| |data]; simpl in m;
      try (apply dict_in_keys; exact Hk).
    unfold dict_in, m. rewrite Hclean.
    apply mem_In in Hk. rewrite Hk. reflexivity.
  - intros data ->. simpl in m. unfold m. split; intros k Hk.
    + rewrite Hclean. apply mem_In in Hk. rewrite Hk. reflexivity.
    + rewrite Hclean. destruct (mem k (dict_keys DEFAULT_EX)) eqn:E;
        [apply mem_In in E; contradiction | reflexivity].
Qed.

Lemma load_ex_master_spec_witness :
  dict_get (fst (load_ex_master (Parsed [(lit "Core", names ["Plank"]%string)])))
           (lit "Core")
  = Some (names ["Plank"]%string).
Proof.
  apply (proj2 (proj2 (load_ex_master_spec
                         (Parsed [(lit "Core", names ["Plank"]%string)]))
                      _ eq_refl)).
  unfold DEFAULT_EX, dict_keys, UNCATEGORISED. simpl.
  intuition discriminate.
Defined.

Lemma clean_fold_fixed (ks : list pystr) (d : Master) :
  (forall k, In k ks ->
     exists l, dict_get d k = Some l /\
               map Some (_dedup_keep_order l) = l) ->
  fold_left
    (fun d k =>
       let d := setdefault d k [] in
       dict_set d k (map Some (_dedup_keep_order (get_or_empty d k))))
    ks d = d.
Proof.
  induction ks as [|k0 ks IH]; intros H; simpl; [reflexivity|].
  destruct (H k0 (or_introl eq_refl)) as (l & Hl & Hclean).
  assert (E : setdefault d k0 [] = d)
    by (unfold setdefault, dict_in; rewrite Hl; reflexivity).
  cbv zeta. rewrite E.
  replace (get_or_empty d k0) with l
    by (unfold get_or_empty; rewrite Hl; reflexivity).
  rewrite Hclean, (dict_set_same_value d k0 l Hl).
  apply IH. intros k Hk. apply H. right. exact Hk.
Qed.

(** X5. Loading what a load returned gives it back: once the master has
    been written out, the next start finds it unchanged. *)
Theorem load_ex_master_stable (file : ExFile) :
  fst (load_ex_master (Parsed (fst (load_ex_master file))))
  = fst (load_ex_master file).
Proof.
  destruct file as [| |data]; simpl; try reflexivity.
  apply clean_fold_fixed. intros k Hk.
  exists (map Some (_dedup_keep_order (get_or_empty data k))). split.
  - fold (clean_defaults data). rewrite clean_defaults_get.
    apply mem_In in Hk. rewrite Hk. reflexivity.
  - rewrite dedup_again. reflexivity.
Qed.

(** ** The buttons of the master *)

Lemma get_or_empty_set_same (d : Master) (k : pystr)
  (v : list (option pystr)) :
  get_or_empty (dict_set d k v) k = v.
Proof. unfold get_or_empty. rewrite dict_get_set_same. reflexivity. Qed.

Lemma dict_in_get (d : Master) (k : pystr) :
  dict_in d k = true -> dict_get d k = Some (get_or_empty d k).
Proof.
  unfold dict_in, get_or_empty. destruct (dict_get d k); [reflexivity|].
  discriminate.
Qed.

Lemma NoDup_map_Some {A : Type} (l : list A) :
  NoDup l -> NoDup (map Some l).
Proof.
  induction 1 as [|x l Hnot Hnd IH]; simpl; constructor; [|exact IH].
  rewrite in_map_iff. intros (y & [= ->] & Hy). contradiction.
Qed.

(** X6. Deleting a body part other than the uncategorised one removes it,
    moves each of its exercises (stripped, blanks dropped) to the
    uncategorised part, which also keeps its own, and leaves every other
    part as it was.  The uncategorised part itself, or a part that does not
    exist, is not deleted: the master stays as it is. *)
Theorem delete_bodypart_spec (m : Master) (bp : pystr) :
  let m' := delete_bodypart m bp in
  (bp = UNCATEGORISED \/ dict_in m bp = false -> m' = m) /\
  (bp <> UNCATEGORISED -> dict_in m bp = true ->
   dict_in m' bp = false /\
   (forall x y, In x (get_or_empty m bp ++ get_or_empty m UNCATEGORISED) ->
                strip (or_empty x) = y -> y <> [] ->
                In (Some y) (get_or_empty m' UNCATEGORISED)) /\
   NoDup (get_or_empty m' UNCATEGORISED) /\
   (forall k, k <> bp -> k <> UNCATEGORISED ->
              dict_get m' k = dict_get m k)).
Proof.
  intros m'. unfold m', delete_bodypart. split.
  - intros [->|H].
    + rewrite pystr_eqb_refl, andb_false_r. reflexivity.
    + rewrite H. reflexivity.
  - intros Hne Hin. rewrite Hin.
    assert (E : pystr_eqb bp UNCATEGORISED = false)
      by (apply pystr_eqb_neq; exact Hne).
    rewrite E. simpl.
    set (moved := _dedup_keep_order
                    (get_or_empty m UNCATEGORISED ++ get_or_empty m bp)).
    assert (Hget : get_or_empty
                     (dict_pop (dict_set m UNCATEGORISED (map Some moved)) bp)
                     UNCATEGORISED = map Some moved).
    { unfold get_or_empty.
      rewrite dict_get_pop_other by congruence.
      rewrite dict_get_set_same. reflexivity. }
    rewrite Hget.
    pose proof (dedup_NoDup
                  (get_or_empty m UNCATEGORISED ++ get_or_empty m bp))
      as Hnd.
    pose proof (dedup_In
                  (get_or_empty m UNCATEGORISED ++ get_or_empty m bp))
      as Hmem.
    fold moved in Hnd, Hmem.
    split; [|split; [|split]].
    + unfold dict_in. rewrite dict_get_pop_same. reflexivity.
    + intros x y Hx Hy Hy'. apply in_map, Hmem. split; [exact Hy'|].
      exists x. split; [|exact Hy].
      apply in_app_or in Hx. apply in_or_app. tauto.
    + apply NoDup_map_Some, Hnd.
    + intros k Hk Hk'.
      rewrite dict_get_pop_other by exact Hk.
      apply dict_get_set_other. exact Hk'.
Qed.

Lemma delete_bodypart_spec_witness :
  dict_in (delete_bodypart DEFAULT_EX [33016]%N) [33016]%N = false /\
  In (Some (lit "Dips"))
     (get_or_empty (delete_bodypart DEFAULT_EX [33016]%N) UNCATEGORISED) /\
  delete_bodypart DEFAULT_EX UNCATEGORISED = DEFAULT_EX.
Proof.
  destruct (proj2 (delete_bodypart_spec DEFAULT_EX [33016]%N))
    as (Hgone & Hmoved & _).
  - discriminate.
  - reflexivity.
  - split; [exact Hgone|]. split.
    + apply (Hmoved (Some (lit "Dips")) (lit "Dips")).
      * simpl. auto.
      * reflexivity.
      * discriminate.
    + apply (proj1 (delete_bodypart_spec DEFAULT_EX UNCATEGORISED)).
      left. reflexivity.
Defined.

(** X7. Renaming a body part to a non-blank name gives the new name the
    exercises of the old one and removes the old name; every other part is
    unchanged.  A part that already has the new name loses its own
    exercises. *)
Theorem rename_bodypart_spec (m : Master) (bp_old : pystr)
  (bp_new : option pystr) :
  let new := strip (or_empty bp_new) in
  let m' := rename_bodypart m bp_old bp_new in
  (new = [] \/ dict_in m bp_old = false -> m' = m) /\
  (new <> [] -> dict_in m bp_old = true ->
   dict_get m' new = dict_get m bp_old /\
   (bp_old <> new -> dict_in m' bp_old = false) /\
   (forall k, k <> bp_old -> k <> new -> dict_get m' k = dict_get m k)).
Proof.
  intros new m'. unfold m', rename_bodypart. fold new. split.
  - intros [H|H].
    + rewrite H. reflexivity.
    + rewrite H, andb_false_r. reflexivity.
  - intros Hnew Hin. rewrite Hin.
    apply null_false in Hnew. rewrite Hnew. simpl.
    split; [|split].
    + rewrite dict_get_set_same. symmetry. apply dict_in_get, Hin.
    + intros Hne. unfold dict_in.
      rewrite dict_get_set_other by exact Hne.
      rewrite dict_get_pop_same. reflexivity.
    + intros k Hk Hk'.
      rewrite dict_get_set_other by exact Hk'.
      apply dict_get_pop_other, Hk.
Qed.

Lemma rename_bodypart_spec_witness :
  dict_get (rename_bodypart DEFAULT_EX [33016]%N (Some [36275]%N))
           [36275]%N
  = dict_get DEFAULT_EX [33016]%N.
Proof.
  apply (proj2 (rename_bodypart_spec DEFAULT_EX [33016]%N (Some [36275]%N))).
  - discriminate.
  - reflexivity.
Defined.

(** X8. A default body part that was deleted is back, with no exercise,
    after the master has been written out and loaded again. *)
Theorem deleted_default_part_returns (m : Master) (bp : pystr) :
  In bp (dict_keys DEFAULT_EX) -> bp <> UNCATEGORISED ->
  dict_in m bp = true ->
  dict_get (fst (load_ex_master (Parsed (delete_bodypart m bp)))) bp
  = Some [].
Proof.
  intros Hdef Hne Hin. simpl. rewrite clean_defaults_get.
  apply mem_In in Hdef. rewrite Hdef.
  unfold delete_bodypart. rewrite Hin.
  assert (E : pystr_eqb bp UNCATEGORISED = false)
    by (apply pystr_eqb_neq; exact Hne).
  rewrite E. simpl. unfold get_or_empty.
  rewrite dict_get_pop_same. reflexivity.
Qed.

Lemma deleted_default_part_returns_witness :
  dict_get (fst (load_ex_master
                   (Parsed (delete_bodypart DEFAULT_EX [33016]%N))))
           [33016]%N
  = Some [].
Proof.
  apply deleted_default_part_returns.
  - unfold DEFAULT_EX, dict_keys. simpl. auto.
  - discriminate.
  - reflexivity.
Defined.

Lemma dedup_single (name : pystr) :
  name <> [] -> strip name = name ->
  _dedup_keep_order [Some name] = [name].
Proof.
  intros Hne Hs. rewrite dedup_unique. simpl. rewrite Hs.
  apply null_false in Hne. rewrite Hne. reflexivity.
Qed.

Lemma dedup_append_name (l : list (option pystr)) (name : pystr) :
  name <> [] -> strip name = name ->
  _dedup_keep_order (l ++ [Some name])
  = _dedup_keep_order l
    ++ (if mem name (_dedup_keep_order l) then [] else [name]).
Proof.
  intros Hne Hs. rewrite dedup_app, (dedup_single name Hne Hs).
  simpl. destruct (mem name (_dedup_keep_order l)); reflexivity.
Qed.

(** X9. Adding an exercise with a non-blank name cleans the list of the
    body part and puts the stripped name at its end unless the list has it
    already; the other parts are unchanged, and adding the same name again
    changes nothing.  A blank name adds nothing. *)
Theorem add_exercise_spec (m : Master) (bp : pystr)
  (ex_add : option pystr) :
  let name := strip (or_empty ex_add) in
  let m' := add_exercise m bp ex_add in
  (name = [] -> m' = m) /\
  (name <> [] ->
   get_or_empty m' bp
   = map Some (_dedup_keep_order (get_or_empty m bp))
     ++ (if mem name (_dedup_keep_order (get_or_empty m bp))
         then [] else [Some name]) /\
   (forall k, k <> bp -> dict_get m' k = dict_get m k) /\
   add_exercise m' bp ex_add = m').
Proof.
  intros name m'. unfold m', add_exercise. fold name. split.
  - intros ->. reflexivity.
  - intros Hne.
    assert (Hs : strip name = name) by apply strip_fixed.
    pose proof Hne as Hnull. apply null_false in Hnull. rewrite Hnull.
    simpl negb. cbv iota.
    set (l := get_or_empty m bp).
    rewrite get_or_empty_set_same.
    rewrite (dedup_append_name l name Hne Hs).
    split; [|split].
    + rewrite map_app.
      destruct (mem name (_dedup_keep_order l)); reflexivity.
    + intros k Hk. apply dict_get_set_other, Hk.
    + apply dict_set_same_value. rewrite dict_get_set_same. f_equal.
      f_equal.
      set (L := _dedup_keep_order l
                ++ (if mem name (_dedup_keep_order l) then [] else [name])).
      assert (EL : L = _dedup_keep_order (l ++ [Some name]))
        by (symmetry; apply dedup_append_name; assumption).
      rewrite (dedup_append_name (map Some L) name Hne Hs).
      rewrite EL, dedup_again, <- EL.
      assert (Hin : mem name L = true).
      { apply mem_In. unfold L. apply in_or_app.
        destruct (mem name (_dedup_keep_order l)) eqn:E.
        - left. apply mem_In, E.
        - right. left. reflexivity. }
      rewrite Hin. symmetry. apply app_nil_r.
Qed.

Lemma add_exercise_spec_witness :
  get_or_empty (add_exercise DEFAULT_EX [33016]%N (Some (lit " Dips ")))
               [33016]%N
  = names ["Bench Press"; "Incline Bench Press"; "Dips"]%string.
Proof.
  rewrite (proj1 (proj2 (add_exercise_spec DEFAULT_EX [33016]%N
                           (Some (lit " Dips "))) ltac:(discriminate))).
  reflexivity.
Defined.

Lemma dedup_append (l : list (option pystr)) (x : option pystr) :
  let name := strip (or_empty x) in
  _dedup_keep_order (l ++ [x])
  = _dedup_keep_order l
    ++ (if null name || mem name (_dedup_keep_order l) then []
        else [name]).
Proof.
  intros name. rewrite dedup_app, (dedup_unique [x]). simpl. fold name.
  destruct (null name); simpl; [reflexivity|].
  destruct (mem name (_dedup_keep_order l)); reflexivity.
Qed.

(** X10. Moving an exercise takes every occurrence of it out of its body
    part and keeps the other exercises of that part.  The target part keeps
    its own exercises: its list becomes its cleaned list, followed by the
    stripped name of the moved exercise unless that is blank or already
    there.  The other parts are unchanged.  The move raises [KeyError]
    exactly when the source part is not in the master. *)
Theorem move_exercise_spec (m : Master) (bp_sel : pystr)
  (ex_mv mv_to : option pystr) :
  selected ex_mv = true -> selected mv_to = true ->
  let target := or_empty mv_to in
  let name := strip (or_empty ex_mv) in
  match move_exercise m bp_sel ex_mv mv_to with
  | Raises e => dict_in m bp_sel = false /\ e = DictKeyError bp_sel
  | Returns m' =>
      dict_in m bp_sel = true /\
      (target <> bp_sel ->
       ~ In ex_mv (get_or_empty m' bp_sel) /\
       (forall x, x <> ex_mv -> In x (get_or_empty m bp_sel) ->
                  In x (get_or_empty m' bp_sel)) /\
       get_or_empty m' target
       = map Some (_dedup_keep_order (get_or_empty m target))
         ++ (if null name
                || mem name (_dedup_keep_order (get_or_empty m target))
             then [] else [Some name])) /\
      (name <> [] -> In (Some name) (get_or_empty m' target)) /\
      NoDup (get_or_empty m' target) /\
      (forall k, k <> bp_sel -> k <> target ->
                 dict_get m' k = dict_get m k)
  end.
Proof.
  intros Hmv Hto target name. unfold move_exercise. rewrite Hmv, Hto. simpl.
  unfold dict_item, dict_in.
  destruct (dict_get m bp_sel) as [l|] eqn:Hl; [|split; reflexivity].
  fold target.
  set (m1 := dict_set m bp_sel
               (filter (fun x => negb (name_eqb x ex_mv)) l)).
  set (moved := _dedup_keep_order (get_or_empty m1 target ++ [ex_mv])).
  pose proof (dedup_NoDup (get_or_empty m1 target ++ [ex_mv])) as Hnd.
  pose proof (dedup_In (get_or_empty m1 target ++ [ex_mv])) as Hmem.
  fold moved in Hnd, Hmem.
  assert (Hname : forall x y, name_eqb x y = true <-> x = y).
  { intros [x|] [y|]; simpl; split; try congruence.
    - intros H. apply pystr_eqb_eq in H. congruence.
    - intros [= ->]. apply pystr_eqb_refl. }
  split; [reflexivity|]. split; [|split; [|split]].
  - intros Hne.
    assert (E : get_or_empty (dict_set m1 target (map Some moved)) bp_sel
                = filter (fun x => negb (name_eqb x ex_mv)) l).
    { unfold get_or_empty. rewrite dict_get_set_other by congruence.
      unfold m1. rewrite dict_get_set_same. reflexivity. }
    rewrite E. split; [|split].
    + rewrite filter_In. intros (_ & H).
      rewrite (proj2 (Hname ex_mv ex_mv) eq_refl) in H. discriminate.
    + intros x Hx Hin. apply filter_In. split.
      * unfold get_or_empty in Hin. rewrite Hl in Hin. exact Hin.
      * destruct (name_eqb x ex_mv) eqn:Ex; [|reflexivity].
        apply Hname in Ex. contradiction.
    + rewrite get_or_empty_set_same. unfold moved.
      assert (Et : get_or_empty m1 target = get_or_empty m target).
      { unfold get_or_empty, m1. rewrite dict_get_set_other by exact Hne.
        reflexivity. }
      rewrite Et, dedup_append, map_app. fold name.
      destruct (null name
                || mem name (_dedup_keep_order (get_or_empty m target)));
        reflexivity.
  - intros Hblank. rewrite get_or_empty_set_same.
    apply in_map, Hmem. split; [exact Hblank|].
    exists ex_mv. split; [|reflexivity].
    apply in_or_app. right. left. reflexivity.
  - rewrite get_or_empty_set_same. apply NoDup_map_Some, Hnd.
  - intros k Hk Hk'.
    rewrite dict_get_set_other by exact Hk'.
    unfold m1. apply dict_get_set_other, Hk.
Qed.

Lemma move_exercise_spec_witness :
  exists m',
    move_exercise DEFAULT_EX [33016]%N (Some (lit "Dips"))
                  (Some [33109]%N) = Returns m' /\
    ~ In (Some (lit "Dips")) (get_or_empty m' [33016]%N) /\
    get_or_empty m' [33109]%N
    = names ["Barbell Curl"; "Triceps Pushdown"; "Dips"]%string.
Proof.
  pose proof (move_exercise_spec DEFAULT_EX [33016]%N (Some (lit "Dips"))
                (Some [33109]%N) eq_refl eq_refl) as S.
  destruct (move_exercise DEFAULT_EX [33016]%N (Some (lit "Dips"))
              (Some [33109]%N)) as [m'|e].
  - exists m'. destruct S as (_ & Hsrc & _).
    destruct Hsrc as (Hgone & _ & Htarget); [discriminate|].
    split; [reflexivity|]. split; [exact Hgone|].
    etransitivity; [exact Htarget | reflexivity].
  - destruct S as (S & _). discriminate.
Defined.

(** ** Renaming an exercise, adding a body part *)

Lemma name_eqb_eq (x y : option pystr) : name_eqb x y = true <-> x = y.
Proof.
  destruct x as [x|], y as [y|]; simpl; split; try congruence.
  - intros H. apply pystr_eqb_eq in H. congruence.
  - intros [= ->]. apply pystr_eqb_refl.
Qed.

(** X18. Renaming an exercise to a non-blank name raises [KeyError] exactly
    when the body part is not in the master.  Otherwise the list of the
    part comes out without repetition; it holds the new (stripped) name if
    the old one was there, the stripped name of every other exercise that
    is not blank, and nothing else; in a list whose names are stripped the
    old name is gone unless the new name equals it.  The other parts are
    unchanged. *)
Theorem rename_exercise_spec (m : Master) (bp_sel : pystr)
  (ex_old ex_new : option pystr) :
  selected ex_old = true -> strip (or_empty ex_new) <> [] ->
  let new := strip (or_empty ex_new) in
  let l := get_or_empty m bp_sel in
  match rename_exercise m bp_sel ex_old ex_new with
  | Raises e => dict_in m bp_sel = false /\ e = DictKeyError bp_sel
  | Returns m' =>
      let l' := get_or_empty m' bp_sel in
      dict_in m bp_sel = true /\
      NoDup l' /\
      (In ex_old l -> In (Some new) l') /\
      (forall x, In x l -> x <> ex_old -> strip (or_empty x) <> [] ->
                 In (Some (strip (or_empty x))) l') /\
      (forall y, In y l' ->
                 y = Some new \/
                 exists x, In x l /\ x <> ex_old /\
                           y = Some (strip (or_empty x))) /\
      ((forall x, In x l -> x = Some (strip (or_empty x))) ->
       ex_old <> Some new -> ~ In ex_old l') /\
      (forall k, k <> bp_sel -> dict_get m' k = dict_get m k)
  end.
Proof.
  intros Hold Hnew new l.
  assert (Hnull : null new = false).
  { unfold new. destruct (strip (or_empty ex_new)); [elim Hnew|];
      reflexivity. }
  unfold rename_exercise. fold new. rewrite Hold, Hnull.
  simpl. unfold dict_item, dict_in.
  assert (El : l = get_or_empty m bp_sel) by reflexivity.
  unfold get_or_empty in El.
  destruct (dict_get m bp_sel) as [l0|] eqn:Hl; [|split; reflexivity].
  subst l0. rewrite !get_or_empty_set_same.
  set (renamed := map (fun x => if name_eqb x ex_old then Some new else x)
                      l).
  pose proof (dedup_In renamed) as Hmem.
  assert (Hstrip : strip new = new) by apply strip_fixed.
  assert (Hall : forall y, In y (map Some (_dedup_keep_order renamed)) ->
            y = Some new \/
            exists x, In x l /\ x <> ex_old /\
                      y = Some (strip (or_empty x))).
  { intros y Hy. apply in_map_iff in Hy. destruct Hy as (z & <- & Hz).
    apply Hmem in Hz. destruct Hz as (_ & x' & Hx' & Ez).
    apply in_map_iff in Hx'. destruct Hx' as (x & <- & Hx).
    destruct (name_eqb x ex_old) eqn:Ex.
    - left. simpl in Ez. rewrite Hstrip in Ez. congruence.
    - right. exists x. split; [exact Hx|]. split; [|congruence].
      intros E. apply name_eqb_eq in E. congruence. }
  split; [reflexivity|]. split; [|split; [|split; [|split; [|split]]]].
  - apply NoDup_map_Some, dedup_NoDup.
  - intros Hin. apply in_map, Hmem. split; [exact Hnew|].
    exists (Some new). split; [|exact Hstrip].
    apply in_map_iff. exists ex_old. split; [|exact Hin].
    rewrite (proj2 (name_eqb_eq ex_old ex_old) eq_refl). reflexivity.
  - intros x Hx Hne Hblank. apply in_map, Hmem. split; [exact Hblank|].
    exists x. split; [|reflexivity].
    apply in_map_iff. exists x. split; [|exact Hx].
    destruct (name_eqb x ex_old) eqn:Ex; [|reflexivity].
    apply name_eqb_eq in Ex. contradiction.
  - exact Hall.
  - intros Hclean Hdiff Hin.
    destruct (Hall ex_old Hin) as [E|(x & Hx & Hne & E)].
    + contradiction.
    + rewrite <- (Hclean x Hx) in E. congruence.
  - intros k Hk. rewrite !dict_get_set_other by exact Hk. reflexivity.
Qed.

Lemma rename_exercise_spec_witness :
  exists m',
    rename_exercise DEFAULT_EX [33016]%N (Some (lit "Dips"))
                    (Some (lit " Push Up ")) = Returns m' /\
    In (Some (lit "Push Up")) (get_or_empty m' [33016]%N) /\
    ~ In (Some (lit "Dips")) (get_or_empty m' [33016]%N).
Proof.
  pose proof (rename_exercise_spec DEFAULT_EX [33016]%N
                (Some (lit "Dips")) (Some (lit " Push Up ")) eq_refl) as S.
  specialize (S ltac:(discriminate)).
  destruct (rename_exercise DEFAULT_EX [33016]%N (Some (lit "Dips"))
              (Some (lit " Push Up "))) as [m'|e].
  - exists m'. destruct S as (_ & _ & Hnew & _ & _ & Hgone & _).
    split; [reflexivity|]. split.
    + apply Hnew. vm_compute. tauto.
    + apply Hgone; [|discriminate].
      intros x Hx. vm_compute in Hx.
      repeat (destruct Hx as [<-|Hx]; [reflexivity|]). destruct Hx.
  - destruct S as (S & _). discriminate.
Defined.

(** X19. Adding a body part never touches a part that is there: with a
    blank name, or the (stripped) name of an existing part, the master
    stays as it is, exercises included.  A new name goes last in the order
    of the parts, with no exercise, and every other part is unchanged. *)
Theorem add_bodypart_spec (m : Master) (new_bp : option pystr) :
  let name := strip (or_empty new_bp) in
  let m' := add_bodypart m new_bp in
  (name = [] \/ dict_in m name = true -> m' = m) /\
  (name <> [] -> dict_in m name = false ->
   dict_keys m' = dict_keys m ++ [name] /\
   dict_get m' name = Some [] /\
   forall k, k <> name -> dict_get m' k = dict_get m k).
Proof.
  intros name m'. unfold m', add_bodypart. fold name. split.
  - intros [E|E].
    + rewrite E. reflexivity.
    + unfold setdefault. rewrite E. destruct (negb (null name)); reflexivity.
  - intros Hname Hnew.
    assert (Hnull : null name = false).
    { unfold name in *. destruct (strip (or_empty new_bp)); [elim Hname|];
        reflexivity. }
    rewrite Hnull. simpl. unfold setdefault. rewrite Hnew.
    split; [|split].
    + rewrite dict_keys_set, Hnew. reflexivity.
    + apply dict_get_set_same.
    + intros k Hk. apply dict_get_set_other, Hk.
Qed.

Lemma add_bodypart_spec_witness :
  dict_keys (add_bodypart DEFAULT_EX (Some (lit " Neck ")))
  = dict_keys DEFAULT_EX ++ [lit "Neck"].
Proof.
  apply (proj2 (add_bodypart_spec DEFAULT_EX (Some (lit " Neck "))));
    [discriminate | reflexivity].
Defined.

(** ** Chart ranges *)

Lemma fold_values {A : Type} (step : A -> option float -> A)
  (c : list (option float)) (acc : A) :
  (forall a v, step a (value v) = step a v) ->
  fold_left step (map value c) acc = fold_left step c acc.
Proof.
  intros Hstep. revert acc. induction c as [|v c IH]; intros acc; simpl.
  - reflexivity.
  - rewrite Hstep. apply IH.
Qed.

Lemma col_max_values (c : list (option float)) :
  col_max (map value c) = col_max c.
Proof.
  apply fold_values. intros a v. unfold max_step.
  rewrite value_idem. reflexivity.
Qed.

Lemma col_min_values (c : list (option float)) :
  col_min (map value c) = col_min c.
Proof.
  apply fold_values. intros a v. unfold min_step.
  rewrite value_idem. reflexivity.
Qed.

Lemma values_clean (c : list (option float)) : clean_col (map value c).
Proof.
  intros x Hx. apply in_map_iff in Hx. destruct Hx as (v & Hv & _).
  apply value_Some in Hv. apply Hv.
Qed.

Lemma values_In (c : list (option float)) (x : float) :
  In (Some x) (map value c) <-> In (Some x) c /\ is_nan x = false.
Proof.
  rewrite in_map_iff. split.
  - intros (v & Hv & Hin). apply value_Some in Hv.
    destruct Hv as (-> & Hn). auto.
  - intros (Hin & Hn). exists (Some x). split; [|exact Hin].
    apply value_Some. auto.
Qed.

Lemma fold_min_step_spec (c : list (option float)) (acc : option float) :
  clean_col c -> (forall a, acc = Some a -> is_nan a = false) ->
  match fold_left min_step c acc with
  | None => acc = None /\ Forall (fun v => v = None) c
  | Some m =>
      is_nan m = false /\
      (acc = Some m \/ In (Some m) c) /\
      (forall a, acc = Some a -> Fle m a) /\
      (forall x, In (Some x) c -> Fle m x)
  end.
Proof.
  revert acc. induction c as [|v c IH]; intros acc Hc Hacc0; simpl.
  - destruct acc as [a|].
    + pose proof (Hacc0 a eq_refl) as Na.
      split; [exact Na|]. split; [left; reflexivity|]. split.
      * intros a' [= <-]. fkeys.
      * intros x [].
    + split; [reflexivity | constructor].
  - apply clean_col_cons in Hc. destruct Hc as (Hv & Hc).
    assert (Estep : min_step acc v
                    = match acc, v with
                      | None, _ => v
                      | Some a, None => Some a
                      | Some a, Some x =>
                          if (a <=? x)%float then Some a else Some x
                      end).
    { unfold min_step. rewrite (value_clean v Hv). reflexivity. }
    assert (Hstep : forall a, min_step acc v = Some a -> is_nan a = false).
    { rewrite Estep. intros a Ha.
      destruct acc as [b|], v as [x|]; try discriminate.
      - destruct (b <=? x)%float; injection Ha as <-; auto.
      - injection Ha as <-. auto.
      - injection Ha as <-. auto. }
    specialize (IH (min_step acc v) Hc Hstep).
    destruct (fold_left min_step c (min_step acc v)) as [m|].
    + destruct IH as (Nm & Hin & Hacc & Hall). rewrite Estep in Hin, Hacc.
      split; [exact Nm|].
      destruct acc as [a|], v as [x|]; simpl in *.
      * pose proof (Hacc0 a eq_refl) as Na.
        pose proof (Hv x eq_refl) as Nx.
        destruct (a <=? x)%float eqn:E.
        -- split; [destruct Hin as [Hin|Hin]; auto|].
           split; [exact Hacc|].
           intros y [[= <-]|Hy]; [|apply Hall, Hy].
           specialize (Hacc a eq_refl). fkeys.
        -- split; [destruct Hin as [Hin|Hin]; auto|].
           specialize (Hacc x eq_refl).
           split.
           ++ intros a' [= <-]. fkeys.
           ++ intros y [[= <-]|Hy]; [exact Hacc | apply Hall, Hy].
      * split; [destruct Hin as [Hin|Hin]; auto|].
        split; [exact Hacc|].
        intros y [Hy|Hy]; [discriminate | apply Hall, Hy].
      * split; [destruct Hin as [Hin|Hin]; auto|].
        split; [discriminate|].
        intros y [[= <-]|Hy]; [apply Hacc; reflexivity|apply Hall, Hy].
      * split; [destruct Hin as [Hin|Hin]; auto; discriminate|].
        split; [discriminate|].
        intros y [Hy|Hy]; [discriminate | apply Hall, Hy].
    + destruct IH as (Hacc & Hall). rewrite Estep in Hacc.
      destruct acc as [a|], v as [x|]; simpl in *; try discriminate.
      * destruct (a <=? x)%float; discriminate.
      * split; [reflexivity | constructor; [reflexivity | exact Hall]].
Qed.

Lemma col_min_Some (c : list (option float)) (m : float) :
  clean_col c -> col_min c = Some m ->
  is_nan m = false /\ In (Some m) c /\ forall x, In (Some x) c -> Fle m x.
Proof.
  unfold col_min. intros Hc H.
  assert (Hnone : forall a : float, None = Some a -> is_nan a = false)
    by discriminate.
  pose proof (fold_min_step_spec c None Hc Hnone) as S. rewrite H in S.
  destruct S as (Nm & [S|S] & _ & Hall); [discriminate | auto].
Qed.

Lemma col_min_None (c : list (option float)) :
  clean_col c -> (col_min c = None <-> forall x, ~ In (Some x) c).
Proof.
  unfold col_min. intros Hc.
  assert (Hnone : forall a : float, None = Some a -> is_nan a = false)
    by discriminate.
  pose proof (fold_min_step_spec c None Hc Hnone) as S. split.
  - intros H. rewrite H in S. destruct S as (_ & Hall).
    rewrite Forall_forall in Hall. intros x Hx.
    apply Hall in Hx. discriminate.
  - intros H. destruct (fold_left min_step c None) as [m|]; [|reflexivity].
    destruct S as (_ & [S|S] & _); [discriminate | elim (H m S)].
Qed.

(** X11. [y_domain] returns [None] exactly when the series holds no number.
    Otherwise the range it returns is [lo - pad, hi + pad], where [lo] is
    the least and [hi] the greatest number of the series and [pad] is the
    padding ratio times the span [hi - lo], or, when that is zero, times a
    tenth of [max(1, |hi|)]. *)
Theorem y_domain_spec (series : list (option float)) (pad_ratio : float) :
  let number (x : float) := In (Some x) series /\ is_nan x = false in
  (y_domain series pad_ratio = None <-> forall x, ~ number x) /\
  (forall range, y_domain series pad_ratio = Some range ->
     exists lo hi,
       number lo /\ number hi /\
       (forall x, number x ->
                  (lo <=? x)%float = true /\ (x <=? hi)%float = true) /\
       let span :=
         if (hi - lo =? 0)%float then (at_least_one hi * 0.1)%float
         else (hi - lo)%float in
       range = ((lo - span * pad_ratio)%float,
                (hi + span * pad_ratio)%float)).
Proof.
  intros number.
  pose proof (values_clean series) as Hc.
  pose proof (col_min_values series) as Emin.
  pose proof (col_max_values series) as Emax.
  assert (Hnum : forall x, In (Some x) (map value series) <-> number x)
    by (intros x; apply values_In).
  unfold y_domain. rewrite <- Emin, <- Emax.
  destruct (col_min (map value series)) as [lo|] eqn:E1.
  - destruct (col_min_Some _ _ Hc E1) as (Nlo & Hlo & Hleast).
    destruct (col_max (map value series)) as [hi|] eqn:E2.
    + destruct (col_max_Some _ _ Hc E2) as (Nhi & Hhi & Hgreatest).
      split.
      * split; [discriminate|]. intros H. elim (H lo). apply Hnum, Hlo.
      * intros range [= <-]. exists lo, hi.
        split; [apply Hnum, Hlo|]. split; [apply Hnum, Hhi|].
        split; [|reflexivity].
        intros x Hx. apply Hnum in Hx.
        split; [apply Hleast, Hx | apply Hgreatest, Hx].
    + elim (proj1 (col_max_None _ Hc) E2 lo Hlo).
  - pose proof (proj1 (col_min_None _ Hc) E1) as Hno. split.
    + split; [|reflexivity]. intros _ x Hx. apply (Hno x), Hnum, Hx.
    + discriminate.
Qed.

Lemma y_domain_spec_witness :
  exists lo hi,
    In (Some lo) [Some 100%float; None; Some nan; Some 102.5%float] /\
    In (Some hi) [Some 100%float; None; Some nan; Some 102.5%float] /\
    (lo <=? 100)%float = true /\ (102.5 <=? hi)%float = true.
Proof.
  destruct (proj2 (y_domain_spec
                     [Some 100%float; None; Some nan; Some 102.5%float]
                     PAD_RATIO) _ eq_refl)
    as (lo & hi & (Hlo & _) & (Hhi & _) & Hall & _).
  exists lo, hi. split; [exact Hlo|]. split; [exact Hhi|].
  split; [apply (Hall 100%float); split; [left|]; reflexivity|].
  apply (Hall 102.5%float); split; [right; right; right; left|];
    reflexivity.
Defined.

(** In binary64 the padding can vanish: far from zero the range is the
    least and the greatest number themselves. *)
Example y_domain_unpadded :
  y_domain [Some 1152921504606846976%float;
            Some 1152921504606847232%float] PAD_RATIO
  = Some (1152921504606846976%float, 1152921504606847232%float).
Proof. reflexivity. Qed.
(** ** Default entries of the add-set form *)

Lemma insert_by_map {A B : Type} (f : A -> B) (leb : A -> A -> bool)
  (leb' : B -> B -> bool)
  (Hleb : forall a b, leb' (f a) (f b) = leb a b) (x : A) (l : list A) :
  insert_by leb' (f x) (map f l) = map f (insert_by leb x l).
Proof.
  induction l as [|y l IH]; simpl; [reflexivity|].
  rewrite Hleb. destruct (leb x y); simpl; [reflexivity|].
  rewrite IH. reflexivity.
Qed.

Lemma sort_by_map {A B : Type} (f : A -> B) (leb : A -> A -> bool)
  (leb' : B -> B -> bool)
  (Hleb : forall a b, leb' (f a) (f b) = leb a b) (l : list A) :
  sort_by leb' (map f l) = map f (sort_by leb l).
Proof.
  induction l as [|x l IH]; simpl; [reflexivity|].
  rewrite IH. apply insert_by_map, Hleb.
Qed.

Lemma tail1_map {A B : Type} (f : A -> B) (l : list A) :
  tail1 (map f l) = option_map f (tail1 l).
Proof.
  induction l as [|x l IH]; [reflexivity|].
  destruct l as [|y l]; [reflexivity|].
  change (tail1 (map f (x :: y :: l))) with (tail1 (map f (y :: l))).
  rewrite IH. reflexivity.
Qed.

Lemma tail1_None {A : Type} (l : list A) : tail1 l = None -> l = [].
Proof.
  induction l as [|x l IH]; [reflexivity|].
  destruct l as [|y l]; [discriminate|].
  intros H. apply IH in H. discriminate.
Qed.

Lemma latest_day_has_rows (ex : string) (d : Z) (rows : list Row)
  (day : Z) :
  col_zmax (map (fun r => Some (date r)) (filter (prev_mask ex d) rows))
  = Some day ->
  filter (on_day ex day) rows <> [].
Proof.
  intros H. apply col_zmax_Some in H. destruct H as (Hin & _).
  apply in_map_iff in Hin. destruct Hin as (r & [= Hr] & Hf).
  apply filter_In in Hf. destruct Hf as (Hf & Hm).
  intros E.
  assert (Hr' : In r (filter (on_day ex day) rows)).
  { apply filter_In. split; [exact Hf|].
    unfold prev_mask in Hm. apply andb_true_iff in Hm.
    unfold on_day. rewrite (proj1 Hm), Hr. simpl. apply Z.eqb_refl. }
  rewrite E in Hr'. destruct Hr'.
Qed.

(** X12. The default weight and repetitions of the add-set form are read
    off the last line of the table that the previous-session block shows: a
    weight of zero or no previous session gives 0, zero repetitions or no
    previous session give 1, and missing repetitions raise [TypeError].  A
    missing weight stays missing.  Where the block raises, so does this. *)
Theorem last_defaults_spec (sets : DataFrame) (ex : string) (d : Z) :
  match prev_block sets ex d with
  | Raise e => last_defaults sets ex d = Raises (FrameError e)
  | Ok None => last_defaults sets ex d = Returns (Some 0%float, 1%Z)
  | Ok (Some p) =>
      exists line,
        tail1 (prev_df p) = Some line /\
        last_defaults sets ex d
        = match p_reps line with
          | None => Raises TypeError
          | Some n =>
              Returns
                (match p_weight_kg line with
                 | Some w =>
                     if (w =? 0)%float then Some 0%float else Some w
                 | None => None
                 end,
                 if (n =? 0)%Z then 1%Z else n)
          end
  end.
Proof.
  unfold prev_block, last_defaults.
  destruct sets as [|rows]; [reflexivity|].
  unfold getitem, bind.
  destruct (negb (empty (Frame rows)) && existsb (prev_mask ex d) rows);
    [|reflexivity].
  destruct (col_zmax (map (fun r => Some (date r))
                          (filter (prev_mask ex d) rows)))
    as [day|] eqn:Eday; [|reflexivity].
  pose proof (latest_day_has_rows ex d rows day Eday) as Hne.
  set (F := filter (on_day ex day) rows) in *.
  assert (Esort : sort_values_set_no (assign_e1rm F)
                  = assign_e1rm (sort_values_set_no F)).
  { unfold sort_values_set_no, assign_e1rm.
    apply sort_by_map. reflexivity. }
  cbv zeta. simpl prev_df. rewrite Esort.
  unfold assign_e1rm. rewrite map_map, tail1_map.
  destruct (tail1 (sort_values_set_no F)) as [r|] eqn:Et.
  - exists (prev_columns
              (set_e1rm r (value (est_1rm_epley (weight_kg r) (reps r))))).
    split; [reflexivity|]. simpl.
    destruct (reps r); reflexivity.
  - apply tail1_None in Et.
    elim Hne. apply Permutation_nil.
    rewrite <- Et. apply Permutation_sym, sort_values_set_no_perm.
Qed.

(** ** Submitting a set and loading the table again *)

Lemma col_zmax_is (c : list (option Z)) (m : Z) :
  In (Some m) c -> (forall x, In (Some x) c -> (x <= m)%Z) ->
  col_zmax c = Some m.
Proof.
  intros Hin Hmax. destruct (col_zmax c) as [m'|] eqn:E.
  - apply col_zmax_Some in E. destruct E as (Hin' & Hmax').
    f_equal. apply Z.le_antisymm; auto.
  - rewrite col_zmax_None in E. elim (E m Hin).
Qed.

Lemma col_zmax_same_entries (c c' : list (option Z)) :
  (forall x, In (Some x) c <-> In (Some x) c') -> col_zmax c = col_zmax c'.
Proof.
  intros H. destruct (col_zmax c') as [m|] eqn:E.
  - apply col_zmax_Some in E. destruct E as (Hin & Hmax).
    apply col_zmax_is; [apply H, Hin|].
    intros x Hx. apply Hmax, H, Hx.
  - rewrite col_zmax_None in *. intros x Hx. apply (E x), H, Hx.
Qed.

Lemma next_set_no_above (data : list Workout) (d : Z) (ex : string)
  (w : Workout) (k : Z) :
  In w data -> w_date w = d -> w_exercise w = ex -> w_set_no w = Some k ->
  (k < next_set_no (db_load_sets data) d ex)%Z.
Proof.
  intros Hw Hd He Hk. rewrite next_set_no_eq.
  set (group := filter (fun w0 => (w_date w0 =? d)%Z
                                  && String.eqb (w_exercise w0) ex) data).
  assert (Hin : In (Some k) (map w_set_no group)).
  { rewrite <- Hk. apply in_map, filter_In. split; [exact Hw|].
    rewrite Hd, He, Z.eqb_refl, String.eqb_refl. reflexivity. }
  destruct (col_zmax (map w_set_no group)) as [m|] eqn:Em.
  - apply col_zmax_Some in Em. destruct Em as (_ & Hmax).
    specialize (Hmax k Hin). lia.
  - rewrite col_zmax_None in Em. elim (Em k Hin).
Qed.

Lemma group_after_submit (g : Workout -> bool) (new : Workout)
  (data data' : list Workout) :
  Permutation data' (new :: data) ->
  Permutation (filter g data')
              (if g new then new :: filter g data else filter g data).
Proof.
  intros H. apply (Permutation_filter g) in H. simpl in H.
  destruct (g new); exact H.
Qed.

(** X16. Once a submitted set has joined the table, the next set number of
    its own (date, exercise) group is one more than the number it was given,
    and the next set number of every other group is what it was. *)
Theorem set_numbers_run_on (data data' : list Workout) (d : Z)
  (ex : string) (weight : float) (reps0 : Z) (note0 : string)
  (Hsubmit : Permutation data'
               (submitted_row (db_load_sets data) d ex weight reps0 note0
                :: data)) :
  next_set_no (db_load_sets data') d ex
  = (next_set_no (db_load_sets data) d ex + 1)%Z /\
  forall d' ex', d' <> d \/ ex' <> ex ->
    next_set_no (db_load_sets data') d' ex'
    = next_set_no (db_load_sets data) d' ex'.
Proof.
  set (new := submitted_row (db_load_sets data) d ex weight reps0 note0)
    in *.
  set (n := next_set_no (db_load_sets data) d ex).
  split.
  - rewrite next_set_no_eq.
    pose proof (group_after_submit
                  (fun w => (w_date w =? d)%Z
                            && String.eqb (w_exercise w) ex)
                  new data data' Hsubmit) as Hg.
    simpl in Hg. rewrite Z.eqb_refl, String.eqb_refl in Hg. simpl in Hg.
    rewrite (col_zmax_is _ n); [reflexivity| |].
    + eapply Permutation_in;
        [apply Permutation_map, Permutation_sym, Hg | left; reflexivity].
    + intros x Hx.
      apply (Permutation_in _ (Permutation_map w_set_no Hg)) in Hx.
      destruct Hx as [[= <-]|Hx]; [fold n; lia|].
      apply in_map_iff in Hx. destruct Hx as (w & Hw & Hin).
      apply filter_In in Hin. destruct Hin as (Hin & Hgw).
      apply andb_true_iff in Hgw. destruct Hgw as (Hd & He).
      apply Z.eqb_eq in Hd. apply String.eqb_eq in He.
      pose proof (next_set_no_above data d ex w x Hin Hd He Hw). fold n in H.
      lia.
  - intros d' ex' Hother. rewrite !next_set_no_eq.
    pose proof (group_after_submit
                  (fun w => (w_date w =? d')%Z
                            && String.eqb (w_exercise w) ex')
                  new data data' Hsubmit) as Hg.
    simpl in Hg.
    assert (E : (d =? d')%Z && String.eqb ex ex' = false).
    { apply andb_false_iff. destruct Hother as [Hd|He].
      - left. apply Z.eqb_neq. congruence.
      - right. apply String.eqb_neq. congruence. }
    rewrite E in Hg.
    rewrite (col_zmax_same_entries _ _
               (fun x => conj
                  (Permutation_in _ (Permutation_map w_set_no Hg))
                  (Permutation_in _
                     (Permutation_sym (Permutation_map w_set_no Hg))))).
    reflexivity.
Qed.

Lemma set_numbers_run_on_witness :
  let new :=
    submitted_row (db_load_sets two_by_two) 2 "Squat" 100 5 EmptyString in
  next_set_no (db_load_sets (two_by_two ++ [new])) 2 "Squat"
  = (next_set_no (db_load_sets two_by_two) 2 "Squat" + 1)%Z.
Proof.
  intros new.
  apply (set_numbers_run_on two_by_two (two_by_two ++ [new]) 2 "Squat"
           100%float 5%Z EmptyString).
  apply Permutation_sym, Permutation_cons_append.
Defined.

Lemma tail1_In {A : Type} (l : list A) (x : A) : tail1 l = Some x -> In x l.
Proof.
  induction l as [|y l IH]; [discriminate|].
  destruct l as [|z l]; [intros [= ->]; left; reflexivity|].
  intros H. right. apply IH, H.
Qed.

Lemma tail1_sorted_top (l : list Row) (r : Row) :
  StronglySorted (le_of set_no_leb) l -> tail1 l = Some r ->
  forall x, In x l -> key_leb (set_no x) (set_no r) = true.
Proof.
  induction 1 as [|y l Hs IH Hall]; [discriminate|].
  destruct l as [|z l].
  - intros [= ->] x [<-|[]]. apply key_leb_refl.
  - intros Ht x [<-|Hx].
    + rewrite Forall_forall in Hall. apply Hall, tail1_In, Ht.
    + apply IH; assumption.
Qed.

Lemma loaded_submitted_row (data : list Workout) (new : Workout)
  (data' : list Workout) (r : Row) (ex : string) (d n : Z) :
  Permutation data' (new :: data) ->
  w_set_no new = Some n ->
  (forall w k, In w data -> w_date w = d -> w_exercise w = ex ->
               w_set_no w = Some k -> (k < n)%Z) ->
  (forall w, In w data -> w_exercise w = ex -> w_date w = d ->
             w_set_no w <> None) ->
  In r (load_rows 0 data') -> on_day ex d r = true ->
  key_leb (Some n) (set_no r) = true ->
  r = load_row (idx r) new.
Proof.
  intros Hperm Hn Hbelow Hnumbered Hr Hday Hkey.
  destruct (load_rows_In _ _ _ Hr) as (w & Hw & E).
  apply (Permutation_in _ Hperm) in Hw.
  destruct Hw as [<-|Hw]; [exact E|].
  apply andb_true_iff in Hday. destruct Hday as (He & Hd).
  apply String.eqb_eq in He. apply Z.eqb_eq in Hd.
  rewrite E in He, Hd, Hkey. simpl in He, Hd, Hkey.
  destruct (w_set_no w) as [k|] eqn:Ek.
  - specialize (Hbelow w k Hw Hd He Ek). simpl in Hkey.
    apply Z.leb_le in Hkey. lia.
  - elim (Hnumbered w Hw He Hd Ek).
Qed.

Lemma latest_day_after_submit (data : list Workout) (new : Workout)
  (data' : list Workout) (ex : string) (d d2 : Z) :
  Permutation data' (new :: data) ->
  w_date new = d -> w_exercise new = ex -> (d < d2)%Z ->
  (forall w, In w data -> w_exercise w = ex -> (w_date w < d2)%Z ->
             (w_date w <= d)%Z) ->
  existsb (prev_mask ex d2) (load_rows 0 data') = true /\
  col_zmax (map (fun r => Some (date r))
                (filter (prev_mask ex d2) (load_rows 0 data')))
  = Some d.
Proof.
  intros Hperm Hd He Hlt Hbetween.
  assert (Hnew : In new data').
  { eapply Permutation_in; [apply Permutation_sym, Hperm|].
    left. reflexivity. }
  destruct (In_load_rows data' 0 new Hnew) as (j & Hj).
  assert (Hm : prev_mask ex d2 (load_row j new) = true).
  { unfold prev_mask. simpl. rewrite He, Hd, String.eqb_refl. simpl.
    apply Z.ltb_lt, Hlt. }
  split.
  - apply existsb_exists. exists (load_row j new). auto.
  - apply col_zmax_is.
    + apply in_map_iff. exists (load_row j new). simpl. rewrite Hd.
      split; [reflexivity|]. apply filter_In. auto.
    + intros x Hx. apply in_map_iff in Hx.
      destruct Hx as (r & [= <-] & Hr). apply filter_In in Hr.
      destruct Hr as (Hr & Hmask).
      destruct (load_rows_In _ _ _ Hr) as (w & Hw & E).
      apply andb_true_iff in Hmask. destruct Hmask as (Hex & Hdate).
      apply String.eqb_eq in Hex. apply Z.ltb_lt in Hdate.
      rewrite E in Hex, Hdate |- *. simpl in *.
      apply (Permutation_in _ Hperm) in Hw.
      destruct Hw as [<-|Hw]; [lia|]. apply Hbetween; assumption.
Qed.

Lemma last_set_after_submit (data data' : list Workout) (d d2 : Z)
  (ex : string) (weight : float) (reps0 : Z) (note0 : string) :
  let new := submitted_row (db_load_sets data) d ex weight reps0 note0 in
  Permutation data' (new :: data) ->
  (forall w, In w data -> w_exercise w = ex -> w_date w = d ->
             w_set_no w <> None) ->
  exists r,
    tail1 (sort_values_set_no
             (filter (on_day ex d) (load_rows 0 data'))) = Some r /\
    r = load_row (idx r) new.
Proof.
  intros new Hperm Hnumbered.
  set (F := filter (on_day ex d) (load_rows 0 data')).
  assert (Hnew : In new data').
  { eapply Permutation_in; [apply Permutation_sym, Hperm|].
    left. reflexivity. }
  destruct (In_load_rows data' 0 new Hnew) as (j & Hj).
  assert (HF : In (load_row j new) F).
  { apply filter_In. split; [exact Hj|]. unfold on_day. simpl.
    rewrite String.eqb_refl, Z.eqb_refl. reflexivity. }
  destruct (tail1 (sort_values_set_no F)) as [r|] eqn:Et.
  - exists r. split; [reflexivity|].
    assert (Hr : In r F).
    { apply (sort_by_In set_no_leb). apply tail1_In, Et. }
    apply filter_In in Hr. destruct Hr as (Hr & Hday).
    apply (loaded_submitted_row data new data' r ex d
             (next_set_no (db_load_sets data) d ex));
      try assumption; try reflexivity.
    + intros w k Hw Hd He Hk.
      apply (next_set_no_above data d ex w k); assumption.
    + apply (tail1_sorted_top (sort_values_set_no F) r
               (sort_values_set_no_sorted F) Et (load_row j new)).
      apply (sort_by_In set_no_leb), HF.
  - apply tail1_None in Et.
    assert (Hin : In (load_row j new) (sort_values_set_no F))
      by (apply (sort_by_In set_no_leb), HF).
    rewrite Et in Hin. destruct Hin.
Qed.

(** X17. A set entered for an exercise comes back as the previous session's
    last line and as the default entries of the form: once it has joined the
    table, on any later date with no session of the exercise in between, and
    provided the sets of its session that were already there are numbered,
    the previous-session block shows its date with the new set on the last
    line, and the form starts from its weight and repetitions (zero
    repetitions give 1). *)
Theorem submitted_set_comes_back (data data' : list Workout) (d d2 : Z)
  (ex : string) (weight : float) (reps0 : Z) (note0 : string)
  (Hsubmit : Permutation data'
               (submitted_row (db_load_sets data) d ex weight reps0 note0
                :: data))
  (Hlater : (d < d2)%Z)
  (Hbetween : forall w, In w data -> w_exercise w = ex ->
                        (w_date w < d2)%Z -> (w_date w <= d)%Z)
  (Hnumbered : forall w, In w data -> w_exercise w = ex -> w_date w = d ->
                         w_set_no w <> None) :
  last_defaults (db_load_sets data') ex d2
  = Returns (if (weight =? 0)%float then Some 0%float else Some weight,
             if (reps0 =? 0)%Z then 1%Z else reps0) /\
  exists p,
    prev_block (db_load_sets data') ex d2 = Ok (Some p) /\
    prev_day p = d /\
    tail1 (prev_df p)
    = Some {| p_set_no := Some (next_set_no (db_load_sets data) d ex);
              p_weight_kg := Some weight; p_reps := Some reps0;
              p_e1rm := value (est_1rm_epley (Some weight) (Some reps0));
              p_note := note0 |}.
Proof.
  set (new := submitted_row (db_load_sets data) d ex weight reps0 note0)
    in *.
  destruct (latest_day_after_submit data new data' ex d d2 Hsubmit
              eq_refl eq_refl Hlater Hbetween) as (Hany & Hday).
  destruct (last_set_after_submit data data' d d2 ex weight reps0 note0
              Hsubmit Hnumbered) as (r & Ht & Er).
  fold new in Er.
  assert (Hne : data' <> []).
  { intros E. rewrite E in Hsubmit. apply Permutation_nil in Hsubmit.
    discriminate. }
  assert (Hload : db_load_sets data' = Frame (load_rows 0 data'))
    by (destruct data'; [elim Hne|]; reflexivity).
  assert (Hempty : negb (empty (Frame (load_rows 0 data'))) = true)
    by (destruct data'; [elim Hne|]; reflexivity).
  rewrite Hload.
  split.
  - unfold last_defaults, getitem, bind.
    rewrite Hempty, Hany, Hday, Ht. cbv zeta.
    rewrite Er. reflexivity.
  - unfold prev_block, getitem, bind.
    rewrite Hempty, Hany, Hday. cbv zeta.
    eexists. split; [reflexivity|]. split; [reflexivity|].
    simpl prev_df. rewrite assign_e1rm_loaded, tail1_map, Ht.
    rewrite Er. reflexivity.
Qed.

Lemma submitted_set_comes_back_witness :
  let new :=
    submitted_row (db_load_sets two_by_two) 2 "Squat" 100 5 EmptyString in
  last_defaults (db_load_sets (two_by_two ++ [new])) "Squat" 7
  = Returns (Some 100%float, 5%Z).
Proof.
  intros new.
  refine (proj1 (submitted_set_comes_back two_by_two (two_by_two ++ [new])
                   2 7 "Squat" 100%float 5%Z EmptyString _ _ _ _)).
  - apply Permutation_sym, Permutation_cons_append.
  - lia.
  - intros w Hw _ _. simpl in Hw.
    repeat (destruct Hw as [<-|Hw]; [simpl; lia|]). destruct Hw.
  - intros w Hw _ _. simpl in Hw.
    repeat (destruct Hw as [<-|Hw]; [discriminate|]). destruct Hw.
Defined.


(** X13. The record flag depends on which observations the table holds and
    on nothing else: two tables with the same observations, in any order and
    with any repetition, give the same flag. *)
Theorem record_flag_observations (data data' : list Workout) (day : Z)
  (ex : string) :
  (forall w, In w data <-> In w data') ->
  record_flag (load_rows 0 data') day ex
  = record_flag (load_rows 0 data) day ex.
Proof.
  intros Hsame.
  assert (Hbest : forall d d' (P : Workout -> Prop) b,
            (forall w, In w d -> In w d') -> (forall w, In w d' -> In w d) ->
            best_estimate d P b -> best_estimate d' P b).
  { intros d d' P b H1 H2 ((w & Hw & H) & Hmax). split.
    - exists w. split; [apply H1, Hw | exact H].
    - intros w' v Hw'. apply Hmax, H2, Hw'. }
  assert (Hto : forall w, In w data -> In w data')
    by (intros w; apply Hsame).
  assert (Hfrom : forall w, In w data' -> In w data)
    by (intros w; apply Hsame).
  apply eq_true_iff_eq. rewrite !record_flag_records. cbv zeta. split.
  - intros [H|(h & m & Bh & Bm & Hlt)].
    + left. intros w v Hw. apply H, Hto, Hw.
    + right. exists h, m.
      split; [apply (Hbest data' data _ _ Hfrom Hto Bh)|].
      split; [apply (Hbest data' data _ _ Hfrom Hto Bm) | exact Hlt].
  - intros [H|(h & m & Bh & Bm & Hlt)].
    + left. intros w v Hw. apply H, Hfrom, Hw.
    + right. exists h, m.
      split; [apply (Hbest data data' _ _ Hto Hfrom Bh)|].
      split; [apply (Hbest data data' _ _ Hto Hfrom Bm) | exact Hlt].
Qed.

Lemma record_flag_observations_witness :
  record_flag (load_rows 0 (rev clear_record)) 2 "Bench Press"
  = record_flag (load_rows 0 clear_record) 2 "Bench Press".
Proof.
  apply (record_flag_observations clear_record (rev clear_record) 2
           "Bench Press").
  intros w. apply in_rev.
Defined.
(** ** The day view as a whole *)

Lemma filter_disjoint_app {A : Type} (p q : A -> bool) (l : list A) :
  (forall x, In x l -> p x = true -> q x = false) ->
  Permutation (filter p l ++ filter q l) (filter (fun x => p x || q x) l).
Proof.
  induction l as [|x l IH]; intros H; simpl; [constructor|].
  assert (IH' : Permutation (filter p l ++ filter q l)
                            (filter (fun x => p x || q x) l))
    by (apply IH; intros y Hy; apply H; right; exact Hy).
  destruct (p x) eqn:Ep; simpl.
  - rewrite (H x (or_introl eq_refl) Ep). apply perm_skip, IH'.
  - destruct (q x); simpl; [|exact IH'].
    eapply perm_trans; [apply Permutation_sym, Permutation_middle|].
    apply perm_skip, IH'.
Qed.

Lemma groups_cover (names : list string) (l : list Row) :
  NoDup names ->
  Permutation
    (flat_map (fun ex => filter (fun r => String.eqb (exercise r) ex) l)
              names)
    (filter (fun r => existsb (String.eqb (exercise r)) names) l).
Proof.
  induction 1 as [|ex names Hnot Hnd IH]; simpl.
  - rewrite filter_none; [constructor | reflexivity].
  - eapply perm_trans; [apply Permutation_app_head, IH|].
    apply filter_disjoint_app. intros r _ Hr.
    apply String.eqb_eq in Hr.
    destruct (existsb (String.eqb (exercise r)) names) eqn:E;
      [|reflexivity].
    apply existsb_exists in E. destruct E as (ex' & Hin & E).
    apply String.eqb_eq in E. congruence.
Qed.

Lemma flat_map_perm_pointwise {A B : Type} (f g : A -> list B)
  (l : list A) :
  (forall x, Permutation (f x) (g x)) ->
  Permutation (flat_map f l) (flat_map g l).
Proof.
  intros H. induction l as [|x l IH]; simpl; [constructor|].
  apply Permutation_app; [apply H | exact IH].
Qed.

Lemma string_leb_trans (a b c : string) :
  String.leb a b = true -> String.leb b c = true -> String.leb a c = true.
Proof.
  unfold String.leb.
  destruct (String.compare a b) eqn:Eab; try discriminate;
    destruct (String.compare b c) eqn:Ebc; try discriminate; intros _ _.
  - apply String.compare_eq_iff in Eab, Ebc. subst.
    rewrite string_compare_refl. reflexivity.
  - apply String.compare_eq_iff in Eab. subst. rewrite Ebc. reflexivity.
  - apply String.compare_eq_iff in Ebc. subst. rewrite Eab. reflexivity.
  - rewrite (string_compare_Lt_trans _ _ _ Eab Ebc). reflexivity.
Qed.


(** The reports that the day view returns, one per exercise name. *)
Lemma day_view_reports (data : list Workout) (day : Z)
  (reports : list ExerciseReport) :
  let rows := load_rows 0 data in
  let today := today_sets rows day in
  let names := sorted_names (unique String.eqb (map exercise today)) in
  day_view (db_load_sets data) day = Ok (Some reports) ->
  (forall ex, In ex names -> Forall printable (ex_df today ex)) /\
  map rep_exercise reports = names /\
  map (fun rep => map line_row (rep_lines rep)) reports
  = map (ex_df today) names.
Proof.
  intros rows today names Hview.
  apply day_view_Ok in Hview. fold rows in Hview.
  assert (Ea : assign_e1rm (today_sets rows day) = today)
    by apply assign_e1rm_loaded.
  rewrite Ea in Hview. fold names in Hview.
  destruct Hview as (_ & _ & Hall).
  split.
  { intros ex Hex. destruct (Forall2_In_l _ _ _ _ Hall Hex) as (rep & _ & E).
    apply exercise_report_Ok in E. apply E. }
  clear - Hall. induction Hall as [|ex rep names reports Hex _ IH]; simpl.
  - split; reflexivity.
  - destruct IH as (IH1 & IH2). rewrite IH1, IH2.
    apply exercise_report_Ok in Hex. destruct Hex as (_ & _ & ->). simpl.
    rewrite map_map. simpl. rewrite map_id. split; reflexivity.
Qed.

(** X14. When the day view returns, its loops have gone through the
    exercises logged on the day in ascending order of name, each once, and
    through the sets of each exercise; together the lines are exactly the
    rows of the table dated on the day: each is printed once, under its own
    exercise, and each has a set number and a repetition count. *)
Theorem day_view_lists_every_set (data : list Workout) (day : Z)
  (reports : list ExerciseReport) :
  day_view (db_load_sets data) day = Ok (Some reports) ->
  NoDup (map rep_exercise reports) /\
  StronglySorted (le_of String.leb) (map rep_exercise reports) /\
  (forall rep l, In rep reports -> In l (rep_lines rep) ->
     exercise (line_row l) = rep_exercise rep /\
     set_no (line_row l) <> None /\ reps (line_row l) <> None) /\
  Permutation
    (flat_map (fun rep => map line_row (rep_lines rep)) reports)
    (filter (fun r => (date r =? day)%Z) (load_rows 0 data)).
Proof.
  intros Hview.
  destruct (day_view_reports data day reports Hview)
    as (Hprint & Enames & Elines).
  set (today := today_sets (load_rows 0 data) day) in *.
  set (names := sorted_names (unique String.eqb (map exercise today))) in *.
  assert (Hnames : NoDup names).
  { eapply Permutation_NoDup; [apply sort_by_perm|].
    apply (unique_NoDup _ String.eqb_eq). }
  rewrite Enames. split; [exact Hnames|]. split.
  { apply sort_by_sorted.
    - apply String.leb_total.
    - apply string_leb_trans. }
  split.
  { intros rep l Hrep Hl.
    destruct (day_view_report data day reports rep Hview Hrep)
      as (_ & Hp & _ & _ & _ & _ & El).
    rewrite El in Hl. apply in_map_iff in Hl.
    destruct Hl as (r & <- & Hr). simpl.
    rewrite Forall_forall in Hp. split; [|apply Hp, Hr].
    unfold ex_df, sort_values_set_no in Hr.
    apply sort_by_In, filter_In in Hr. apply String.eqb_eq, Hr. }
  rewrite flat_map_concat_map, Elines, <- flat_map_concat_map.
  eapply perm_trans.
  { apply flat_map_perm_pointwise with (g := fun ex =>
      filter (fun r => String.eqb (exercise r) ex) today).
    intros ex. apply Permutation_sym, sort_values_set_no_perm. }
  eapply perm_trans; [apply groups_cover, Hnames|].
  rewrite filter_all_true; [apply Permutation_refl|].
  intros r Hr. apply existsb_exists. exists (exercise r). split.
  - apply (proj2 (sorted_names_In _ _)), in_map, Hr.
  - apply String.eqb_refl.
Qed.

Lemma day_view_lists_every_set_witness :
  exists reports,
    day_view (db_load_sets two_by_two) 2 = Ok (Some reports) /\
    Permutation
      (flat_map (fun rep => map line_row (rep_lines rep)) reports)
      (filter (fun r => (date r =? 2)%Z) (load_rows 0 two_by_two)).
Proof.
  eexists. split; [reflexivity|].
  apply (day_view_lists_every_set two_by_two 2 _ eq_refl).
Defined.

(** X15. In a report that the day view returns at most one line carries the
    record badge, and a line that carries it is the session-best line of a
    record day.  On a record day with a defined session maximum exactly one
    line carries it. *)
Theorem record_badge_lines (data : list Workout) (day : Z)
  (reports : list ExerciseReport) (rep : ExerciseReport) :
  day_view (db_load_sets data) day = Ok (Some reports) ->
  In rep reports ->
  (List.length (filter show_pr (rep_lines rep)) <= 1)%nat /\
  (forall l, In l (rep_lines rep) -> show_pr l = true ->
             is_session_best l = true /\ rep_is_pr_day rep = true) /\
  (rep_is_pr_day rep = true -> rep_max_e1rm rep <> None ->
   List.length (filter show_pr (rep_lines rep)) = 1%nat).
Proof.
  intros Hview Hrep.
  destruct (day_view_report data day reports rep Hview Hrep)
    as (_ & _ & Emax & _ & _ & _ & Elines).
  set (df := ex_df (assign_e1rm (today_sets (load_rows 0 data) day))
                   (rep_exercise rep)) in *.
  assert (Hc : clean_rows df) by apply today_clean.
  assert (Hnd : NoDup (map idx df)) by apply ex_df_idx_NoDup.
  rewrite Elines, Emax. set (pr := rep_is_pr_day rep). clearbody pr.
  unfold max_e1rm.
  rewrite filter_map_swap, length_map. simpl.
  assert (Hbest : forall i, idxmax df = Some i ->
            List.length (filter (fun row => Nat.eqb (idx row) i) df)
            = 1%nat).
  { intros i Hi.
    destruct (idxmax_Some df i Hc Hi)
      as (l1 & r & l2 & v & Hdf & Hidx & _).
    subst i. rewrite Hdf, filter_label_unique by (rewrite <- Hdf; exact Hnd).
    reflexivity. }
  split; [|split].
  - destruct pr.
    + destruct (idxmax df) as [i|] eqn:Hi; simpl.
      * rewrite (filter_ext _ (fun row => Nat.eqb (idx row) i))
          by (intros a; apply andb_true_r).
        rewrite (Hbest i eq_refl). constructor.
      * rewrite filter_none; [simpl; lia | reflexivity].
    + rewrite filter_none; [simpl; lia|].
      intros r _. apply andb_false_r.
  - intros l Hl Hpr. apply in_map_iff in Hl.
    destruct Hl as (r & <- & _). simpl in *.
    apply andb_true_iff in Hpr. exact Hpr.
  - intros Hday Hmax. rewrite Hday.
    destruct (idxmax df) as [i|] eqn:Hi; simpl.
    + rewrite (filter_ext _ (fun row => Nat.eqb (idx row) i))
        by (intros a; apply andb_true_r).
      apply (Hbest i eq_refl).
    + elim Hmax. apply (col_max_None _ (clean_rows_col _ Hc)).
      intros x Hx.
      apply in_map_iff in Hx. destruct Hx as (r & Hr & Hin).
      rewrite (idxmax_None _ Hc) in Hi. rewrite (Hi r Hin) in Hr.
      discriminate.
Qed.

Lemma record_badge_lines_witness :
  exists reports rep,
    day_view (db_load_sets tied_sets) 10 = Ok (Some reports) /\
    In rep reports /\
    List.length (filter show_pr (rep_lines rep)) = 1%nat.
Proof.
  eexists. eexists. split; [reflexivity|]. split; [left; reflexivity|].
  apply (proj2 (proj2 (record_badge_lines tied_sets 10 _ _ eq_refl
                         (or_introl eq_refl))));
    [reflexivity | discriminate].
Defined.

(** X20. What the day view does on a table that is not empty.  It shows the
    notice when no set is dated on the day.  It raises [TypeError] when no
    set of the day has an estimate, or when a set of the day lacks its set
    number or its repetition count.  Otherwise it returns its reports. *)
Theorem day_view_outcome (data : list Workout) (day : Z) :
  data <> [] ->
  let no_estimate :=
    forall w, In w data -> w_date w = day ->
              est_1rm_epley (w_weight_kg w) (w_reps w) = None in
  let unprintable :=
    exists w, In w data /\ w_date w = day /\
              (w_set_no w = None \/ w_reps w = None) in
  match day_view (db_load_sets data) day with
  | Ok None => forall w, In w data -> w_date w <> day
  | Ok (Some reports) =>
      (exists w, In w data /\ w_date w = day) /\
      ~ no_estimate /\ ~ unprintable
  | Raise e =>
      e = TypeError /\ (exists w, In w data /\ w_date w = day) /\
      (no_estimate \/ unprintable)
  end.
Proof.
  intros Hne no_estimate unprintable.
  assert (Hday : today_sets (load_rows 0 data) day <> [] ->
                 exists w, In w data /\ w_date w = day).
  { intros H. destruct (today_sets (load_rows 0 data) day) as [|r rest]
      eqn:Et; [elim H; reflexivity|].
    assert (Hr : In r (today_sets (load_rows 0 data) day))
      by (rewrite Et; left; reflexivity).
    apply filter_In in Hr. destruct Hr as (Hr & Hd).
    apply load_rows_In in Hr. destruct Hr as (w & Hw & E).
    exists w. rewrite E in Hd. simpl in Hd. apply Z.eqb_eq in Hd. auto. }
  assert (Hrow : forall r ex,
            In r (ex_df (assign_e1rm (today_sets (load_rows 0 data) day))
                        ex) ->
            exists w, In w data /\ w_date w = day /\
                      set_no r = w_set_no w /\ reps r = w_reps w).
  { intros r ex Hr. apply today_rows_In in Hr.
    destruct Hr as (Hr & Hd & _). apply load_rows_In in Hr.
    destruct Hr as (w & Hw & E). exists w. rewrite E in Hd |- *.
    simpl in *. auto. }
  destruct (day_view (db_load_sets data) day) as [[reports|]|e] eqn:Ev.
  - pose proof (day_view_Ok data day reports Ev) as (Hsome & Hobj & Hall).
    split; [apply Hday, Hsome|]. split.
    + intros Hno. apply (proj2 (object_dtype_loaded _ _)) in Hno.
      congruence.
    + intros (w & Hw & Hd & Hmiss).
      destruct (In_load_rows data 0 w Hw) as (j & Hj).
      assert (Hin : In (load_row j w)
                (ex_df (assign_e1rm (today_sets (load_rows 0 data) day))
                       (w_exercise w)))
        by (apply today_rows_In; auto).
      assert (Hex : In (w_exercise w)
                (sorted_names
                   (unique String.eqb
                      (map exercise
                           (assign_e1rm
                              (today_sets (load_rows 0 data) day)))))).
      { apply (proj2 (sorted_names_In _ _)). unfold today_sets.
        rewrite assign_e1rm_loaded. apply in_map_iff.
        exists (load_row j w). split; [reflexivity|].
        apply filter_In. split; [exact Hj|]. simpl. apply Z.eqb_eq, Hd. }
      destruct (Forall2_In_l _ _ _ _ Hall Hex) as (rep & _ & E).
      apply exercise_report_Ok in E. destruct E as (_ & Hp & _).
      rewrite Forall_forall in Hp. destruct (Hp _ Hin) as (H1 & H2).
      simpl in H1, H2. destruct Hmiss; contradiction.
  - destruct data as [|w0 data0]; [congruence|].
    set (data1 := w0 :: data0) in *.
    change (db_load_sets data1) with (Frame (load_rows 0 data1)) in Ev.
    unfold day_view, getitem, bind in Ev.
    destruct (null (today_sets (load_rows 0 data1) day)) eqn:En.
    + intros w Hw Hd. destruct (In_load_rows data1 0 w Hw) as (j & Hj).
      assert (Hin : In (load_row j w) (today_sets (load_rows 0 data1) day))
        by (apply filter_In; split; [exact Hj|]; simpl; apply Z.eqb_eq, Hd).
      destruct (today_sets (load_rows 0 data1) day); [destruct Hin|].
      discriminate.
    + destruct (for_each _ _); discriminate.
  - destruct data as [|w0 data0]; [congruence|].
    set (data1 := w0 :: data0) in *.
    change (db_load_sets data1) with (Frame (load_rows 0 data1)) in Ev.
    unfold day_view, getitem, bind in Ev.
    destruct (null (today_sets (load_rows 0 data1) day)) eqn:En;
      [discriminate|].
    assert (Hsome : today_sets (load_rows 0 data1) day <> [])
      by (intros E; rewrite E in En; discriminate).
    destruct (for_each _ _) as [reports|e'] eqn:El; [discriminate|].
    injection Ev as <-. apply for_each_raises in El.
    destruct El as (ex & _ & E). apply exercise_report_raises in E.
    destruct E as (-> & [Hobj|(row & Hrow' & Hbad)]).
    + split; [reflexivity|]. split; [apply Hday, Hsome|].
      left. exact (proj1 (object_dtype_loaded _ _) Hobj).
    + split; [reflexivity|]. split; [apply Hday, Hsome|]. right.
      destruct (Hrow row ex Hrow') as (w & Hw & Hd & Es & Er).
      exists w. split; [exact Hw|]. split; [exact Hd|].
      unfold printable in Hbad. rewrite Es, Er in Hbad.
      destruct (w_set_no w); [|left; reflexivity].
      destruct (w_reps w); [|right; reflexivity].
      elim Hbad. split; discriminate.
Qed.

Lemma day_view_outcome_witness :
  day_view (db_load_sets undefined_today) 2 = Raise TypeError.
Proof.
  pose proof (day_view_outcome undefined_today 2) as S.
  destruct (day_view (db_load_sets undefined_today) 2) as [[reports|]|e].
  - destruct (S ltac:(discriminate)) as (_ & Hno & _). elim Hno.
    intros w [<-|[<-|[]]] Hd; [discriminate Hd | reflexivity].
  - elim (S ltac:(discriminate) (a_set 2 "Bench Press" 1 80 0));
      [right; left; reflexivity | reflexivity].
  - destruct (S ltac:(discriminate)) as (-> & _). reflexivity.
Defined.
